(** * Tool-calling orchestrator and model battle engine

    A shallow embedding of [src/model_battle.py] (class [ModelBattle]), of
    [src/cli/client.py] (class [MCPClient]) and of the tools of
    [src/server/server.py], with the properties of their specification
    stated and proved over the embedding.

    Conventions of the embedding.
    - A Python [str] is a Rocq [string] that holds its UTF-8 encoding.
      Comparing and appending texts works on the encoding as it is; where
      the code counts, cuts or classifies characters ([len], [s[:100]],
      the digits of a regular expression) the embedding takes the text
      character by character ([Py.chars], [Py.code_points]).
    - A Python [float] score is an exact rational ([Q]); rounding, infinities
      and NaN are outside the model.
    - A [dict] is an association list in insertion order: assigning to an
      existing key keeps the key's position, as in Python.
    - Remote calls (DashScope [Generation.call], the MCP session) are oracles
      indexed by the number of calls issued before them; every function that
      performs calls threads the log of calls issued so far.
    - [print], wall-clock timing and [asyncio.sleep] are not modelled. *)

From Stdlib Require Import String Ascii List Bool Arith ZArith QArith Lia.
From Stdlib Require Import DecimalString.
Import ListNotations.

Set Warnings "-register-all".

Local Open Scope list_scope.
Local Open Scope string_scope.

(** ** Python runtime values shared by both programs *)

Module Py.

(** The outcome of an expression that may raise: [Raise e] carries
    [str(e)], the text of the exception. *)
Inductive Try (A : Type) : Type :=
| Ok (a : A)
| Raise (e : string).
Arguments Ok {A} a.
Arguments Raise {A} e.

(** [sep.join(parts)] *)
Definition join (sep : string) (parts : list string) : string :=
  String.concat sep parts.

(** *** Characters

    A character of a text starts at every byte of its encoding that is not
    a continuation byte, and takes the continuation bytes that follow. *)

Definition is_continuation (b : ascii) : bool :=
  ((128 <=? N_of_ascii b) && (N_of_ascii b <=? 191))%N.

(** The characters of a text, each as its bytes. *)
Fixpoint chars (s : string) : list string :=
  match s with
  | EmptyString => []
  | String b s' =>
      let rest := chars s' in
      match s' with
      | String d _ =>
          match rest with
          | ch :: chs =>
              if is_continuation d
              then String b ch :: chs
              else String b EmptyString :: ch :: chs
          | [] => [String b EmptyString]
          end
      | EmptyString => [String b EmptyString]
      end
  end.

(** [len(s)] *)
Definition py_len (s : string) : nat := List.length (chars s).

(** [s[:n]] *)
Definition py_prefix (n : nat) (s : string) : string :=
  String.concat EmptyString (firstn n (chars s)).

(** The code point that stands for bytes that encode no character. *)
Definition replacement : N := 65533%N.

(** The bits of the continuation bytes, appended to [acc]. *)
Fixpoint payload (acc : N) (tail : string) : N :=
  match tail with
  | EmptyString => acc
  | String b tail' => payload (acc * 64 + (N_of_ascii b - 128))%N tail'
  end.

(** The code point of a character: a leading byte below 128 stands alone;
    a leading byte from 192, 224 or 240 on takes one, two or three
    continuation bytes. *)
Definition code_point (ch : string) : N :=
  match ch with
  | EmptyString => replacement
  | String b tail =>
      let n := N_of_ascii b in
      let k := String.length tail in
      if (n <? 128)%N
      then (if Nat.eqb k 0 then n else replacement)
      else if (192 <=? n)%N && (n <? 224)%N && Nat.eqb k 1
      then payload (n - 192)%N tail
      else if (224 <=? n)%N && (n <? 240)%N && Nat.eqb k 2
      then payload (n - 224)%N tail
      else if (240 <=? n)%N && (n <? 248)%N && Nat.eqb k 3
      then payload (n - 240)%N tail
      else replacement
  end.

(** The characters of a text, each as its code point. *)
Definition code_points (s : string) : list N := map code_point (chars s).

(** The double-quote character, for texts that contain one. *)
Definition dquote : string := String "034"%char EmptyString.

(** The newline character, as a text. *)
Definition nl : string := String "010"%char EmptyString.

(** [str(n)] for an [int]. *)
Definition str_of_Z (z : Z) : string :=
  NilEmpty.string_of_int (Z.to_int z).

(** *** Insertion-ordered dictionaries with [str] keys *)

Definition dict (V : Type) : Type := list (string * V).

Fixpoint dict_get {V : Type} (d : dict V) (k : string) : option V :=
  match d with
  | [] => None
  | (k', v) :: d' => if String.eqb k' k then Some v else dict_get d' k
  end.

(** [d.get(k, default)] *)
Definition dict_get_default {V : Type} (d : dict V) (k : string) (default : V) : V :=
  match dict_get d k with
  | Some v => v
  | None => default
  end.

(** [d[k] = v] *)
Fixpoint dict_set {V : Type} (d : dict V) (k : string) (v : V) : dict V :=
  match d with
  | [] => [(k, v)]
  | (k', v') :: d' =>
      if String.eqb k' k then (k', v) :: d' else (k', v') :: dict_set d' k v
  end.

(** The dictionary left by the loop [for x in xs: d[key(x)] = val(x)]; with
    [d] empty it is the comprehension [{key(x): val(x) for x in xs}]. *)
Definition dict_fill {X V : Type} (key : X -> string) (val : X -> V)
           (xs : list X) (d : dict V) : dict V :=
  fold_left (fun d x => dict_set d (key x) (val x)) xs d.

(** [d.values()] *)
Definition dict_values {V : Type} (d : dict V) : list V := map snd d.

(** [sum(xs)]: Python starts from the integer 0 and adds left to right. *)
Definition py_sum (xs : list Q) : Q := fold_left Qplus xs 0%Q.

(** [max(items, key=lambda x: x[1])] on a non-empty sequence: the first
    item whose key is not exceeded by any later one; a later item replaces
    the candidate only when its key is strictly greater.  The keys are
    compared as the numbers they are; a key that is not a number (NaN) is
    outside the model. *)
Fixpoint max_by_value_from {K : Type} (best : K * Q) (items : list (K * Q)) : K * Q :=
  match items with
  | [] => best
  | it :: rest =>
      if Qle_bool (snd it) (snd best)
      then max_by_value_from best rest
      else max_by_value_from it rest
  end.

(** *** Decoded JSON values, as [json.loads] builds them *)

Inductive Json : Type :=
| JNull
| JBool (b : bool)
| JInt (z : Z)
| JFloat (q : Q)
| JStr (s : string)
| JArr (items : list Json)
| JObj (fields : dict Json).

(** [type(v).__name__] *)
Definition type_name (v : Json) : string :=
  match v with
  | JNull => "NoneType"
  | JBool _ => "bool"
  | JInt _ => "int"
  | JFloat _ => "float"
  | JStr _ => "str"
  | JArr _ => "list"
  | JObj _ => "dict"
  end.

(** [v.get(k, default)]: only a [dict] has the method; on any other value
    the attribute lookup raises [AttributeError]. *)
Definition py_get (v : Json) (k : string) (default : Json) : Try Json :=
  match v with
  | JObj d => Ok (dict_get_default d k default)
  | _ => Raise ("'" ++ type_name v ++ "' object has no attribute 'get'")
  end.

End Py.

(** ** [src/model_battle.py] *)

Module ModelBattle.
Import Py.

Inductive ModelType : Type :=
| DASHSCOPE_QWEN_AUDIO_TURBO_LATEST
| DASHSCOPE_QWEN_VL_MAX
| DASHSCOPE_QWEN
| DASHSCOPE_QWEN_MAX.

(** [model_type.value] *)
Definition value (m : ModelType) : string :=
  match m with
  | DASHSCOPE_QWEN_AUDIO_TURBO_LATEST => "qwen-audio-turbo-latest"
  | DASHSCOPE_QWEN_VL_MAX => "qwen-vl-max"
  | DASHSCOPE_QWEN => "qwen-turbo"
  | DASHSCOPE_QWEN_MAX => "qwen-max"
  end.

(** The mapping [{"score": ..., "comment": ...}] that [score_response]
    returns. *)
Record ScoreResult : Type := {
  score : Q;
  comment : Json
}.

(** [response_time] is wall-clock time and is left out. *)
Record ModelResponse : Type := {
  model_name : string;
  model_type : ModelType;
  response : string;
  scores : dict ScoreResult;
  token_count : option Z;
  error : option string
}.

Record BattleRound : Type := {
  round_number : Z;
  responses : list ModelResponse;
  round_scores : dict Q
}.

(** [timestamp] is wall-clock time and is left out. *)
Record BattleResult : Type := {
  question : string;
  rounds : list BattleRound;
  final_scores : dict Q;
  final_winner : string;
  final_answer : string
}.

(** What [Generation.call] does: it raises, or it returns a response
    object with its status code, [output.text] (taken to be a text),
    [message] and [usage.total_tokens] (absent when the response has no
    [usage]).  [GenRaises] also stands for an exception raised while the
    response is read inside the same [try]. *)
Inductive GenerationOutcome : Type :=
| GenRaises (e : string)
| GenResponse (status_code : Z) (text : string) (message : string)
              (total_tokens : option Z).

(** One Gateway call: the model identifier and the prompt. *)
Definition Call : Type := (string * string)%type.

(** Computations that issue Gateway calls thread the log of calls. *)
Definition IO (A : Type) : Type := list Call -> A * list Call.

Definition ret {A : Type} (a : A) : IO A := fun log => (a, log).

Definition bind {A B : Type} (m : IO A) (k : A -> IO B) : IO B :=
  fun log => let (a, log') := m log in k a log'.

Notation "x <- m ;; k" := (bind m (fun x => k))
  (at level 61, m at next level, right associativity).

(** Truth value of an [Optional[str]]: [None] and the empty text are false. *)
Definition truthy (e : option string) : bool :=
  match e with
  | Some s => negb (String.eqb s "")
  | None => false
  end.

(** *** The number found by [re.search(r'(\d+(?:\.\d+)?)', text)]

    In a pattern for texts [\d] stands for every decimal digit of
    Unicode, and [float] reads every such digit by its value. *)

(** The zeros of the decimal digits of Unicode 14.0, the table of
    Python 3.11: the ten digits of a script follow its zero. *)
Definition decimal_zeros : list N :=
  [48; 1632; 1776; 1984; 2406; 2534; 2662; 2790;
   2918; 3046; 3174; 3302; 3430; 3558; 3664; 3792;
   3872; 4160; 4240; 6112; 6160; 6470; 6608; 6784;
   6800; 6992; 7088; 7232; 7248; 42528; 43216; 43264;
   43472; 43504; 43600; 44016; 65296; 66720; 68912; 69734;
   69872; 69942; 70096; 70384; 70736; 70864; 71248; 71360;
   71472; 71904; 72016; 72784; 73040; 73120; 92768; 92864;
   93008; 120782; 120792; 120802; 120812; 120822; 123200; 123632;
   125264; 130032]%N.

(** The value of a decimal digit, [None] for any other character. *)
Definition decimal_value (c : N) : option N :=
  match find (fun zero => (zero <=? c)%N && (c <? zero + 10)%N) decimal_zeros with
  | Some zero => Some (c - zero)%N
  | None => None
  end.

Definition is_digit (c : N) : bool :=
  match decimal_value c with
  | Some _ => true
  | None => false
  end.

(** The full stop. *)
Definition dot : N := 46%N.

(** The longest run of digits at the head of a text, and what follows. *)
Fixpoint span_digits (s : list N) : list N * list N :=
  match s with
  | c :: s' =>
      if is_digit c
      then let (ds, rest) := span_digits s' in (c :: ds, rest)
      else ([], s)
  | [] => ([], [])
  end.

(** The match that starts at the head of [s], which begins with a digit:
    the digits, then a dot and more digits when both are there. *)
Definition match_number_here (s : list N) : list N :=
  let (ds, rest) := span_digits s in
  match rest with
  | c :: rest' =>
      if N.eqb c dot
      then
        let (fs, _) := span_digits rest' in
        match fs with
        | [] => ds
        | _ => (ds ++ dot :: fs)%list
        end
      else ds
  | [] => ds
  end.

(** [score_match.group(1)], leftmost match first; [None] when no digit
    occurs. *)
Fixpoint search_number (s : list N) : option (list N) :=
  match s with
  | [] => None
  | c :: s' =>
      if is_digit c then Some (match_number_here s) else search_number s'
  end.

Definition digit_value (c : N) : Z :=
  match decimal_value c with
  | Some d => Z.of_N d
  | None => 0%Z
  end.

(** Value of a run of digits read after the digits worth [acc]. *)
Fixpoint digits_value (acc : Z) (s : list N) : Z :=
  match s with
  | [] => acc
  | c :: s' => digits_value (10 * acc + digit_value c) s'
  end.

(** [float(m)] for a text [m] made of digits with at most one dot: the
    number that [m] writes, which [float] gives to the precision of a
    double. *)
Definition float_of_decimal (m : list N) : Q :=
  let (ds, rest) := span_digits m in
  match rest with
  | c :: fs =>
      if N.eqb c dot
      then Qmake (digits_value (digits_value 0 ds) fs)
                 (Pos.pow 10 (Pos.of_nat (List.length fs)))
      else inject_Z (digits_value 0 ds)
  | [] => inject_Z (digits_value 0 ds)
  end.

(** *** Vocabulary for statements about the number search *)

Definition all_digits (s : list N) : bool := forallb is_digit s.

Definition no_digit (s : list N) : bool :=
  forallb (fun c => negb (is_digit c)) s.

Definition starts_with_digit (s : list N) : bool :=
  match s with
  | c :: _ => is_digit c
  | [] => false
  end.

(** [m] is the first decimal number of [raw]: no digit comes before it, it
    is a longest run of digits [ds], extended by a dot and a longest run
    of digits [fs] when the run is followed by both. *)
Definition first_number (raw m : list N) : Prop :=
  exists pre ds rest,
    raw = (pre ++ ds ++ rest)%list
    /\ no_digit pre = true
    /\ ds <> []
    /\ all_digits ds = true
    /\ starts_with_digit rest = false
    /\ ((exists fs rest',
            rest = (dot :: fs ++ rest')%list
            /\ fs <> []
            /\ all_digits fs = true
            /\ starts_with_digit rest' = false
            /\ m = (ds ++ dot :: fs)%list)
        \/ ((forall rest', rest = dot :: rest' -> starts_with_digit rest' = false)
            /\ m = ds)).

Definition no_winner : string := "无获胜者".

(** The winner read off the final scores:
    [max(final_scores.items(), key=lambda x: x[1])[0]] when there are
    scores, the fixed text otherwise. *)
Definition winner_of (final_scores : dict Q) : string :=
  match final_scores with
  | first :: others => fst (max_by_value_from first others)
  | [] => no_winner
  end.

Section Engine.

(** [Generation.call(model=..., prompt=...)], by the number of calls
    issued before it. *)
Variable Generation_call : nat -> string -> string -> GenerationOutcome.

(** [json.loads] on a text; it raises [JSONDecodeError] only. *)
Variable json_loads : string -> Try Json.

(** [float] on a text. *)
Variable float_of_str : string -> Try Q.

(** Whether [float] of an [int] raises [OverflowError]: it does from
    [2^1024 - 2^970] on, the least magnitude that rounds beyond the largest
    double. *)
Definition float_overflows (z : Z) : bool :=
  (2 ^ 1024 - 2 ^ 970 <=? Z.abs z)%Z.

(** [float] of an [int] that it can take: the double nearest to it, the
    one with the even significand when two are equally near.  Up to
    [2^53] every integer is a double. *)
Definition nearest_double (z : Z) : Z :=
  let a := Z.abs z in
  if (a <? 2 ^ 53)%Z then z
  else
    let e := (Z.log2 a - 52)%Z in
    let q := Z.shiftr a e in
    let r := (a - Z.shiftl q e)%Z in
    let half := Z.shiftl 1 (e - 1) in
    let q' := if (half <? r)%Z || ((r =? half)%Z && Z.odd q)
              then (q + 1)%Z else q in
    (Z.sgn z * Z.shiftl q' e)%Z.

(** [float(v)] on a decoded value. *)
Definition py_float (v : Json) : Try Q :=
  match v with
  | JInt z =>
      if float_overflows z
      then Raise "int too large to convert to float"
      else Ok (inject_Z (nearest_double z))
  | JFloat q => Ok q
  | JBool b => Ok (if b then 1%Q else 0%Q)
  | JStr s => float_of_str s
  | _ => Raise ("float() argument must be a string or a real number, not '"
                  ++ type_name v ++ "'")
  end.

Definition call_dashscope_model (model_type : ModelType) (prompt : string)
  : IO ModelResponse :=
  fun log =>
    (match Generation_call (length log) (value model_type) prompt with
     | GenResponse status_code content message total_tokens =>
         if (status_code =? 200)%Z
         then {| model_name := value model_type;
                 model_type := model_type;
                 response := content;
                 scores := [];
                 token_count := total_tokens;
                 error := None |}
         else {| model_name := value model_type;
                 model_type := model_type;
                 response := "";
                 scores := [];
                 token_count := None;
                 error := Some ("API错误 (状态码: " ++ str_of_Z status_code
                                  ++ "): " ++ message) |}
     | GenRaises e =>
         {| model_name := value model_type;
            model_type := model_type;
            response := "";
            scores := [];
            token_count := None;
            error := Some ("调用失败: " ++ e) |}
     end,
     (log ++ [(value model_type, prompt)])%list).

Definition call_model (model_type : ModelType) (prompt : string)
  : IO ModelResponse :=
  call_dashscope_model model_type prompt.

Definition generate_scoring_prompt (question : string)
           (response : ModelResponse) : string :=
  join nl
    [ "请对以下AI回答进行评分和简要评价。评分标准如下：";
      "1. 准确性和完整性 (40分)：回答是否准确、全面地解答了问题";
      "2. 逻辑性和结构性 (30分)：论述是否清晰、有条理";
      "3. 创新性和深度 (30分)：是否有独特见解和深入分析";
      "";
      "问题：" ++ question;
      "";
      "回答内容：";
      response.(ModelBattle.response);
      "";
      "请给出总分(0-100分)和简短评价。";
      "格式要求：只需要返回一个JSON字符串，包含score和comment两个字段，例如：";
      "{" ++ dquote ++ "score" ++ dquote ++ ": 85, "
          ++ dquote ++ "comment" ++ dquote ++ ": "
          ++ dquote ++ "回答准确全面，逻辑清晰，但创新性略显不足"
          ++ dquote ++ "}" ].

(** The [except json.JSONDecodeError] branch of [score_response]. *)
Definition fallback_score (raw : string) : ScoreResult :=
  let score_match := search_number (code_points raw) in
  {| score := match score_match with
              | Some m => float_of_decimal m
              | None => 0%Q
              end;
     comment := JStr (if (100 <? py_len raw)%nat
                      then py_prefix 100 raw ++ "..."
                      else raw) |}.

(** The [try] block of [score_response] on the scorer's text. *)
Definition parse_score (raw : string) : ScoreResult :=
  match json_loads raw with
  | Ok result =>
      match py_get result "score" (JInt 0) with
      | Ok s =>
          match py_float s with
          | Ok q =>
              match py_get result "comment" (JStr "无评价") with
              | Ok c => {| score := q; comment := c |}
              | Raise e => {| score := 0%Q; comment := JStr ("评分解析错误: " ++ e) |}
              end
          | Raise e => {| score := 0%Q; comment := JStr ("评分解析错误: " ++ e) |}
          end
      | Raise e => {| score := 0%Q; comment := JStr ("评分解析错误: " ++ e) |}
      end
  | Raise _ => fallback_score raw
  end.

Definition score_response (question : string) (response : ModelResponse)
           (scorer_model : ModelType) : IO ScoreResult :=
  let scoring_prompt := generate_scoring_prompt question response in
  scoring_response <- call_model scorer_model scoring_prompt ;;
  ret (if truthy scoring_response.(error)
       then {| score := 0%Q;
               comment := JStr ("评分失败: " ++
                                match scoring_response.(error) with
                                | Some e => e
                                | None => "None"
                                end) |}
       else parse_score scoring_response.(ModelBattle.response)).

(** The answer phase of [battle_round]: one call per model, in the order
    of [models] (no call suspends, so [asyncio.gather] runs them in
    that order). *)
Fixpoint gather_answers (question : string) (models : list ModelType)
  : IO (list ModelResponse) :=
  match models with
  | [] => ret []
  | model :: rest =>
      r <- call_model model question ;;
      rs <- gather_answers question rest ;;
      ret (r :: rs)
  end.

(** [response.scores = new_scores] *)
Definition with_scores (response : ModelResponse)
           (new_scores : dict ScoreResult) : ModelResponse :=
  {| model_name := response.(model_name);
     model_type := response.(model_type);
     response := response.(ModelBattle.response);
     scores := new_scores;
     token_count := response.(token_count);
     error := response.(error) |}.

(** The inner loop [for j, scorer_model in enumerate(models)] for the
    response at index [i]; [j] is the index of the head of [scorers] and
    [acc] is [response.scores] so far. *)
Fixpoint score_by_models (question : string) (response : ModelResponse)
         (i j : nat) (scorers : list ModelType) (acc : dict ScoreResult)
  : IO (dict ScoreResult) :=
  match scorers with
  | [] => ret acc
  | scorer_model :: rest =>
      if Nat.eqb i j
      then score_by_models question response i (S j) rest acc
      else
        score_result <- score_response question response scorer_model ;;
        score_by_models question response i (S j) rest
          (dict_set acc (value scorer_model) score_result)
  end.

(** The outer loop [for i, response in enumerate(responses)]; [i] is the
    index of the head of [rs]. *)
Fixpoint score_responses (question : string) (models : list ModelType)
         (i : nat) (rs : list ModelResponse) : IO (list ModelResponse) :=
  match rs with
  | [] => ret []
  | response :: rest =>
      if truthy response.(error)
      then
        rest' <- score_responses question models (S i) rest ;;
        ret (with_scores response [] :: rest')
      else
        sc <- score_by_models question response i 0 models [] ;;
        rest' <- score_responses question models (S i) rest ;;
        ret (with_scores response sc :: rest')
  end.

(** The score a response gets in its round: the mean of the scores it
    holds, 0 for a response with an error or without scores. *)
Definition mean_score (response : ModelResponse) : Q :=
  if negb (truthy response.(error))
     && negb (Nat.eqb (List.length response.(scores)) 0)
  then
    let scores := map score (dict_values response.(scores)) in
    match scores with
    | [] => 0%Q
    | _ => (py_sum scores / inject_Z (Z.of_nat (List.length scores)))%Q
    end
  else 0%Q.

Definition battle_round (round_number : Z) (question : string)
           (models : list ModelType) : IO BattleRound :=
  responses <- gather_answers question models ;;
  let valid_responses :=
    filter (fun r => negb (truthy r.(error))) responses in
  if (List.length valid_responses <? 2)%nat
  then
    let round_scores :=
      dict_fill model_name (fun _ => 0%Q) responses [] in
    ret {| round_number := round_number;
           responses := responses;
           round_scores := round_scores |}
  else
    responses <- score_responses question models 0 responses ;;
    let round_scores := dict_fill model_name mean_score responses [] in
    ret {| round_number := round_number;
           responses := responses;
           round_scores := round_scores |}.

(** The loop [for round_num in range(num_rounds)] with [n] iterations
    left, the next one being iteration [round_num]. *)
Fixpoint battle_rounds (n : nat) (round_num : Z) (question : string)
         (models : list ModelType) : IO (list BattleRound) :=
  match n with
  | O => ret []
  | S n' =>
      round_result <- battle_round (round_num + 1) question models ;;
      rest <- battle_rounds n' (round_num + 1) question models ;;
      ret (round_result :: rest)
  end.

(** The rounds that the loop of [battle] runs after iteration
    [round_num], on the log [log]: each is what [battle_round] returns for
    the next round number on the log that the round before left, and the
    last log is the log that the loop leaves. *)
Inductive rounds_run (question : string) (models : list ModelType)
  : Z -> list Call -> list BattleRound -> list Call -> Prop :=
| rounds_done (round_num : Z) (log : list Call) :
    rounds_run question models round_num log [] log
| rounds_step (round_num : Z) (log log1 log2 : list Call)
              (round_result : BattleRound) (rest : list BattleRound) :
    battle_round (round_num + 1) question models log = (round_result, log1) ->
    rounds_run question models (round_num + 1) log1 rest log2 ->
    rounds_run question models round_num log (round_result :: rest) log2.

(** [sum(round_result.scores.get(model_name, 0) for round_result in rounds)] *)
Definition total_score (rounds : list BattleRound) (model_name : string) : Q :=
  py_sum (map (fun round_result =>
                 dict_get_default round_result.(round_scores) model_name 0%Q)
              rounds).

(** The loop over [rounds[-1].responses] that picks the final answer. *)
Fixpoint find_answer (winner : string) (rs : list ModelResponse) : string :=
  match rs with
  | [] => ""
  | response :: rest =>
      if String.eqb response.(model_name) winner
         && negb (truthy response.(error))
      then response.(ModelBattle.response)
      else find_answer winner rest
  end.

(** [rounds[-1]] *)
Fixpoint last_round (rounds : list BattleRound) : Try BattleRound :=
  match rounds with
  | [] => Raise "list index out of range"
  | [r] => Ok r
  | _ :: rest => last_round rest
  end.

Definition battle (question : string) (models : list ModelType)
           (num_rounds : Z) : IO (Try BattleResult) :=
  rounds <- battle_rounds (Z.to_nat num_rounds) 0 question models ;;
  let final_scores :=
    dict_fill value (fun model_type => total_score rounds (value model_type))
              models [] in
  let winner := winner_of final_scores in
  let result final_answer :=
    {| question := question;
       rounds := rounds;
       final_scores := final_scores;
       final_winner := winner;
       final_answer := final_answer |} in
  if negb (String.eqb winner no_winner)
  then
    match last_round rounds with
    | Ok last => ret (Ok (result (find_answer winner last.(responses))))
    | Raise e => ret (Raise e)
    end
  else ret (Ok (result "")).

End Engine.

(** *** Vocabulary for statements about rounds *)

(** [not r.error] *)
Definition error_free (r : ModelResponse) : bool := negb (truthy r.(error)).

(** A Gateway call that yields no answer: it raises, or its status is not
    200. *)
Definition failed (o : GenerationOutcome) : bool :=
  match o with
  | GenRaises _ => true
  | GenResponse status_code _ _ _ => negb (status_code =? 200)%Z
  end.

(** The calls of the answer phase: one per model, each with the question. *)
Definition answer_calls (question : string) (models : list ModelType)
  : list Call :=
  map (fun m => (value m, question)) models.

(** The score [scorer] gave to the answer [subject], when it gave one. *)
Definition given_score (subject : ModelResponse) (scorer : ModelType)
  : option Q :=
  option_map score (dict_get subject.(scores) (value scorer)).

End ModelBattle.

(** ** [src/cli/client.py] *)

Module MCPClient.
Import Py.

(** A tool as the MCP session lists it. *)
Record Tool : Type := {
  name : string;
  description : string;
  inputSchema : Json
}.

(** One tool call of the model's message, in the shapes [process_query]
    tells apart: an object with a [function] attribute, a plain mapping,
    or anything else ([repr] is its printed form).  [function_name] is
    [None] where the name is [None], or absent from a mapping;
    [function_arguments] is [JNull] where they are; [id] is [None] where
    the call has none.  The name and the arguments are read before the
    [try]: an object whose [function] has no [name] or no [arguments], and
    a mapping whose [function] entry has no [get], make that reading raise
    [AttributeError] out of [process_query].  Such calls are outside the
    embedding, which covers the calls whose name and arguments can be
    read. *)
Inductive ToolCall : Type :=
| CallObject (function_name : option string) (function_arguments : Json)
             (id : option string)
| CallMapping (function_name : option string) (function_arguments : Json)
              (id : option string)
| CallOther (repr : string).

(** A message of the transcript. *)
Inductive Message : Type :=
| UserMessage (content : string)
| AssistantMessage (content : string) (tool_calls : list ToolCall)
| ToolMessage (tool_call_id : string) (content : string).

Definition role (m : Message) : string :=
  match m with
  | UserMessage _ => "user"
  | AssistantMessage _ _ => "assistant"
  | ToolMessage _ _ => "tool"
  end.

(** An item of a list-valued [content]: a mapping, with its [text] entry
    when it has one, or something without [get]. *)
Inductive ContentItem : Type :=
| ItemMapping (text : option string) (repr : string)
| ItemOther (repr : string).

(** [message.content] of a model message. *)
Inductive Content : Type :=
| ContentText (s : string)
| ContentNone
| ContentList (items : list ContentItem).

(** [choice.message] *)
Record ChoiceMessage : Type := {
  content : Content;
  tool_calls : option (list ToolCall)
}.

(** The response object of [Generation.call]; [choices] is
    [output.choices], each choice given by its message. *)
Record GenerationResponse : Type := {
  status_code : Z;
  message : string;
  choices : list ChoiceMessage
}.

(** An item of a tool result's [content] list: [str(item.text)] when the
    item has a [text], [str(item)] otherwise. *)
Inductive ResultItem : Type :=
| TextItem (text : string)
| OtherItem (repr : string).

(** What [session.call_tool] returns. *)
Inductive CallToolResult : Type :=
| ResultContentList (items : list ResultItem)
| ResultContentOther (repr : string)
| ResultWithoutContent (repr : string).

(** What becomes of one call of a batch. *)
Inductive CallResult : Type :=
| Succeeded (content : string)
| Failed (e : string)
| Unrecognised.

(** The state of the loop over the tool calls. *)
Record LoopState : Type := {
  messages : list Message;
  tool_results : list (option string * string);
  final_text : list string;
  invocations : list (option string * Json)
}.

(** What one query leaves behind: the value returned (or the exception
    raised), the transcript, the Gateway calls issued, each with the
    messages and tools it was given, and the tools invoked. *)
Record QueryOutcome : Type := {
  answer : Try string;
  transcript : list Message;
  gateway_calls : list (list Message * option (list Json));
  tools_invoked : list (option string * Json)
}.

(** [f"API调用失败: {response.message}"] *)
Definition api_failure (message : string) : string := "API调用失败: " ++ message.

Definition no_valid_response : string := "没有收到有效响应".
Definition final_response_failed : string := "获取最终响应失败".

Section Client.

(** [session.list_tools()] *)
Variable list_tools : Try (list Tool).

(** [Generation.call(model, messages, tools, api_key)], by the number of
    Gateway calls issued before it in this query. *)
Variable Generation_call :
  nat -> list Message -> option (list Json) -> Try GenerationResponse.

(** [session.call_tool(name, args)], by the number of tools invoked
    before it in this query. *)
Variable call_tool : nat -> option string -> Json -> Try CallToolResult.

(** [json.loads] on a text. *)
Variable json_loads : string -> Try Json.

(** [json.dumps(v, ensure_ascii=False, indent=2)] *)
Variable json_dumps : Json -> string.

(** [tools if tools else None], the tools as given to the Gateway. *)
Definition tools_argument (available_tools : list Json) : option (list Json) :=
  match available_tools with
  | [] => None
  | _ => Some available_tools
  end.

Definition get_response (calls_before : nat) (messages : list Message)
           (tools : list Json) : Try GenerationResponse :=
  Generation_call calls_before messages (tools_argument tools).

Definition get_tools : Try (list Json) :=
  match list_tools with
  | Ok tools =>
      Ok (map (fun tool =>
                 JObj [("type", JStr "function");
                       ("function",
                        JObj [("name", JStr tool.(name));
                              ("description", JStr tool.(description));
                              ("parameters", tool.(inputSchema))])])
              tools)
  | Raise e => Raise e
  end.

(** [tool_name] *)
Definition call_name (tool_call : ToolCall) : option string :=
  match tool_call with
  | CallObject n _ _ | CallMapping n _ _ => n
  | CallOther _ => None
  end.

(** [tool_args_str] *)
Definition call_arguments (tool_call : ToolCall) : Json :=
  match tool_call with
  | CallObject _ a _ | CallMapping _ a _ => a
  | CallOther _ => JNull
  end.

(** [tool_id]: the call's [id], ['unknown_id'] when it has none. *)
Definition call_id (tool_call : ToolCall) : string :=
  match tool_call with
  | CallObject _ _ (Some i) | CallMapping _ _ (Some i) => i
  | _ => "unknown_id"
  end.

(** The request carried by the assistant message: the call itself in the
    object form, a mapping rebuilt from name, arguments and identifier
    otherwise. *)
Definition carried_call (tool_call : ToolCall) : ToolCall :=
  match tool_call with
  | CallObject _ _ _ => tool_call
  | _ => CallMapping (call_name tool_call) (call_arguments tool_call)
                     (Some (call_id tool_call))
  end.

(** The text made of a tool result. *)
Definition result_content (result : CallToolResult) : string :=
  match result with
  | ResultContentList items =>
      join nl (map (fun item => match item with
                                    | TextItem t => t
                                    | OtherItem r => r
                                    end) items)
  | ResultContentOther r => r
  | ResultWithoutContent r => r
  end.

(** [json.loads(tool_args_str) if isinstance(tool_args_str, str) else
    tool_args_str] *)
Definition decode_arguments (tool_args_str : Json) : Try Json :=
  match tool_args_str with
  | JStr s => json_loads s
  | other => Ok other
  end.

(** The note recorded for a call that raised: [f"工具调用失败: {str(e)}"] *)
Definition failure_note (e : string) : string := "工具调用失败: " ++ e.

(** One iteration of [for tool_call in tool_calls]: a call of neither
    known shape is passed over; otherwise the [try] block decodes the
    arguments, invokes the tool and makes a text of its result, and an
    exception anywhere in the block leaves a failure note. *)
Definition process_tool_call (st : LoopState) (tool_call : ToolCall)
  : LoopState :=
  match tool_call with
  | CallOther _ => st
  | _ =>
      let tool_name := call_name tool_call in
      let tool_args_str := call_arguments tool_call in
      let tool_id := call_id tool_call in
      match decode_arguments tool_args_str with
      | Ok tool_args =>
          match call_tool (List.length st.(invocations)) tool_name tool_args with
          | Ok result =>
              let content := result_content result in
              {| messages :=
                   (st.(messages)
                      ++ [AssistantMessage "" [carried_call tool_call];
                          ToolMessage tool_id content])%list;
                 tool_results :=
                   (st.(tool_results) ++ [(tool_name, content)])%list;
                 final_text := st.(final_text);
                 invocations :=
                   (st.(invocations) ++ [(tool_name, tool_args)])%list |}
          | Raise e =>
              {| messages := st.(messages);
                 tool_results := st.(tool_results);
                 final_text := (st.(final_text) ++ [failure_note e])%list;
                 invocations :=
                   (st.(invocations) ++ [(tool_name, tool_args)])%list |}
          end
      | Raise e =>
          {| messages := st.(messages);
             tool_results := st.(tool_results);
             final_text := (st.(final_text) ++ [failure_note e])%list;
             invocations := st.(invocations) |}
      end
  end.

(** The whole loop over the batch. *)
Definition process_tool_calls (st : LoopState) (batch : list ToolCall)
  : LoopState :=
  fold_left process_tool_call batch st.

(** The text made of a model message's [content]: the items' texts
    joined by newlines for a list, [str(content)] otherwise.  An item
    without [get] makes the expression raise. *)
Fixpoint item_texts (items : list ContentItem) : Try (list string) :=
  match items with
  | [] => Ok []
  | ItemMapping (Some t) _ :: rest
  | ItemMapping None t :: rest =>
      match item_texts rest with
      | Ok ts => Ok (t :: ts)
      | Raise e => Raise e
      end
  | ItemOther _ :: _ => Raise "object has no attribute 'get'"
  end.

Definition content_text (c : Content) : Try string :=
  match c with
  | ContentText s => Ok s
  | ContentNone => Ok "None"
  | ContentList items =>
      match item_texts items with
      | Ok ts => Ok (join nl ts)
      | Raise e => Raise e
      end
  end.

(** [tool_results] as the value given to [json.dumps]. *)
Definition tool_results_json (results : list (option string * string)) : Json :=
  JArr (map (fun r =>
               JObj [("call", match fst r with
                              | Some n => JStr n
                              | None => JNull
                              end);
                     ("result", JStr (snd r))])
            results).

(** [f"工具调用完成: {json.dumps(tool_results, ensure_ascii=False, indent=2)}"],
    the listing of the tool results. *)
Definition fallback_listing (results : list (option string * string)) : string :=
  "工具调用完成: " ++ json_dumps (tool_results_json results).

(** The [try] block that asks for the final response; the result is the
    entry appended to [final_text]. *)
Definition final_entry (st : LoopState) (available_tools : list Json)
  : string :=
  let fallback := fallback_listing st.(tool_results) in
  match get_response 1 st.(messages) available_tools with
  | Ok final_response =>
      if (final_response.(status_code) =? 200)%Z
      then
        match final_response.(choices) with
        | final_choice :: _ =>
            match content_text final_choice.(content) with
            | Ok t => t
            | Raise _ => fallback
            end
        | [] => fallback
        end
      else final_response_failed
  | Raise _ => fallback
  end.

(** [return "\n".join(final_text) if final_text else ...] *)
Definition answer_text (final_text : list string) : string :=
  match final_text with
  | [] => no_valid_response
  | _ => join nl final_text
  end.

(** The state in which the loop over the tool calls starts. *)
Definition initial_state (query : string) : LoopState :=
  {| messages := [UserMessage query];
     tool_results := [];
     final_text := [];
     invocations := [] |}.

(** What [process_query] does once the loop over the batch is over: with a
    tool result in hand it asks the Gateway for the final response, and it
    returns the recorded texts joined by newlines. *)
Definition conclude (query : string) (available_tools : list Json)
           (st : LoopState) : QueryOutcome :=
  let first_call := ([UserMessage query], tools_argument available_tools) in
  match st.(tool_results) with
  | _ :: _ =>
      {| answer :=
           Ok (answer_text
                 (st.(final_text) ++ [final_entry st available_tools])%list);
         transcript := st.(messages);
         gateway_calls :=
           [first_call; (st.(messages), tools_argument available_tools)];
         tools_invoked := st.(invocations) |}
  | [] =>
      {| answer := Ok (answer_text st.(final_text));
         transcript := st.(messages);
         gateway_calls := [first_call];
         tools_invoked := st.(invocations) |}
  end.

(** A query that ends before any tool call. *)
Definition without_tools (query : string) (available_tools : list Json)
           (result : Try string) : QueryOutcome :=
  {| answer := result;
     transcript := [UserMessage query];
     gateway_calls := [([UserMessage query], tools_argument available_tools)];
     tools_invoked := [] |}.

Definition process_query (query : string) : QueryOutcome :=
  match get_tools with
  | Raise e =>
      {| answer := Raise e; transcript := [UserMessage query];
         gateway_calls := []; tools_invoked := [] |}
  | Ok available_tools =>
      match get_response 0 [UserMessage query] available_tools with
      | Raise e => without_tools query available_tools (Raise e)
      | Ok response =>
          if negb (response.(status_code) =? 200)%Z
          then
            without_tools query available_tools
                          (Ok (api_failure response.(message)))
          else
            match response.(choices) with
            | [] =>
                without_tools query available_tools
                              (Raise "list index out of range")
            | choice :: _ =>
                match choice.(tool_calls) with
                | Some (first :: others) =>
                    conclude query available_tools
                             (process_tool_calls (initial_state query)
                                                 (first :: others))
                | _ =>
                    without_tools query available_tools
                      (match content_text choice.(content) with
                       | Ok t => Ok (answer_text [t])
                       | Raise e => Raise e
                       end)
                end
            end
      end
  end.

(** *** The Gateway calls as they are issued

    [process_query] once more, on the log of the Gateway calls: each call
    is appended to the log where [get_response] is applied, and the
    Gateway is asked with the number of calls logged before. *)

Definition GatewayCall : Type := (list Message * option (list Json))%type.

Definition Gateway (A : Type) : Type :=
  list GatewayCall -> A * list GatewayCall.

Definition get_response_logged (messages : list Message) (tools : list Json)
  : Gateway (Try GenerationResponse) :=
  fun log =>
    (Generation_call (List.length log) messages (tools_argument tools),
     (log ++ [(messages, tools_argument tools)])%list).

(** The [try] block that asks for the final response. *)
Definition final_entry_logged (st : LoopState) (available_tools : list Json)
  : Gateway string :=
  fun log =>
    let fallback := fallback_listing st.(tool_results) in
    let (outcome, log') :=
      get_response_logged st.(messages) available_tools log in
    (match outcome with
     | Ok final_response =>
         if (final_response.(status_code) =? 200)%Z
         then
           match final_response.(choices) with
           | final_choice :: _ =>
               match content_text final_choice.(content) with
               | Ok t => t
               | Raise _ => fallback
               end
           | [] => fallback
           end
         else final_response_failed
     | Raise _ => fallback
     end,
     log').

Definition process_query_logged (query : string) : Gateway (Try string) :=
  fun log =>
    match get_tools with
    | Raise e => (Raise e, log)
    | Ok available_tools =>
        let (outcome, log1) :=
          get_response_logged [UserMessage query] available_tools log in
        match outcome with
        | Raise e => (Raise e, log1)
        | Ok response =>
            if negb (response.(status_code) =? 200)%Z
            then (Ok (api_failure response.(message)), log1)
            else
              match response.(choices) with
              | [] => (Raise "list index out of range", log1)
              | choice :: _ =>
                  match choice.(tool_calls) with
                  | Some (first :: others) =>
                      let st :=
                        process_tool_calls (initial_state query)
                                           (first :: others) in
                      match st.(tool_results) with
                      | _ :: _ =>
                          let (entry, log2) :=
                            final_entry_logged st available_tools log1 in
                          (Ok (answer_text
                                 (st.(final_text) ++ [entry])%list),
                           log2)
                      | [] => (Ok (answer_text st.(final_text)), log1)
                      end
                  | _ =>
                      (match content_text choice.(content) with
                       | Ok t => Ok (answer_text [t])
                       | Raise e => Raise e
                       end,
                       log1)
                  end
              end
        end
    end.

(** The model's first reply to [query] asks for the calls of [batch]. *)
Definition asks_batch (query : string) (available_tools : list Json)
           (batch : list ToolCall) : Prop :=
  get_tools = Ok available_tools
  /\ exists response choice others,
      get_response 0 [UserMessage query] available_tools = Ok response
      /\ response.(status_code) = 200%Z
      /\ response.(choices) = choice :: others
      /\ choice.(tool_calls) = Some batch.

(** *** The batch seen call by call *)

(** What became of one call, issued after [invoked_before] tool
    invocations: it succeeded with a text, it failed with the text of the
    exception, or its shape was not recognised. *)
Definition call_result (invoked_before : nat) (tool_call : ToolCall)
  : CallResult :=
  match tool_call with
  | CallOther _ => Unrecognised
  | _ =>
      match decode_arguments (call_arguments tool_call) with
      | Ok tool_args =>
          match call_tool invoked_before (call_name tool_call) tool_args with
          | Ok result => Succeeded (result_content result)
          | Raise e => Failed e
          end
      | Raise e => Failed e
      end
  end.

(** Whether the call gets as far as invoking the tool. *)
Definition reaches_tool (tool_call : ToolCall) : bool :=
  match tool_call with
  | CallOther _ => false
  | _ =>
      match decode_arguments (call_arguments tool_call) with
      | Ok _ => true
      | Raise _ => false
      end
  end.

(** The calls of a batch in order, each with what became of it. *)
Fixpoint batch_results (invoked_before : nat) (batch : list ToolCall)
  : list (ToolCall * CallResult) :=
  match batch with
  | [] => []
  | tool_call :: rest =>
      (tool_call, call_result invoked_before tool_call)
        :: batch_results (if reaches_tool tool_call
                          then S invoked_before else invoked_before) rest
  end.

End Client.

(** The two messages appended for a call that succeeded with [content]. *)
Definition exchange (tool_call : ToolCall) (content : string) : list Message :=
  [AssistantMessage "" [carried_call tool_call];
   ToolMessage (call_id tool_call) content].

Definition messages_of (entry : ToolCall * CallResult) : list Message :=
  match snd entry with
  | Succeeded content => exchange (fst entry) content
  | _ => []
  end.

Definition results_of (entry : ToolCall * CallResult)
  : list (option string * string) :=
  match snd entry with
  | Succeeded content => [(call_name (fst entry), content)]
  | _ => []
  end.

Definition notes_of (entry : ToolCall * CallResult) : list string :=
  match snd entry with
  | Failed e => [failure_note e]
  | _ => []
  end.

End MCPClient.

(** ** Reference instances of the library functions

    The programs are verified for any [json.loads], [json.dumps] and
    [float]; the instances below decode and print plain JSON (no [\u]
    escapes, no exponents, no [NaN] or [Infinity]) and are used to run the
    programs on concrete inputs. *)

Module Reference.
Import Py.

Definition is_space (c : ascii) : bool :=
  match nat_of_ascii c with
  | 32%nat | 9%nat | 10%nat | 13%nat => true
  | _ => false
  end.

Fixpoint skip_spaces (s : string) : string :=
  match s with
  | String c s' => if is_space c then skip_spaces s' else s
  | EmptyString => EmptyString
  end.

(** What follows the prefix [p] in [s], when [s] starts with [p]. *)
Fixpoint after_prefix (p s : string) : option string :=
  match p, s with
  | EmptyString, _ => Some s
  | String a p', String b s' =>
      if Ascii.eqb a b then after_prefix p' s' else None
  | _, EmptyString => None
  end.

Definition unescape (c : ascii) : option ascii :=
  match nat_of_ascii c with
  | 34%nat => Some "034"%char
  | 92%nat => Some "092"%char
  | 47%nat => Some "/"%char
  | 110%nat => Some "010"%char
  | 116%nat => Some "009"%char
  | 114%nat => Some "013"%char
  | 98%nat => Some "008"%char
  | 102%nat => Some "012"%char
  | _ => None
  end.

(** The body of a string literal and what follows its closing quote. *)
Fixpoint read_string (s : string) : option (string * string) :=
  match s with
  | EmptyString => None
  | String c s' =>
      if Nat.eqb (nat_of_ascii c) 34 then Some (EmptyString, s')
      else if Nat.eqb (nat_of_ascii c) 92 then
        match s' with
        | String e s'' =>
            match unescape e, read_string s'' with
            | Some ch, Some (body, rest) => Some (String ch body, rest)
            | _, _ => None
            end
        | EmptyString => None
        end
      else
        match read_string s' with
        | Some (body, rest) => Some (String c body, rest)
        | None => None
        end
  end.

Definition ascii_digit (c : ascii) : bool :=
  (48 <=? nat_of_ascii c)%nat && (nat_of_ascii c <=? 57)%nat.

(** The longest run of ASCII digits at the head of a text, and what
    follows. *)
Fixpoint span_ascii_digits (s : string) : string * string :=
  match s with
  | String c s' =>
      if ascii_digit c
      then let (ds, rest) := span_ascii_digits s' in (String c ds, rest)
      else (EmptyString, s)
  | EmptyString => (EmptyString, EmptyString)
  end.

Fixpoint ascii_digits_value (acc : Z) (s : string) : Z :=
  match s with
  | EmptyString => acc
  | String c s' =>
      ascii_digits_value (10 * acc + Z.of_nat (nat_of_ascii c - 48)) s'
  end.

(** An unsigned JSON number at the head of [s]. *)
Definition read_unsigned (s : string) : option (Json * string) :=
  let (ds, rest) := span_ascii_digits s in
  match ds with
  | EmptyString => None
  | String "0"%char (String _ _) => None
  | _ =>
      match rest with
      | String "."%char rest' =>
          let (fs, rest'') := span_ascii_digits rest' in
          match fs with
          | EmptyString => None
          | _ => Some (JFloat
                         (Qmake (ascii_digits_value
                                   (ascii_digits_value 0 ds) fs)
                                (Pos.pow 10 (Pos.of_nat (String.length fs)))),
                       rest'')
          end
      | String "e"%char _ | String "E"%char _ => None
      | _ => Some (JInt (ascii_digits_value 0 ds), rest)
      end
  end.

Definition negate (v : Json) : Json :=
  match v with
  | JInt z => JInt (- z)
  | JFloat q => JFloat (- q)
  | other => other
  end.

Fixpoint read_value (fuel : nat) (s : string) : option (Json * string) :=
  match fuel with
  | O => None
  | S fuel' =>
      match skip_spaces s with
      | EmptyString => None
      | String c rest as s0 =>
          match nat_of_ascii c with
          | 123%nat =>
              match skip_spaces rest with
              | String "}"%char rest' => Some (JObj [], rest')
              | _ => read_members fuel' rest []
              end
          | 91%nat =>
              match skip_spaces rest with
              | String "]"%char rest' => Some (JArr [], rest')
              | _ => read_elements fuel' rest []
              end
          | 34%nat =>
              match read_string rest with
              | Some (body, rest') => Some (JStr body, rest')
              | None => None
              end
          | 45%nat =>
              match read_unsigned rest with
              | Some (v, rest') => Some (negate v, rest')
              | None => None
              end
          | _ =>
              match after_prefix "true" s0, after_prefix "false" s0,
                    after_prefix "null" s0 with
              | Some rest', _, _ => Some (JBool true, rest')
              | _, Some rest', _ => Some (JBool false, rest')
              | _, _, Some rest' => Some (JNull, rest')
              | _, _, _ => read_unsigned s0
              end
          end
      end
  end

with read_elements (fuel : nat) (s : string) (acc : list Json)
     : option (Json * string) :=
  match fuel with
  | O => None
  | S fuel' =>
      match read_value fuel' s with
      | Some (v, rest) =>
          match skip_spaces rest with
          | String ","%char rest' => read_elements fuel' rest' (acc ++ [v])%list
          | String "]"%char rest' => Some (JArr (acc ++ [v])%list, rest')
          | _ => None
          end
      | None => None
      end
  end

with read_members (fuel : nat) (s : string) (acc : dict Json)
     : option (Json * string) :=
  match fuel with
  | O => None
  | S fuel' =>
      match skip_spaces s with
      | String c rest =>
          if Nat.eqb (nat_of_ascii c) 34 then
            match read_string rest with
            | Some (key, rest1) =>
                match skip_spaces rest1 with
                | String ":"%char rest2 =>
                    match read_value fuel' rest2 with
                    | Some (v, rest3) =>
                        match skip_spaces rest3 with
                        | String ","%char rest4 =>
                            read_members fuel' rest4 (dict_set acc key v)
                        | String "}"%char rest4 =>
                            Some (JObj (dict_set acc key v), rest4)
                        | _ => None
                        end
                    | None => None
                    end
                | _ => None
                end
            | None => None
            end
          else None
      | EmptyString => None
      end
  end.

(** [json.loads] *)
Definition json_loads (s : string) : Try Json :=
  match read_value (2 * String.length s + 2) s with
  | Some (v, rest) =>
      match skip_spaces rest with
      | EmptyString => Ok v
      | _ => Raise "Extra data"
      end
  | None => Raise "Expecting value"
  end.

(** [float] on a text: an optional sign, digits, an optional fraction. *)
Definition float_of_str (s : string) : Try Q :=
  let failed := Raise ("could not convert string to float: '" ++ s ++ "'") in
  let unsigned (t : string) : option Q :=
    match read_unsigned t with
    | Some (JInt z, EmptyString) => Some (inject_Z z)
    | Some (JFloat q, EmptyString) => Some q
    | _ => None
    end in
  match s with
  | String "-"%char t =>
      match unsigned t with Some q => Ok (- q)%Q | None => failed end
  | _ =>
      match unsigned s with Some q => Ok q | None => failed end
  end.

End Reference.

Module ReferencePrinter.
Import Py.

Definition indent_text (level : nat) : string :=
  String.concat "" (repeat "  " level).

Fixpoint escape (s : string) : string :=
  match s with
  | EmptyString => EmptyString
  | String c s' =>
      match nat_of_ascii c with
      | 34%nat => String "092"%char (String "034"%char (escape s'))
      | 92%nat => String "092"%char (String "092"%char (escape s'))
      | 10%nat => String "092"%char (String "n"%char (escape s'))
      | 13%nat => String "092"%char (String "r"%char (escape s'))
      | 9%nat => String "092"%char (String "t"%char (escape s'))
      | _ => String c (escape s')
      end
  end.

Definition quoted (s : string) : string := dquote ++ escape s ++ dquote.

(** [json.dumps(v, ensure_ascii=False, indent=2)] at nesting depth
    [level].  A float is printed as a quotient, which Python would print
    in decimal; the values the client prints hold none. *)
Fixpoint dumps_at (level : nat) (v : Json) : string :=
  match v with
  | JNull => "null"
  | JBool true => "true"
  | JBool false => "false"
  | JInt z => str_of_Z z
  | JFloat q => str_of_Z (Qnum q) ++ "/" ++ str_of_Z (Zpos (Qden q))
  | JStr s => quoted s
  | JArr [] => "[]"
  | JArr items =>
      let lines :=
        (fix each (l : list Json) : list string :=
           match l with
           | [] => []
           | x :: l' =>
               (indent_text (S level) ++ dumps_at (S level) x) :: each l'
           end) items in
      "[" ++ nl ++ String.concat ("," ++ nl) lines ++ nl
          ++ indent_text level ++ "]"
  | JObj [] => "{}"
  | JObj fields =>
      let lines :=
        (fix each (l : dict Json) : list string :=
           match l with
           | [] => []
           | (k, x) :: l' =>
               (indent_text (S level) ++ quoted k ++ ": "
                  ++ dumps_at (S level) x) :: each l'
           end) fields in
      "{" ++ nl ++ String.concat ("," ++ nl) lines ++ nl
          ++ indent_text level ++ "}"
  end.

Definition json_dumps (v : Json) : string := dumps_at 0 v.

End ReferencePrinter.

(** ** Concrete inputs on which the programs are run *)

Module Scenario.
Import Py.

(** A scorer's reply that is not JSON and is 106 characters long. *)
Definition long_review : string :=
  "The answer covers the main applications and risks, but the ethics part is thin; I would give it 82 points.".

(** A scorer's reply in Chinese, not JSON: 46 characters, 138 bytes. *)
Definition chinese_review : string :=
  "回答覆盖了主要应用和风险，但伦理部分较薄弱；结构清晰，论述有条理，我会给这个回答打八十二分。".

(** A scorer's reply whose number is written in full-width digits. *)
Definition fullwidth_review : string := "评分：８５分".

Definition arithmetic_question : string := "What is 2+2?".

(** The JSON text [{"score": n, "comment": "fine"}]. *)
Definition score_payload (n : string) : string :=
  "{" ++ dquote ++ "score" ++ dquote ++ ": " ++ n ++ ", "
      ++ dquote ++ "comment" ++ dquote ++ ": "
      ++ dquote ++ "fine" ++ dquote ++ "}".

(** Every model answers [4] to the question and scores any answer 90. *)
Definition all_answering (calls_before : nat) (model prompt : string)
  : ModelBattle.GenerationOutcome :=
  if String.eqb prompt arithmetic_question
  then ModelBattle.GenResponse 200 "4" "" (Some 12%Z)
  else ModelBattle.GenResponse 200 (score_payload "90") "" (Some 40%Z).

(** [qwen-max] is down: each of its calls returns status 500.  The other
    models answer [4] and score any answer 80. *)
Definition qwen_max_down (calls_before : nat) (model prompt : string)
  : ModelBattle.GenerationOutcome :=
  if String.eqb model "qwen-max"
  then ModelBattle.GenResponse 500 "" "Internal Server Error" None
  else if String.eqb prompt arithmetic_question
       then ModelBattle.GenResponse 200 "4" "" (Some 12%Z)
       else ModelBattle.GenResponse 200 (score_payload "80") "" (Some 40%Z).

(** Only [qwen-turbo] answers; every other call raises. *)
Definition only_qwen_turbo (calls_before : nat) (model prompt : string)
  : ModelBattle.GenerationOutcome :=
  if String.eqb model "qwen-turbo"
  then ModelBattle.GenResponse 200 "4" "" (Some 12%Z)
  else ModelBattle.GenRaises "connection refused".

(** Every model answers [4] and, asked to score, replies with the bare
    number [85]. *)
Definition bare_number_scores (calls_before : nat) (model prompt : string)
  : ModelBattle.GenerationOutcome :=
  if String.eqb prompt arithmetic_question
  then ModelBattle.GenResponse 200 "4" "" (Some 12%Z)
  else ModelBattle.GenResponse 200 "85" "" (Some 3%Z).

(** The first call is refused; every later call is answered with [x]. *)
Definition first_call_refused (calls_before : nat) (model prompt : string)
  : ModelBattle.GenerationOutcome :=
  match calls_before with
  | O => ModelBattle.GenRaises "connection refused"
  | _ => ModelBattle.GenResponse 200 "x" "" (Some 1%Z)
  end.

(** The Gateway refuses every connection. *)
Definition gateway_down (calls_before : nat) (model prompt : string)
  : ModelBattle.GenerationOutcome :=
  ModelBattle.GenRaises "connection refused".

(** *** The orchestrator *)

Definition file_tools : Py.Try (list MCPClient.Tool) :=
  Ok [ {| MCPClient.name := "read_file";
          MCPClient.description := "Read a file";
          MCPClient.inputSchema := JObj [("type", JStr "object")] |} ].

(** The schemas that [get_tools] makes of [file_tools]. *)
Definition file_tool_schemas : list Json :=
  [ JObj [("type", JStr "function");
          ("function",
           JObj [("name", JStr "read_file");
                 ("description", JStr "Read a file");
                 ("parameters", JObj [("type", JStr "object")])])] ].

(** The JSON text [{"path": "notes.txt"}]. *)
Definition path_arguments : string :=
  "{" ++ dquote ++ "path" ++ dquote ++ ": "
      ++ dquote ++ "notes.txt" ++ dquote ++ "}".

Definition read_call : MCPClient.ToolCall :=
  MCPClient.CallMapping (Some "read_file") (JStr path_arguments) (Some "call_1").

(** A call whose arguments are not JSON. *)
Definition garbled_call : MCPClient.ToolCall :=
  MCPClient.CallObject (Some "read_file") (JStr "path=notes.txt") (Some "call_2").

(** A call of a tool that the server does not have. *)
Definition unknown_tool_call : MCPClient.ToolCall :=
  MCPClient.CallObject (Some "delete_file") (JObj []) (Some "call_3").

(** The server has [read_file] only. *)
Definition file_server (invoked_before : nat) (tool_name : option string)
           (args : Json) : Py.Try MCPClient.CallToolResult :=
  match tool_name with
  | Some "read_file" =>
      Ok (MCPClient.ResultContentList [MCPClient.TextItem "remember the milk"])
  | _ => Raise "Unknown tool"
  end.

(** A successful response whose only choice is the given message. *)
Definition replies (content : MCPClient.Content)
           (calls : option (list MCPClient.ToolCall))
  : Py.Try MCPClient.GenerationResponse :=
  Ok {| MCPClient.status_code := 200;
        MCPClient.message := "";
        MCPClient.choices :=
          [ {| MCPClient.content := content;
               MCPClient.tool_calls := calls |} ] |}.

(** The model asks for [batch]; the call made after the tools have run is
    answered by [final]. *)
Definition asks_for (batch : list MCPClient.ToolCall)
           (final : Py.Try MCPClient.GenerationResponse)
           (calls_before : nat) (messages : list MCPClient.Message)
           (tools : option (list Json))
  : Py.Try MCPClient.GenerationResponse :=
  match calls_before with
  | O => replies (MCPClient.ContentText "") (Some batch)
  | _ => final
  end.

(** The Gateway is out of order after the tools have run. *)
Definition server_error : Py.Try MCPClient.GenerationResponse :=
  Ok {| MCPClient.status_code := 500;
        MCPClient.message := "Internal Server Error";
        MCPClient.choices := [] |}.

(** The Gateway is out of order from the first call on. *)
Definition out_of_order (calls_before : nat) (messages : list MCPClient.Message)
           (tools : option (list Json))
  : Py.Try MCPClient.GenerationResponse :=
  server_error.

(** The model answers with an empty text and asks for no tool. *)
Definition empty_answer (calls_before : nat) (messages : list MCPClient.Message)
           (tools : option (list Json))
  : Py.Try MCPClient.GenerationResponse :=
  replies (MCPClient.ContentText "") None.

(** The first Gateway call raises. *)
Definition unreachable (calls_before : nat) (messages : list MCPClient.Message)
           (tools : option (list Json))
  : Py.Try MCPClient.GenerationResponse :=
  Raise "Connection reset by peer".

End Scenario.

(** ** [src/server/server.py]

    Conventions of this part.
    - The database ([asyncpg.connect], [fetch], [close]) is an oracle
      indexed by the number of statements handed to it before; the tools
      thread the list of statements handed to it so far.
    - The thread pool runs one task at a time and is idle when a tool is
      called.  The 120 seconds that [execute_battle_sync] waits for a
      battle are an oracle, [battle_wait]; the 30 seconds that
      [execute_query_sync] waits for a query are not modelled: the
      embedding covers the queries that end within them.
    - [strip] and [lower] treat the whitespace and the letters of ASCII;
      texts whose edge whitespace or capitals lie outside ASCII are outside
      the model.
    - The arithmetic of the body-mass index and the printed form of rows
      ([str] of a list) are left to the library. *)

Module Server.
Import Py ModelBattle.

(** *** Methods of [str] *)

(** [c.isspace()] for a character of ASCII. *)
Definition isspace (c : ascii) : bool :=
  let n := nat_of_ascii c in
  (((9 <=? n) && (n <=? 13)) || ((28 <=? n) && (n <=? 32)))%nat.

Definition reversed (s : string) : string :=
  string_of_list_ascii (rev (list_ascii_of_string s)).

(** [s.lstrip()] *)
Fixpoint lstrip (s : string) : string :=
  match s with
  | String c s' => if isspace c then lstrip s' else s
  | EmptyString => EmptyString
  end.

(** [s.rstrip()] *)
Definition rstrip (s : string) : string := reversed (lstrip (reversed s)).

(** [s.strip()] *)
Definition strip (s : string) : string := rstrip (lstrip s).

Fixpoint lstrip_char (c : ascii) (s : string) : string :=
  match s with
  | String x s' => if Ascii.eqb x c then lstrip_char c s' else s
  | EmptyString => EmptyString
  end.

(** [s.rstrip(c)] for one character [c]. *)
Definition rstrip_char (c : ascii) (s : string) : string :=
  reversed (lstrip_char c (reversed s)).

Definition lower_char (c : ascii) : ascii :=
  let n := nat_of_ascii c in
  if ((65 <=? n) && (n <=? 90))%nat then ascii_of_nat (n + 32) else c.

(** [s.lower()] *)
Fixpoint lower (s : string) : string :=
  match s with
  | String c s' => String (lower_char c) (lower s')
  | EmptyString => EmptyString
  end.

(** [s.startswith(p)] *)
Definition startswith (s p : string) : bool := String.prefix p s.

(** [sub in s] *)
Definition contains (sub s : string) : bool :=
  match String.index 0 sub s with
  | Some _ => true
  | None => false
  end.

(** [s.split(sep)] for one character [sep]. *)
Fixpoint split_on (sep : ascii) (s : string) : list string :=
  match s with
  | EmptyString => [EmptyString]
  | String c s' =>
      if Ascii.eqb c sep
      then EmptyString :: split_on sep s'
      else match split_on sep s' with
           | piece :: pieces => String c piece :: pieces
           | [] => [String c EmptyString]
           end
  end.

(** [not s] is false for a text that is not empty. *)
Definition str_truthy (s : string) : bool := negb (String.eqb s "").

(** *** Values inspected at run time *)

Definition try_bind {A B : Type} (m : Try A) (k : A -> Try B) : Try B :=
  match m with
  | Ok a => k a
  | Raise e => Raise e
  end.

Notation "x <~ m ;; k" := (try_bind m (fun x => k))
  (at level 61, m at next level, right associativity).

(** The text of the [TypeError] raised by [s[k]] for a text [s] and a text
    [k]; newer interpreters append [, not 'str'] to it. *)
Definition str_index_error : string := "string indices must be integers".

(** [v[k]] for a text [k]. *)
Definition getitem (v : Json) (k : string) : Try Json :=
  match v with
  | JObj d =>
      match dict_get d k with
      | Some x => Ok x
      | None => Raise ("'" ++ k ++ "'")
      end
  | JStr _ => Raise str_index_error
  | JArr _ => Raise "list indices must be integers or slices, not str"
  | _ => Raise ("'" ++ type_name v ++ "' object is not subscriptable")
  end.

(** The truth value of a value. *)
Definition py_truthy (v : Json) : bool :=
  match v with
  | JNull => false
  | JBool b => b
  | JInt z => negb (z =? 0)%Z
  | JFloat q => negb (Qeq_bool q 0)
  | JStr s => str_truthy s
  | JArr items => match items with [] => false | _ => true end
  | JObj fields => match fields with [] => false | _ => true end
  end.

(** The items that [for x in v] runs over: the characters of a text, the
    items of a list, the keys of a mapping. *)
Definition py_iter (v : Json) : Try (list Json) :=
  match v with
  | JStr s =>
      Ok (map (fun c => JStr (String c EmptyString)) (list_ascii_of_string s))
  | JArr items => Ok items
  | JObj fields => Ok (map (fun kv => JStr (fst kv)) fields)
  | _ => Raise ("'" ++ type_name v ++ "' object is not iterable")
  end.

(** [isinstance(v, str)] *)
Definition isinstance_str (v : Json) : bool :=
  match v with
  | JStr _ => true
  | _ => false
  end.

(** *** The database *)

(** A statement handed to the database: the SQL text and its parameters.
    A statement counts as handed over once [execute_query_async] sets out
    to connect for it. *)
Definition Statement : Type := (string * list Json)%type.

(** A row, as [dict(row)] gives it. *)
Definition Row : Type := dict Json.

(** Computations that query the database thread the statements handed to
    it. *)
Definition DB (A : Type) : Type := list Statement -> A * list Statement.

Definition select_only : string := "错误：只允许执行SELECT查询语句".
Definition no_rows : string := "查询成功，但没有找到匹配的数据。".
Definition query_failed (e : string) : string := "查询执行失败：" ++ e.
Definition battle_unavailable : string := "模型对战功能不可用：请安装相关依赖".
Definition no_supported_model : string := "错误：没有找到支持的模型".
Definition battle_failed (e : string) : string := "模型对战失败：" ++ e.
Definition battle_timed_out : string := "模型对战超时".

(** [str(e)] of the [NameError] raised where [_executor] is read and was
    never assigned. *)
Definition executor_undefined : string := "name '_executor' is not defined".

(** The model types, in the order of the branches that name them. *)
Definition supported_models : list ModelType :=
  [DASHSCOPE_QWEN; DASHSCOPE_QWEN_MAX; DASHSCOPE_QWEN_VL_MAX;
   DASHSCOPE_QWEN_AUDIO_TURBO_LATEST].

(** Whether a name is the name of a model type. *)
Definition supported (model_name : string) : bool :=
  existsb (fun m => String.eqb model_name (value m)) supported_models.

(** The loop of [execute_battle_sync] that turns names into model types,
    passing over the names it does not know. *)
Fixpoint model_types_of (models : list string) : list ModelType :=
  match models with
  | [] => []
  | model_name :: rest =>
      if String.eqb model_name "qwen-turbo"
      then DASHSCOPE_QWEN :: model_types_of rest
      else if String.eqb model_name "qwen-max"
      then DASHSCOPE_QWEN_MAX :: model_types_of rest
      else if String.eqb model_name "qwen-vl-max"
      then DASHSCOPE_QWEN_VL_MAX :: model_types_of rest
      else if String.eqb model_name "qwen-audio-turbo-latest"
      then DASHSCOPE_QWEN_AUDIO_TURBO_LATEST :: model_types_of rest
      else model_types_of rest
  end.

(** [record["meal_type"]] turned into the name of the meal. *)
Definition meal_label (meal_type : Json) : string :=
  match meal_type with
  | JStr "breakfast" => "早餐"
  | JStr "lunch" => "午餐"
  | JStr "dinner" => "晚餐"
  | JStr "snack" => "加餐"
  | _ => "其他"
  end.

(** One entry of [diet_records]: the fields are read in the order of the
    mapping's display. *)
Definition diet_record_of (record : Json) : Try Json :=
  diet_name <~ getitem record "diet_name" ;;
  quantity <~ getitem record "quantity" ;;
  meal_type <~ getitem record "meal_type" ;;
  unit <~ getitem record "unit" ;;
  calories <~ getitem record "calories" ;;
  protein <~ getitem record "protein" ;;
  fat <~ getitem record "fat" ;;
  carbs <~ getitem record "carbs" ;;
  created_at <~ getitem record "created_at" ;;
  Ok (JObj [("食物", diet_name); ("数量", quantity);
            ("类型", JStr (meal_label meal_type)); ("单位", unit);
            ("卡路里", calories); ("蛋白质", protein); ("脂肪", fat);
            ("碳水化合物", carbs); ("时间", created_at)]).

(** The loop [for record in result] of [get_diet_records]. *)
Fixpoint diet_records_of (records : list Json) : Try (list Json) :=
  match records with
  | [] => Ok []
  | record :: rest =>
      diet_record <~ diet_record_of record ;;
      diet_records <~ diet_records_of rest ;;
      Ok (diet_record :: diet_records)
  end.

(** The prompt of [generate_weekly_diet_plan]. *)
Definition diet_plan_prompt
           (user_info diet_history healthy_foods healthy_recipes : string)
  : string :=
  join nl
    [ "请根据以下用户信息，制定一个详细的一周饮食计划：";
      "";
      "用户信息：";
      user_info;
      "";
      diet_history;
      "";
      "可参考的健康食物：";
      healthy_foods;
      "";
      "可参考的健康食谱：";
      healthy_recipes;
      "";
      "请制定一个详细的一周饮食计划，包括：";
      "1. 每天的三餐安排（早餐、午餐、晚餐）";
      "2. 根据用户的健康目标、饮食偏好、过敏信息等个性化定制";
      "3. 营养搭配均衡，包含蛋白质、碳水化合物、脂肪、维生素等";
      "4. 考虑用户的活动水平调整热量摄入";
      "5. 如果有健康状况，请给出相应的饮食建议";
      "6. 每餐的大概热量和主要营养成分";
      "7. 简单的制作建议或食谱推荐";
      "";
      "格式要求：";
      "- 按天组织（周一到周日）";
      "- 每天包含早餐、午餐、晚餐";
      "- 每餐包含具体食物、分量、营养价值";
      "- 总结每日营养摄入和健康要点";
      "";
      "请确保推荐科学合理，符合营养学原理。" ].

Section Tools.

(** Whether [model_battle] could be imported when the server started; the
    battle instance and the thread pool [_executor] are created only then. *)
Variable MODEL_BATTLE_AVAILABLE : bool.

(** Connecting, [conn.fetch(query, *params)] and closing, by the number of
    statements handed over before: the rows, or the exception raised on the
    way. *)
Variable database : nat -> string -> list Json -> Try (list Row).

(** [str(v)] of a list of mappings. *)
Variable py_str : Json -> string.

(** [round(weight / ((height/100) ** 2), 1)] *)
Variable bmi : Json -> Json -> Try Json.

(** The Gateway and the library functions of the battle engine. *)
Variable Generation_call : nat -> string -> string -> GenerationOutcome.
Variable json_loads : string -> Try Json.
Variable float_of_str : string -> Try Q.

(** [json.dumps(v, ensure_ascii=False, indent=2)] *)
Variable json_dumps : Json -> string.

(** The clock reading that [battle] stamps on its result. *)
Variable timestamp : string.

(** The wait [future.result(timeout=120)] for the battle that is started
    after [n] Gateway calls: [None] when the battle ends within the 120
    seconds, [Some k] when the wait times out, the battle having issued
    [k] calls by then.  The timeout does not stop the thread of the
    battle; what the battle does after it is outside the embedding. *)
Variable battle_wait : nat -> option nat.

Definition execute_query_async (query : string) (params : list Json)
           (limit : Z) : DB string :=
  fun sent =>
    let sql_lower := lower (strip query) in
    if negb (startswith sql_lower "select")
    then (select_only, sent)
    else
      let query_limited :=
        if negb (contains "limit" sql_lower)
        then rstrip_char ";" query ++ " LIMIT " ++ str_of_Z limit
        else query in
      (match database (List.length sent) query_limited params with
       | Ok result =>
           match result with
           | [] => no_rows
           | _ => "查询成功，返回 "
                    ++ str_of_Z (Z.of_nat (List.length result))
                    ++ " 条记录：" ++ nl
                    ++ py_str (JArr (map JObj result))
           end
       | Raise e => query_failed e
       end,
       (sent ++ [(query_limited, params)])%list).

(** [_executor] is read before the query is looked at: where it was never
    assigned the [NameError] is made into the failure text. *)
Definition execute_query_sync (query : string) (params : list Json)
           (limit : Z) : DB string :=
  if MODEL_BATTLE_AVAILABLE
  then execute_query_async query params limit
  else fun sent => (query_failed executor_undefined, sent).

(** The mapping that [run_battle] returns. *)
Definition battle_summary (result : BattleResult) : Json :=
  JObj [("question", JStr result.(question));
        ("final_winner", JStr result.(final_winner));
        ("final_scores",
         JObj (map (fun kv => (fst kv, JFloat (snd kv))) result.(final_scores)));
        ("final_answer", JStr result.(final_answer));
        ("timestamp", JStr timestamp);
        ("rounds_count", JInt (Z.of_nat (List.length result.(rounds))))].

(** [future.result(timeout=120)] on a task submitted to the pool: the
    outcome of the task, or [None] for [concurrent.futures.TimeoutError]
    with the calls that the task has issued by then. *)
Definition future_result {A : Type} (task : IO A) : IO (option A) :=
  fun calls =>
    let (result, calls') := task calls in
    match battle_wait (List.length calls) with
    | None => (Some result, calls')
    | Some k => (None, firstn (List.length calls + k) calls')
    end.

(** [battle] is called without [num_rounds], which is 2 by default. *)
Definition execute_battle_sync (question : string) (models : list string)
  : IO string :=
  if negb MODEL_BATTLE_AVAILABLE
  then ret battle_unavailable
  else
    match model_types_of models with
    | [] => ret no_supported_model
    | model_types =>
        result <- future_result
                    (battle Generation_call json_loads float_of_str
                            question model_types 2) ;;
        ret (match result with
             | Some (Ok r) => json_dumps (battle_summary r)
             | Some (Raise e) => battle_failed e
             | None => battle_timed_out
             end)
    end.

(** **** The database tools *)

Definition query_database (sql_query : string) (limit : Z) : DB string :=
  execute_query_sync sql_query [] limit.

Definition tables_query : string :=
  join nl
    [ "";
      "    SELECT ";
      "        table_name,";
      "        table_type,";
      "        table_schema";
      "    FROM information_schema.tables ";
      "    WHERE table_schema = 'public'";
      "    ORDER BY table_name;";
      "    " ].

Definition get_tables_info : DB string :=
  execute_query_sync tables_query [] 100.

Definition structure_query : string :=
  join nl
    [ "";
      "    SELECT ";
      "        column_name,";
      "        data_type,";
      "        is_nullable,";
      "        column_default,";
      "        character_maximum_length";
      "    FROM information_schema.columns ";
      "    WHERE table_schema = 'public' AND table_name = $1";
      "    ORDER BY ordinal_position;";
      "    " ].

Definition get_table_structure (table_name : string) : DB string :=
  execute_query_sync structure_query [JStr table_name] 100.

(** The entry [BMI] of [query_user_info]: the condition reads the weight,
    then the height; the index is computed when both are true. *)
Definition bmi_by_index (result : Json) : Try Json :=
  weight <~ getitem result "weight" ;;
  if py_truthy weight
  then
    height <~ getitem result "height" ;;
    if py_truthy height then bmi weight height else Ok (JStr "未计算")
  else Ok (JStr "未计算").

Definition query_user_info (user_id limit : Z) : DB (Try Json) :=
  fun sent =>
    let (text, sent') :=
      execute_query_sync "SELECT * FROM users where id = $1"
                         [JInt user_id] limit sent in
    let result := JStr text in
    (id <~ getitem result "id" ;;
     name <~ getitem result "name" ;;
     age <~ getitem result "age" ;;
     gender <~ getitem result "gender" ;;
     height <~ getitem result "height" ;;
     weight <~ getitem result "weight" ;;
     body_mass <~ bmi_by_index result ;;
     health_goal <~ getitem result "health_goal" ;;
     diet_preference <~ getitem result "diet_preference" ;;
     activity_level <~ getitem result "activity_level" ;;
     allergies <~ getitem result "allergies" ;;
     health_conditions <~ getitem result "health_conditions" ;;
     Ok (JObj [("用户ID", id); ("用户名", name); ("年龄", age);
               ("性别", gender); ("身高", height); ("体重", weight);
               ("BMI", body_mass); ("健康目标", health_goal);
               ("饮食偏好", diet_preference); ("活动水平", activity_level);
               ("过敏信息", allergies); ("健康状况", health_conditions)]),
     sent').

Definition query_foods (search_term : string) (limit : Z) : DB string :=
  if str_truthy search_term
  then execute_query_sync
         "SELECT id, food_name, calories, protein, fat, carbs FROM foods WHERE food_name ILIKE $1"
         [JStr ("%" ++ search_term ++ "%")] limit
  else execute_query_sync
         "SELECT id, food_name, calories, protein, fat, carbs FROM foods"
         [] limit.

Definition query_recipes (search_term : string) (limit : Z) : DB string :=
  if str_truthy search_term
  then execute_query_sync
         "SELECT id, title, description, preparation_time, cooking_time, calories FROM recipes WHERE title ILIKE $1"
         [JStr ("%" ++ search_term ++ "%")] limit
  else execute_query_sync
         "SELECT id, title, description, preparation_time, cooking_time, calories FROM recipes"
         [] limit.

Definition unsupported_food_field (search_field : string) : string :=
  "错误：不支持的搜索字段 '" ++ search_field
    ++ "'。支持的字段：food_name, category, all".

Definition search_foods_advanced (search_term search_field : string)
           (limit : Z) : DB string :=
  if negb (str_truthy search_term)
  then query_foods "" limit
  else if String.eqb search_field "all"
  then execute_query_sync
         (join nl
      [ "";
        "        SELECT id, food_name, calories, protein, fat, carbs, category ";
        "        FROM foods ";
        "        WHERE food_name ILIKE $1 OR category ILIKE $1";
        "        " ])
         [JStr ("%" ++ search_term ++ "%")] limit
  else if String.eqb search_field "food_name"
  then execute_query_sync
         "SELECT id, food_name, calories, protein, fat, carbs FROM foods WHERE food_name ILIKE $1"
         [JStr ("%" ++ search_term ++ "%")] limit
  else if String.eqb search_field "category"
  then execute_query_sync
         "SELECT id, food_name, calories, protein, fat, carbs, category FROM foods WHERE category ILIKE $1"
         [JStr ("%" ++ search_term ++ "%")] limit
  else fun sent => (unsupported_food_field search_field, sent).

Definition unsupported_recipe_field (search_field : string) : string :=
  "错误：不支持的搜索字段 '" ++ search_field
    ++ "'。支持的字段：title, description, all".

Definition search_recipes_advanced (search_term search_field : string)
           (limit : Z) : DB string :=
  if negb (str_truthy search_term)
  then query_recipes "" limit
  else if String.eqb search_field "all"
  then execute_query_sync
         (join nl
      [ "";
        "        SELECT id, title, description, preparation_time, cooking_time, calories, protein, fat, carbs";
        "        FROM recipes ";
        "        WHERE title ILIKE $1 OR description ILIKE $1";
        "        " ])
         [JStr ("%" ++ search_term ++ "%")] limit
  else if String.eqb search_field "title"
  then execute_query_sync
         "SELECT id, title, description, preparation_time, cooking_time, calories FROM recipes WHERE title ILIKE $1"
         [JStr ("%" ++ search_term ++ "%")] limit
  else if String.eqb search_field "description"
  then execute_query_sync
         "SELECT id, title, description, preparation_time, cooking_time, calories FROM recipes WHERE description ILIKE $1"
         [JStr ("%" ++ search_term ++ "%")] limit
  else fun sent => (unsupported_recipe_field search_field, sent).

Definition get_recipe_details (recipe_id : Z) : DB string :=
  execute_query_sync "SELECT * FROM recipes WHERE id = $1" [JInt recipe_id] 1.

Definition get_diet_records (user_id : Z) : DB (Try Json) :=
  fun sent =>
    let (text, sent') :=
      execute_query_sync "SELECT * FROM diet_records WHERE user_id = $1"
                         [JInt user_id] 10 sent in
    let result := JStr text in
    (records <~ py_iter result ;;
     diet_records <~ diet_records_of records ;;
     Ok (JArr diet_records),
     sent').

Definition search_recipes_by_ingredient (ingredient : string) (limit : Z)
  : DB string :=
  execute_query_sync
    (join nl
    [ "";
      "    SELECT id, title, description, ingredients ";
      "    FROM recipes ";
      "    WHERE ingredients::text ILIKE $1 OR ingredient_name_texts::text ILIKE $1";
      "    " ])
    [JStr ("%" ++ ingredient ++ "%")] limit.

Definition get_nutrition_info (food_name : string) : DB string :=
  execute_query_sync
    (join nl
    [ "";
      "    SELECT food_name, calories, protein, fat, carbs, other_nutrition ";
      "    FROM foods ";
      "    WHERE food_name ILIKE $1";
      "    " ])
    [JStr ("%" ++ food_name ++ "%")] 5.

Definition get_recipe_by_cook_time (max_time limit : Z) : DB string :=
  execute_query_sync
    (join nl
    [ "";
      "    SELECT id, title, preparation_time, cooking_time, ";
      "           (preparation_time + cooking_time) as total_time";
      "    FROM recipes ";
      "    WHERE (preparation_time + cooking_time) <= $1";
      "    ORDER BY total_time ASC";
      "    " ])
    [JInt max_time] limit.

(** The entry [BMI] of [query_user_by_phone]: the condition reads with
    [get], the index is computed from [user["weight"]] and
    [user["height"]]. *)
Definition bmi_by_get (user : Json) : Try Json :=
  weight <~ py_get user "weight" JNull ;;
  if py_truthy weight
  then
    height <~ py_get user "height" JNull ;;
    if py_truthy height
    then
      weight' <~ getitem user "weight" ;;
      height' <~ getitem user "height" ;;
      bmi weight' height'
    else Ok (JStr "未计算")
  else Ok (JStr "未计算").

Definition user_not_found (phone : string) : string :=
  "未找到手机号为 " ++ phone ++ " 的用户".

Definition query_user_by_phone (phone : string) : DB (Try Json) :=
  fun sent =>
    let (text, sent') :=
      execute_query_sync "SELECT * FROM users WHERE phone = $1 OR name = $1"
                         [JStr phone] 1 sent in
    let result := JStr text in
    (if isinstance_str result
     then Ok result
     else
       match result with
       | JArr (user :: _) =>
           id <~ py_get user "id" JNull ;;
           name <~ py_get user "name" JNull ;;
           phone_number <~ py_get user "phone" JNull ;;
           age <~ py_get user "age" JNull ;;
           gender <~ py_get user "gender" JNull ;;
           height <~ py_get user "height" JNull ;;
           weight <~ py_get user "weight" JNull ;;
           body_mass <~ bmi_by_get user ;;
           health_goal <~ py_get user "health_goal" JNull ;;
           diet_preference <~ py_get user "diet_preference" JNull ;;
           activity_level <~ py_get user "activity_level" JNull ;;
           allergies <~ py_get user "allergies" JNull ;;
           health_conditions <~ py_get user "health_conditions" JNull ;;
           Ok (JObj [("用户ID", id); ("用户名", name); ("手机号", phone_number);
                     ("年龄", age); ("性别", gender); ("身高", height);
                     ("体重", weight); ("BMI", body_mass);
                     ("健康目标", health_goal); ("饮食偏好", diet_preference);
                     ("活动水平", activity_level); ("过敏信息", allergies);
                     ("健康状况", health_conditions)])
       | _ => Ok (JStr (user_not_found phone))
       end,
     sent').

(** **** The battle tools *)

Definition ai_model_battle (question models : string) : IO string :=
  let model_list := map strip (split_on "," models) in
  execute_battle_sync question model_list.

Definition cooking_recipe_battle (ingredient : string) : IO string :=
  execute_battle_sync
    ("请为" ++ ingredient ++ "提供3种不同的烹饪方法，包括具体步骤和营养价值分析。")
    ["qwen-turbo"; "qwen-max"].

Definition health_advice_battle (health_goal : string) : IO string :=
  execute_battle_sync
    ("针对" ++ health_goal ++ "这个健康目标，请提供详细的饮食建议和生活方式建议。")
    ["qwen-turbo"; "qwen-max"].

Definition nutrition_analysis_battle (food_list : string) : IO string :=
  execute_battle_sync
    ("请分析以下食物的营养价值和健康益处：" ++ food_list
       ++ "。包括热量、主要营养成分和适合的人群。")
    ["qwen-turbo"; "qwen-max"].

(** The part of [generate_weekly_diet_plan] that reads the diet history:
    it is read for a user id that is given and not 0, and any exception of
    the reading leaves the history empty. *)
Definition diet_history_of (user_id : option Z) : DB string :=
  fun sent =>
    match user_id with
    | Some id =>
        if negb (id =? 0)%Z
        then
          let (history_result, sent') := get_diet_records id sent in
          (match history_result with
           | Ok (JArr (first :: others)) =>
               nl ++ "用户最近的饮食记录："
                  ++ py_str (JArr (firstn 5 (first :: others)))
           | _ => ""
           end, sent')
        else ("", sent)
    | None => ("", sent)
    end.

(** The tool threads the statements handed to the database and the calls
    issued to the Gateway.  Nothing in its [try] block raises, so its
    handler is never entered. *)
Definition generate_weekly_diet_plan (user_info : string) (user_id : option Z)
           (sent : list Statement) (calls : list Call)
  : string * list Statement * list Call :=
  let (diet_history, sent1) := diet_history_of user_id sent in
  let (healthy_foods, sent2) := query_foods "" 15 sent1 in
  let (healthy_recipes, sent3) := query_recipes "" 10 sent2 in
  let prompt :=
    diet_plan_prompt user_info diet_history healthy_foods healthy_recipes in
  let (answer, calls') := execute_battle_sync prompt ["qwen-max"] calls in
  (answer, sent3, calls').

End Tools.

End Server.

(** *** A server to run the tools on *)

Module Pantry.
Import Py.

(** The database holds one row of rice, whatever is asked. *)
Definition one_row (sent_before : nat) (query : string) (params : list Json)
  : Try (list Server.Row) :=
  Ok [[("id", JInt 1); ("food_name", JStr "rice")]].

(** The database cannot be reached. *)
Definition unreachable (sent_before : nat) (query : string)
           (params : list Json) : Try (list Server.Row) :=
  Raise "connection refused".

(** A printed form that tells the number of rows only. *)
Definition py_str (v : Json) : string :=
  match v with
  | JArr items => "[" ++ str_of_Z (Z.of_nat (List.length items)) ++ " rows]"
  | _ => "?"
  end.

Definition bmi (weight height : Json) : Try Json := Ok (JFloat 22).

Definition timestamp : string := "2024-01-01 00:00:00".

(** Every battle ends within the two minutes. *)
Definition in_time (calls_before : nat) : option nat := None.

(** Every wait for a battle times out when the battle has issued three
    calls. *)
Definition slow (calls_before : nat) : option nat := Some 3%nat.

End Pantry.

(** ** [src/cli/client.py]: the chat loop

    Of what [chat_loop] prints, the embedding keeps the line printed for
    each query: the answer, or the text of the exception.  The banner, the
    progress line and the traceback are left out. *)

Module ChatLoop.
Import Py.

(** What [input] does: it returns the line typed, or it raises [EOFError]
    at the end of the input. *)
Inductive Input : Type :=
| Line (text : string)
| EndOfInput.

(** [str(e)] of the [EOFError] that [input] raises. *)
Definition eof_text : string := "EOF when reading a line".

(** [f"\n错误: {str(e)}"] *)
Definition error_line (e : string) : string := nl ++ "错误: " ++ e.

(** What the turns completed so far have done: the number of lines they
    read, the queries handed to [process_query] and the lines printed. *)
Record Session : Type := {
  lines_read : nat;
  queries : list string;
  printed : list string
}.

Definition start : Session :=
  {| lines_read := 0; queries := []; printed := [] |}.

Section Loop.

(** [input], by the number of lines read before. *)
Variable input : nat -> Input.

(** [process_query], by the number of queries processed before: the
    answer, or the exception raised. *)
Variable process_query : nat -> string -> Try string.

(** The line printed for a query. *)
Definition shown (outcome : Try string) : string :=
  match outcome with
  | Ok response => nl ++ response
  | Raise e => error_line e
  end.

(** One turn of [while True]: [None] when the loop breaks. *)
Definition turn (s : Session) : option Session :=
  match input s.(lines_read) with
  | Line text =>
      let query := Server.strip text in
      if String.eqb (Server.lower query) "quit"
      then None
      else
        Some {| lines_read := S s.(lines_read);
                queries := (s.(queries) ++ [query])%list;
                printed :=
                  (s.(printed)
                     ++ [shown (process_query (List.length s.(queries))
                                              query)])%list |}
  | EndOfInput =>
      Some {| lines_read := S s.(lines_read);
              queries := s.(queries);
              printed := (s.(printed) ++ [error_line eof_text])%list |}
  end.

(** The loop run for at most [fuel] turns: the session at the [break], or
    [None] when the loop is still running. *)
Fixpoint chat_loop (fuel : nat) (s : Session) : option Session :=
  match fuel with
  | O => None
  | S fuel' =>
      match turn s with
      | None => Some s
      | Some s' => chat_loop fuel' s'
      end
  end.

End Loop.

(** Whether a line typed ends the loop. *)
Definition quits (text : string) : bool :=
  String.eqb (Server.lower (Server.strip text)) "quit".

End ChatLoop.

(** *** Sessions at a terminal *)

Module Terminal.

(** Two queries, then [QUIT] with spaces around it. *)
Definition typed_lines (n : nat) : ChatLoop.Input :=
  match n with
  | 0%nat => ChatLoop.Line "What is in notes.txt?"
  | 1%nat => ChatLoop.Line "  and in todo.txt?  "
  | 2%nat => ChatLoop.Line " QUIT "
  | _ => ChatLoop.EndOfInput
  end.

(** One query, then the end of the input. *)
Definition piped_line (n : nat) : ChatLoop.Input :=
  match n with
  | 0%nat => ChatLoop.Line "What is in notes.txt?"
  | _ => ChatLoop.EndOfInput
  end.

(** The second query raises. *)
Definition second_query_raises (n : nat) (query : string) : Py.Try string :=
  match n with
  | 1%nat => Py.Raise "Connection reset by peer"
  | _ => Py.Ok "It says: remember the milk"
  end.

End Terminal.


(** * Properties of the model battle engine *)

Section Characters.
Import Py.

Lemma chars_eq (b : ascii) (s : string) :
  chars (String b s)
  = match s with
    | EmptyString => [String b EmptyString]
    | String d _ =>
        match chars s with
        | ch :: chs =>
            if is_continuation d
            then String b ch :: chs
            else String b EmptyString :: ch :: chs
        | [] => [String b EmptyString]
        end
    end.
Proof. destruct s; reflexivity. Qed.

(** The first character of a text starts with its first byte. *)
Lemma chars_head (d : ascii) (s : string) :
  exists tail rest, chars (String d s) = String d tail :: rest.
Proof.
  rewrite chars_eq. destruct s as [|e s]; [eauto |].
  destruct (chars (String e s)) as [|ch chs]; [eauto |].
  destruct (is_continuation e); eauto.
Qed.

(** A text that does not start with a continuation byte starts a
    character of its own when it is appended. *)
Definition starts_a_character (t : string) : Prop :=
  match t with
  | EmptyString => True
  | String d _ => is_continuation d = false
  end.

Lemma chars_app (s t : string) :
  starts_a_character t -> chars (s ++ t) = (chars s ++ chars t)%list.
Proof.
  intros Ht. induction s as [|b s IH]; [reflexivity |].
  change (String b s ++ t) with (String b (s ++ t)).
  rewrite (chars_eq b (s ++ t)), (chars_eq b s).
  destruct s as [|e s].
  - cbn [append]. destruct t as [|d t]; [reflexivity |].
    cbn in Ht. rewrite Ht.
    destruct (chars_head d t) as (tail & rest & ->). reflexivity.
  - change (String e s ++ t) with (String e (s ++ t)) in *.
    rewrite IH. destruct (chars_head e s) as (tail & rest & ->).
    cbn [app]. now destruct (is_continuation e).
Qed.

Lemma concat_cons (x : string) (l : list string) :
  String.concat EmptyString (x :: l) = x ++ String.concat EmptyString l.
Proof.
  cbn [String.concat]. destruct l as [|y l]; [| reflexivity].
  cbn. induction x as [|c x IH]; cbn; congruence.
Qed.

(** Cutting a text after [n] characters leaves those characters. *)
Lemma chars_prefix (s : string) (n : nat) :
  chars (py_prefix n s) = firstn n (chars s).
Proof.
  unfold py_prefix. revert n. induction s as [|b s IH]; intros n.
  - now destruct n.
  - destruct n as [|n]; [reflexivity |].
    rewrite (chars_eq b s).
    destruct s as [|d s]; [cbn [firstn]; now rewrite firstn_nil |].
    destruct (chars_head d s) as (tail & rest & Hhead).
    rewrite Hhead in *.
    destruct (is_continuation d) eqn:Hd.
    + cbn [firstn]. rewrite concat_cons.
      specialize (IH (S n)). cbn [firstn] in IH. rewrite concat_cons in IH.
      change (String b (String d tail) ++ String.concat EmptyString (firstn n rest))
        with (String b (String d tail
                          ++ String.concat EmptyString (firstn n rest))).
      rewrite chars_eq.
      change (String d tail ++ String.concat EmptyString (firstn n rest))
        with (String d (tail ++ String.concat EmptyString (firstn n rest)))
        in *.
      now rewrite IH, Hd.
    + cbn [firstn]. rewrite concat_cons.
      change (String b EmptyString
                ++ String.concat EmptyString (firstn n (String d tail :: rest)))
        with (String b (String.concat EmptyString
                          (firstn n (String d tail :: rest)))).
      destruct n as [|n]; [reflexivity |].
      specialize (IH (S n)). cbn [firstn] in *. rewrite concat_cons in *.
      change (String d tail ++ String.concat EmptyString (firstn n rest))
        with (String d (tail ++ String.concat EmptyString (firstn n rest)))
        in *.
      rewrite chars_eq. now rewrite IH, Hd.
Qed.

(** A text cut after [n] of its characters and followed by three dots has
    [n + 3] characters. *)
Lemma py_len_cut (n : nat) (s : string) :
  (n <= py_len s)%nat -> py_len (py_prefix n s ++ "...") = (n + 3)%nat.
Proof.
  intros Hn. unfold py_len in *.
  rewrite chars_app by reflexivity.
  rewrite chars_prefix, length_app, length_firstn. cbn. lia.
Qed.

(** A continuation byte at the head of a character encodes nothing, and
    neither does a byte below 128 followed by continuation bytes. *)
Lemma code_point_stray (d : ascii) (tail : string) :
  is_continuation d = true -> code_point (String d tail) = replacement.
Proof.
  unfold is_continuation, code_point. intros Hd.
  apply andb_prop in Hd as [Hlow Hhigh].
  apply N.leb_le in Hlow, Hhigh.
  replace (N_of_ascii d <? 128)%N with false
    by (symmetry; apply N.ltb_ge; lia).
  replace (192 <=? N_of_ascii d)%N with false
    by (symmetry; apply N.leb_gt; lia).
  replace (224 <=? N_of_ascii d)%N with false
    by (symmetry; apply N.leb_gt; lia).
  replace (240 <=? N_of_ascii d)%N with false
    by (symmetry; apply N.leb_gt; lia).
  reflexivity.
Qed.

End Characters.

Section NumberSearch.
Import Py ModelBattle.

Lemma span_digits_spec (s : list N) :
  s = (fst (span_digits s) ++ snd (span_digits s))%list
  /\ all_digits (fst (span_digits s)) = true
  /\ starts_with_digit (snd (span_digits s)) = false.
Proof.
  induction s as [|c s IH]; cbn [span_digits].
  - auto.
  - destruct (is_digit c) eqn:Hc.
    + destruct (span_digits s) as [ds rest]; cbn [fst snd] in *.
      destruct IH as (Hs & Hd & Hr).
      cbn [all_digits forallb app]. rewrite Hc.
      repeat split; auto. now f_equal.
    + cbn [fst snd starts_with_digit app]. rewrite Hc. auto.
Qed.

Lemma span_digits_head (s : list N) :
  starts_with_digit s = true -> fst (span_digits s) <> [].
Proof.
  destruct s as [|c s]; cbn [starts_with_digit span_digits]; [discriminate |].
  intros ->. destruct (span_digits s). cbn. discriminate.
Qed.

(** The match taken at a digit is the number that starts there. *)
Lemma match_number_here_spec (s : list N) :
  starts_with_digit s = true ->
  first_number s (match_number_here s).
Proof.
  intros Hs.
  pose proof (span_digits_spec s) as (Hsplit & Hds & Hrest).
  pose proof (span_digits_head s Hs) as Hne.
  unfold match_number_here.
  destruct (span_digits s) as [ds rest]; cbn [fst snd] in *.
  exists [], ds, rest. cbn [app].
  repeat (split; [assumption || reflexivity |]).
  destruct rest as [|c rest'].
  - right. split; [intros r Hr; discriminate | reflexivity].
  - destruct (N.eqb_spec c dot) as [-> | Hc].
    + pose proof (span_digits_spec rest') as (Hsplit' & Hfs & Hrest').
      destruct (span_digits rest') as [fs rest'']; cbn [fst snd] in *.
      destruct fs as [|f fs].
      * right. split; [| reflexivity].
        intros r Hr. injection Hr as <-. cbn [app] in Hsplit'. now subst.
      * left. exists (f :: fs), rest''.
        repeat split; auto; try discriminate. now f_equal.
    + right. split; [| reflexivity].
      intros r Hr. injection Hr as Hc' _. now elim Hc.
Qed.

Lemma first_number_skip (c : N) (s m : list N) :
  is_digit c = false -> first_number s m -> first_number (c :: s) m.
Proof.
  intros Hc (pre & ds & rest & Hs & Hpre & H).
  exists (c :: pre), ds, rest. cbn [app no_digit forallb].
  fold (no_digit pre). rewrite Hc, Hpre, Hs. auto.
Qed.

(** [search_number] finds the first decimal number, and finds none only in
    a text without digits. *)
Lemma search_number_spec (raw : list N) :
  match search_number raw with
  | Some m => first_number raw m
  | None => no_digit raw = true
  end.
Proof.
  induction raw as [|c s IH].
  - reflexivity.
  - cbn [search_number]. destruct (is_digit c) eqn:Hc.
    + apply match_number_here_spec. exact Hc.
    + destruct (search_number s) as [m|].
      * now apply first_number_skip.
      * cbn [no_digit forallb]. fold (no_digit s). now rewrite Hc, IH.
Qed.

Lemma span_digits_all (ds rest : list N) :
  all_digits ds = true -> starts_with_digit rest = false ->
  span_digits (ds ++ rest) = (ds, rest).
Proof.
  intros Hds Hrest. induction ds as [|c ds IH]; cbn [app span_digits] in *.
  - destruct rest as [|r rest]; cbn in *; [reflexivity | now rewrite Hrest].
  - cbn [all_digits forallb] in Hds. apply andb_prop in Hds as [Hc Hds].
    rewrite Hc, IH by assumption. reflexivity.
Qed.

(** [float] of a run of digits is the integer they write. *)
Lemma float_of_decimal_integer (ds : list N) :
  all_digits ds = true ->
  float_of_decimal ds = inject_Z (digits_value 0 ds).
Proof.
  intros Hds. unfold float_of_decimal.
  rewrite <- (app_nil_r ds) at 1.
  now rewrite span_digits_all.
Qed.

(** [float] of digits, a dot and [k] digits is the integer written by all
    the digits, over [10 ^ k]. *)
Lemma float_of_decimal_fraction (ds fs : list N) :
  all_digits ds = true ->
  float_of_decimal (ds ++ dot :: fs)
  = Qmake (digits_value (digits_value 0 ds) fs)
          (Pos.pow 10 (Pos.of_nat (List.length fs))).
Proof.
  intros Hds. unfold float_of_decimal.
  rewrite span_digits_all by (assumption || reflexivity).
  reflexivity.
Qed.

Lemma digit_value_nonneg (c : N) : (0 <= digit_value c)%Z.
Proof. unfold digit_value. destruct (decimal_value c); lia. Qed.

Lemma digits_value_nonneg (s : list N) (acc : Z) :
  (0 <= acc)%Z -> (0 <= digits_value acc s)%Z.
Proof.
  revert acc. induction s as [|c s IH]; intros acc Hacc;
    cbn [digits_value]; [assumption |].
  apply IH. pose proof (digit_value_nonneg c). lia.
Qed.

Lemma float_of_decimal_nonneg (m : list N) :
  (0 <= float_of_decimal m)%Q.
Proof.
  unfold float_of_decimal.
  destruct (span_digits m) as [ds rest].
  assert (Hint : (0 <= inject_Z (digits_value 0 ds))%Q).
  { unfold Qle, inject_Z. cbn.
    pose proof (digits_value_nonneg ds 0 (Z.le_refl 0)). lia. }
  destruct rest as [|c fs]; [exact Hint |].
  destruct (N.eqb c dot); [| exact Hint].
  unfold Qle. cbn.
  pose proof (digits_value_nonneg
                fs _ (digits_value_nonneg ds 0 (Z.le_refl 0))). lia.
Qed.

(** A minus sign is no digit, alone or with stray bytes after it: the
    search passes over it. *)
Lemma search_number_after_minus (raw : string) :
  search_number (code_points ("-" ++ raw))
  = search_number (code_points raw).
Proof.
  unfold code_points. change ("-" ++ raw) with (String "-" raw).
  rewrite chars_eq. destruct raw as [|d raw]; [reflexivity |].
  destruct (chars_head d raw) as (tail & rest & ->).
  destruct (is_continuation d) eqn:Hd.
  - cbn [map]. rewrite (code_point_stray d tail Hd). reflexivity.
  - reflexivity.
Qed.

End NumberSearch.

Section ScoreFallback.
Import Py ModelBattle.

Variable json_loads : string -> Try Json.
Variable float_of_str : string -> Try Q.

Lemma parse_score_undecodable (raw e : string) :
  json_loads raw = Raise e ->
  parse_score json_loads float_of_str raw = fallback_score raw.
Proof. intros H. unfold parse_score. now rewrite H. Qed.

(** What becomes of a reply that decodes to a value without [get]. *)
Lemma parse_score_not_an_object (raw : string) (v : Json) :
  json_loads raw = Ok v -> (forall d, v <> JObj d) ->
  parse_score json_loads float_of_str raw
  = {| score := 0%Q;
       comment := JStr ("评分解析错误: '" ++ type_name v
                          ++ "' object has no attribute 'get'") |}.
Proof.
  intros Hdecode Hother. unfold parse_score. rewrite Hdecode.
  destruct v; try reflexivity. now contradiction (Hother fields).
Qed.


End ScoreFallback.



(** A reply in Chinese of 46 characters is kept whole, though its
    encoding has 138 bytes. *)
Example chinese_comment_kept_whole :
  Py.py_len Scenario.chinese_review = 46%nat
  /\ String.length Scenario.chinese_review = 138%nat
  /\ ModelBattle.comment (ModelBattle.fallback_score Scenario.chinese_review)
     = Py.JStr Scenario.chinese_review.
Proof. repeat split. Qed.

(** A number in full-width digits is found and read. *)
Example fullwidth_digits_are_read :
  Py.code_points Scenario.fullwidth_review
  = [35780; 20998; 65306; 65304; 65301; 20998]%N
  /\ (ModelBattle.score (ModelBattle.fallback_score Scenario.fullwidth_review)
      == 85)%Q.
Proof. split; reflexivity. Qed.

(** *** The number search never yields a negative score *)

(** X12.  The score that the number search gives is never negative: the search
    reads digits only, so a minus sign before a number is passed over, and
    the text [-5] scores as the text [5] does. *)
Theorem fallback_score_ignores_sign (raw : string) :
  (0 <= ModelBattle.score (ModelBattle.fallback_score raw))%Q
  /\ ModelBattle.score (ModelBattle.fallback_score ("-" ++ raw))
     = ModelBattle.score (ModelBattle.fallback_score raw).
Proof.
  unfold ModelBattle.fallback_score. cbn [ModelBattle.score]. split.
  - destruct (ModelBattle.search_number (Py.code_points raw)) as [m |].
    + apply float_of_decimal_nonneg.
    + apply Qle_refl.
  - now rewrite search_number_after_minus.
Qed.

(** * Dictionaries filled by a loop *)

Section DictFill.
Import Py.

Context {X V : Type}.
Variable key : X -> string.
Variable val : X -> V.

Lemma dict_get_set_same (d : dict V) (k : string) (v : V) :
  dict_get (dict_set d k v) k = Some v.
Proof.
  induction d as [|[k' v'] d IH]; simpl.
  - now rewrite String.eqb_refl.
  - destruct (String.eqb k' k) eqn:Hk; simpl; rewrite Hk; auto.
Qed.

Lemma dict_get_set_other (d : dict V) (k k0 : string) (v : V) :
  k <> k0 -> dict_get (dict_set d k v) k0 = dict_get d k0.
Proof.
  intros Hne. induction d as [|[k' v'] d IH]; simpl.
  - destruct (String.eqb_spec k k0); [contradiction | reflexivity].
  - destruct (String.eqb_spec k' k) as [-> | Hk]; simpl.
    + destruct (String.eqb_spec k k0); [contradiction | reflexivity].
    + now rewrite IH.
Qed.

Lemma dict_fill_cons (x : X) (xs : list X) (d : dict V) :
  dict_fill key val (x :: xs) d = dict_fill key val xs (dict_set d (key x) (val x)).
Proof. reflexivity. Qed.

Lemma dict_fill_snoc (x : X) (xs : list X) (d : dict V) :
  dict_fill key val (xs ++ [x])%list d
  = dict_set (dict_fill key val xs d) (key x) (val x).
Proof. unfold dict_fill. now rewrite fold_left_app. Qed.

Lemma dict_fill_get_other (xs : list X) (d : dict V) (k : string) :
  ~ In k (map key xs) ->
  dict_get (dict_fill key val xs d) k = dict_get d k.
Proof.
  revert d. induction xs as [|x xs IH]; intros d Hk; simpl in Hk.
  - reflexivity.
  - rewrite dict_fill_cons, IH by tauto.
    apply dict_get_set_other. tauto.
Qed.

(** An entry of the filled dictionary is an old entry, or it has the key
    and the value of an element of the list. *)
Lemma dict_fill_get_inv (xs : list X) (d : dict V) (k : string) (v : V) :
  dict_get (dict_fill key val xs d) k = Some v ->
  dict_get d k = Some v
  \/ exists x, In x xs /\ key x = k /\ v = val x.
Proof.
  revert d. induction xs as [|x xs IH]; intros d Hget.
  - now left.
  - rewrite dict_fill_cons in Hget. apply IH in Hget as [Hget | Hget].
    + destruct (String.eqb_spec (key x) k) as [Hk | Hk].
      * subst k. rewrite dict_get_set_same in Hget. injection Hget as <-.
        right. exists x. simpl. auto.
      * rewrite dict_get_set_other in Hget by assumption. now left.
    + destruct Hget as (x' & Hin & Hx'). right. exists x'. simpl. auto.
Qed.

Lemma dict_fill_get_some (xs : list X) (d : dict V) (k : string) :
  In k (map key xs) ->
  exists v, dict_get (dict_fill key val xs d) k = Some v.
Proof.
  revert d. induction xs as [|x xs IH]; intros d Hk; simpl in Hk.
  - contradiction.
  - rewrite dict_fill_cons.
    destruct (in_dec string_dec k (map key xs)) as [Hin | Hout].
    + now apply IH.
    + destruct Hk as [<- | Hk]; [| contradiction].
      rewrite (dict_fill_get_other xs _ _ Hout).
      rewrite dict_get_set_same. eauto.
Qed.

(** Where the value depends on the key alone, every element finds its own
    value under its key. *)
Lemma dict_fill_get_by_key (xs : list X) (x : X) :
  (forall y, In y xs -> key y = key x -> val y = val x) ->
  In x xs ->
  dict_get (dict_fill key val xs []) (key x) = Some (val x).
Proof.
  intros Hsame Hin.
  destruct (dict_fill_get_some xs [] (key x)) as (v & Hv);
    [now apply in_map |].
  rewrite Hv. f_equal.
  apply dict_fill_get_inv in Hv as [Hv | (y & Hy & Hkey & ->)];
    [discriminate |].
  now apply Hsame.
Qed.

End DictFill.

(** * The first maximum and the order of keys *)

Section FirstMaximum.
Import Py.

(** [max] with a key returns the first item whose value is the greatest:
    the items before it are strictly smaller, the items after it are not
    greater. *)
Lemma max_by_value_from_first {K : Type} (best : K * Q) (items : list (K * Q)) :
  exists before after,
    best :: items = (before ++ max_by_value_from best items :: after)%list
    /\ (forall x, In x before ->
                  (snd x < snd (max_by_value_from best items))%Q)
    /\ (forall x, In x after ->
                  (snd x <= snd (max_by_value_from best items))%Q).
Proof.
  revert best. induction items as [|it rest IH]; intros best.
  - exists [], []. simpl. repeat split; intros x [].
  - cbn [max_by_value_from].
    destruct (Qle_bool (snd it) (snd best)) eqn:Hle.
    + apply Qle_bool_iff in Hle.
      destruct (IH best) as (before & after & Hsplit & Hbefore & Hafter).
      remember (max_by_value_from best rest) as r eqn:Hr. clear Hr.
      destruct before as [|b before].
      * injection Hsplit as Hbest Hrest. subst r rest.
        exists [], (it :: after).
        repeat split; [intros x [] |].
        intros x [<- | Hx]; [assumption | now apply Hafter].
      * injection Hsplit as Hb Hrest. subst b.
        exists (best :: it :: before), after. rewrite Hrest.
        repeat split; [| exact Hafter].
        intros x [<- | [<- | Hx]].
        -- apply Hbefore. now left.
        -- eapply Qle_lt_trans; [exact Hle |]. apply Hbefore. now left.
        -- apply Hbefore. now right.
    + assert (Hlt : (snd best < snd it)%Q).
      { apply Qnot_le_lt. intros H. apply Qle_bool_iff in H. congruence. }
      destruct (IH it) as (before & after & Hsplit & Hbefore & Hafter).
      remember (max_by_value_from it rest) as r eqn:Hr. clear Hr.
      exists (best :: before), after. rewrite Hsplit.
      repeat split; [| exact Hafter].
      intros x [<- | Hx]; [| now apply Hbefore].
      destruct before as [|b before].
      * injection Hsplit as Hit _. now rewrite <- Hit.
      * injection Hsplit as Hb _. subst b.
        eapply Qlt_trans; [exact Hlt |]. apply Hbefore. now left.
Qed.

Variable T : string -> Q.

Lemma dict_set_known_key (K : list string) (k : string) :
  In k K ->
  dict_set (map (fun k => (k, T k)) K) k (T k) = map (fun k => (k, T k)) K.
Proof.
  induction K as [|k' K IH]; intros Hin; [contradiction |].
  simpl. destruct (String.eqb_spec k' k) as [-> | Hne]; [reflexivity |].
  f_equal. apply IH. destruct Hin; [contradiction | assumption].
Qed.

Lemma dict_set_new_key (K : list string) (k : string) :
  ~ In k K ->
  dict_set (map (fun k => (k, T k)) K) k (T k)
  = map (fun k => (k, T k)) (K ++ [k])%list.
Proof.
  induction K as [|k' K IH]; intros Hout; [reflexivity |].
  simpl. destruct (String.eqb_spec k' k) as [-> | Hne].
  - elim Hout. now left.
  - f_equal. apply IH. intros H. apply Hout. now right.
Qed.

Lemma snoc_split {A : Type} (K K1 K2 : list A) (y k : A) :
  (K ++ [y] = K1 ++ k :: K2)%list ->
  (K2 = [] /\ K = K1 /\ y = k)
  \/ (exists K2', K2 = K2' ++ [y] /\ K = K1 ++ k :: K2')%list.
Proof.
  intros H. destruct K2 as [|z K2 _] using rev_ind.
  - left. apply app_inj_tail in H as [-> ->]. auto.
  - right. exists K2.
    change (K ++ [y] = K1 ++ (k :: K2 ++ [z]))%list in H.
    rewrite app_comm_cons, app_assoc in H.
    apply app_inj_tail in H as [-> ->]. auto.
Qed.

(** A dictionary filled with values that depend on the key alone lists its
    keys once each, in the order of their first occurrence: what comes
    before a key in the dictionary is what comes before its first
    occurrence in the list. *)
Lemma dict_fill_first_occurrences {X : Type} (key : X -> string) (xs : list X) :
  exists K,
    dict_fill key (fun x => T (key x)) xs [] = map (fun k => (k, T k)) K
    /\ NoDup K
    /\ (forall k, In k K <-> In k (map key xs))
    /\ (forall K1 k K2,
           K = (K1 ++ k :: K2)%list ->
           exists l1 w l2,
             xs = (l1 ++ w :: l2)%list /\ key w = k
             /\ (forall x, In x (map key l1) <-> In x K1)).
Proof.
  induction xs as [|x xs IH] using rev_ind.
  - exists []. split; [reflexivity |]. split; [constructor |].
    split; [intros k; simpl; tauto |].
    intros K1 k K2 H. destruct K1; discriminate H.
  - destruct IH as (K & Hfill & Hnodup & Hkeys & Horder).
    rewrite dict_fill_snoc, Hfill.
    destruct (in_dec string_dec (key x) K) as [Hin | Hout].
    + exists K. rewrite dict_set_known_key by assumption.
      split; [reflexivity |]. split; [assumption |]. split.
      * intros k. rewrite map_app, in_app_iff, <- Hkeys. simpl.
        split; [tauto |]. intros [H | [<- | []]]; assumption.
      * intros K1 k K2 HK.
        destruct (Horder K1 k K2 HK) as (l1 & w & l2 & -> & Hw & Hl1).
        exists l1, w, (l2 ++ [x])%list.
        rewrite <- app_assoc. simpl. auto.
    + exists (K ++ [key x])%list. rewrite dict_set_new_key by assumption.
      split; [reflexivity |]. split; [| split].
      * apply NoDup_app; [assumption | repeat constructor; intros [] |].
        intros a Ha [<- | []]. contradiction.
      * intros k. rewrite map_app, !in_app_iff, <- Hkeys. reflexivity.
      * intros K1 k K2 HK.
        apply snoc_split in HK as [(-> & <- & <-) | (K2' & -> & HK)].
        -- exists xs, x, []. repeat split; apply Hkeys.
        -- destruct (Horder K1 k K2' HK) as (l1 & w & l2 & -> & Hw & Hl1).
           exists l1, w, (l2 ++ [x])%list.
           rewrite <- app_assoc. simpl. auto.
Qed.


(** The winner of a dictionary filled from a list is the key of the first
    element of the list whose value is the greatest. *)
Lemma winner_of_first_maximum {X : Type} (key : X -> string) (xs : list X) :
  xs <> [] ->
  exists before w after,
    xs = (before ++ w :: after)%list
    /\ ModelBattle.winner_of (dict_fill key (fun x => T (key x)) xs []) = key w
    /\ (forall x, In x before -> (T (key x) < T (key w))%Q)
    /\ (forall x, In x after -> (T (key x) <= T (key w))%Q).
Proof.
  intros Hxs.
  destruct (dict_fill_first_occurrences key xs)
    as (K & Hfill & Hnodup & Hkeys & Horder).
  rewrite Hfill.
  destruct K as [|k0 K'].
  { destruct xs as [|x xs]; [contradiction |].
    destruct (proj2 (Hkeys (key x))). now left. }
  cbn [map ModelBattle.winner_of].
  destruct (max_by_value_from_first (k0, T k0) (map (fun k => (k, T k)) K'))
    as (before & after & Hsplit & Hbefore & Hafter).
  remember (max_by_value_from (k0, T k0) (map (fun k => (k, T k)) K')) as r
    eqn:Hr. clear Hr.
  change ((k0, T k0) :: map (fun k => (k, T k)) K')
    with (map (fun k => (k, T k)) (k0 :: K')) in Hsplit.
  apply map_eq_app in Hsplit as (K1 & K2r & HK & HK1 & HK2r).
  destruct K2r as [|k K2]; [discriminate HK2r |].
  injection HK2r as Hk HK2. subst r before after. cbn [fst snd] in *.
  destruct (Horder K1 k K2 HK) as (l1 & w & l2 & Hsplit & Hw & Hl1).
  exists l1, w, l2. rewrite Hw. split; [assumption |]. split; [reflexivity |].
  split.
  - intros x Hx.
    apply (Hbefore (key x, T (key x))).
    apply (in_map (fun k => (k, T k))). apply Hl1. now apply in_map.
  - intros x Hx.
    assert (Hin : In (key x) (k0 :: K')).
    { apply Hkeys. apply in_map. rewrite Hsplit.
      apply in_or_app. right. now right. }
    rewrite HK in Hin. apply in_app_or in Hin as [Hin | [<- | Hin]].
    + apply Qlt_le_weak. apply (Hbefore (key x, T (key x))).
      now apply (in_map (fun k => (k, T k))).
    + apply Qle_refl.
    + apply (Hafter (key x, T (key x))).
      now apply (in_map (fun k => (k, T k))).
Qed.

End FirstMaximum.

(** * Rounds and battles *)

Section Rounds.
Import Py ModelBattle.

Variable Generation_call : nat -> string -> string -> GenerationOutcome.
Variable json_loads : string -> Try Json.
Variable float_of_str : string -> Try Q.

Local Abbreviation call_model := (call_model Generation_call).
Local Abbreviation gather_answers := (gather_answers Generation_call).
Local Abbreviation score_response := (score_response Generation_call json_loads float_of_str).
Local Abbreviation score_by_models := (score_by_models Generation_call json_loads float_of_str).
Local Abbreviation score_responses := (score_responses Generation_call json_loads float_of_str).
Local Abbreviation battle_round := (battle_round Generation_call json_loads float_of_str).
Local Abbreviation battle_rounds := (battle_rounds Generation_call json_loads float_of_str).
Local Abbreviation battle := (battle Generation_call json_loads float_of_str).
Local Abbreviation rounds_run := (rounds_run Generation_call json_loads float_of_str).

(** **** The answer phase *)

Lemma call_model_name (m : ModelType) (prompt : string) (log : list Call) :
  model_name (fst (call_model m prompt log)) = value m.
Proof.
  unfold ModelBattle.call_model, call_dashscope_model; simpl.
  destruct (Generation_call _ _ _) as [e | st txt msg tok];
    [| destruct (st =? 200)%Z]; reflexivity.
Qed.

Lemma call_model_log (m : ModelType) (prompt : string) (log : list Call) :
  snd (call_model m prompt log) = (log ++ [(value m, prompt)])%list.
Proof. reflexivity. Qed.

Lemma gather_answers_cons (question : string) (m : ModelType)
      (ms : list ModelType) (log : list Call) :
  gather_answers question (m :: ms) log
  = (fst (call_model m question log)
       :: fst (gather_answers question ms (log ++ [(value m, question)])%list),
     snd (gather_answers question ms (log ++ [(value m, question)])%list)).
Proof.
  cbn [ModelBattle.gather_answers]. unfold bind, ret.
  destruct (call_model m question log) as [r log1] eqn:Hcall.
  assert (Hlog : log1 = (log ++ [(value m, question)])%list)
    by (now rewrite <- (call_model_log m question log), Hcall).
  subst log1. simpl.
  now destruct (gather_answers question ms _).
Qed.

Lemma gather_answers_log (question : string) (ms : list ModelType)
      (log : list Call) :
  snd (gather_answers question ms log)
  = (log ++ answer_calls question ms)%list.
Proof.
  revert log. induction ms as [|m ms IH]; intros log.
  - simpl. now rewrite app_nil_r.
  - rewrite gather_answers_cons. simpl. rewrite IH.
    now rewrite <- app_assoc.
Qed.

Lemma gather_answers_names (question : string) (ms : list ModelType)
      (log : list Call) :
  map model_name (fst (gather_answers question ms log)) = map value ms.
Proof.
  revert log. induction ms as [|m ms IH]; intros log.
  - reflexivity.
  - rewrite gather_answers_cons. cbn [fst map].
    now rewrite call_model_name, IH.
Qed.

(** **** The round as a whole *)

Lemma battle_round_eq (round_number : Z) (question : string)
      (ms : list ModelType) (log : list Call) :
  battle_round round_number question ms log
  = let answers := fst (gather_answers question ms log) in
    let log1 := snd (gather_answers question ms log) in
    if (List.length (filter error_free answers) <? 2)%nat
    then ({| round_number := round_number;
             responses := answers;
             round_scores := dict_fill model_name (fun _ => 0%Q) answers [] |}, log1)
    else
      let scored := fst (score_responses question ms 0 answers log1) in
      ({| round_number := round_number;
          responses := scored;
          round_scores := dict_fill model_name mean_score scored [] |},
       snd (score_responses question ms 0 answers log1)).
Proof.
  unfold ModelBattle.battle_round, bind, ret.
  destruct (gather_answers question ms log) as [answers log1]; cbn [fst snd].
  change (fun r : ModelResponse => negb (truthy (error r))) with error_free.
  destruct (List.length (filter error_free answers) <? 2)%nat; [reflexivity |].
  now destruct (score_responses question ms 0 answers log1).
Qed.

(** Scoring changes the [scores] of a response and nothing else. *)
Lemma score_responses_fields (question : string) (ms : list ModelType)
      (i : nat) (rs : list ModelResponse) (log : list Call) :
  Forall2 (fun r r' => exists sc, r' = with_scores r sc)
          rs (fst (score_responses question ms i rs log)).
Proof.
  revert i log. induction rs as [|r rs IH]; intros i log.
  - constructor.
  - cbn [ModelBattle.score_responses]. unfold bind, ret.
    destruct (truthy (error r)).
    + specialize (IH (S i) log).
      destruct (score_responses question ms (S i) rs log) as [rest log']; simpl in *.
      constructor; eauto.
    + destruct (score_by_models question r i 0 ms [] log) as [sc log1].
      specialize (IH (S i) log1).
      destruct (score_responses question ms (S i) rs log1) as [rest log']; simpl in *.
      constructor; eauto.
Qed.

Lemma scored_error_free_count (rs rs' : list ModelResponse) :
  Forall2 (fun r r' => exists sc, r' = with_scores r sc) rs rs' ->
  List.length (filter error_free rs') = List.length (filter error_free rs).
Proof.
  induction 1 as [|r r' rs rs' (sc & ->) _ IH]; [reflexivity |].
  cbn [filter]. change (error_free (with_scores r sc)) with (error_free r).
  destruct (error_free r); simpl; congruence.
Qed.

(** C5.  In a round in which fewer than two answers are free of error, every
    model's round score is 0, no entry of the round's scores is different
    from 0, and the only Gateway calls of the round are the calls of the
    answer phase, one per model, each with the question as its prompt: no
    scoring call is issued. *)
Theorem round_without_two_answers_scores_zero
        (round_number : Z) (question : string) (ms : list ModelType)
        (log : list Call) :
  let r := fst (battle_round round_number question ms log) in
  let log' := snd (battle_round round_number question ms log) in
  (List.length (filter error_free (responses r)) < 2)%nat ->
  (forall m, In m ms -> dict_get (round_scores r) (value m) = Some 0%Q)
  /\ (forall k v, dict_get (round_scores r) k = Some v -> v = 0%Q)
  /\ log' = (log ++ answer_calls question ms)%list.
Proof.
  intros r log'. subst r log'. rewrite battle_round_eq. cbv zeta.
  destruct (List.length (filter error_free (fst (gather_answers question ms log)))
            <? 2)%nat eqn:Hfew; cbn [fst snd responses round_scores].
  - intros _.
    assert (Hzero : forall k v,
               dict_get (dict_fill model_name (fun _ => 0%Q)
                                   (fst (gather_answers question ms log)) []) k
               = Some v -> v = 0%Q).
    { intros k v Hget.
      apply dict_fill_get_inv in Hget as [Hget | (x & _ & _ & Hv)];
        [discriminate | exact Hv]. }
    split; [| split].
    + intros m Hm.
      destruct (dict_fill_get_some model_name (fun _ : ModelResponse => 0%Q)
                  (fst (gather_answers question ms log)) [] (value m))
        as (v & Hv).
      { rewrite gather_answers_names. now apply in_map. }
      rewrite Hv. f_equal. eapply Hzero, Hv.
    + exact Hzero.
    + apply gather_answers_log.
  - intros Hcount. exfalso.
    rewrite (scored_error_free_count _ _ (score_responses_fields _ _ _ _ _))
      in Hcount.
    apply Nat.ltb_ge in Hfew. lia.
Qed.


(** **** Scoring *)

Lemma bind_eq {X Y : Type} (m : IO X) (k : X -> IO Y) (log : list Call) :
  bind m k log = k (fst (m log)) (snd (m log)).
Proof. unfold bind. now destruct (m log). Qed.

Lemma value_inj (m1 m2 : ModelType) : value m1 = value m2 -> m1 = m2.
Proof. destruct m1, m2; simpl; intros H; try reflexivity; discriminate H. Qed.

Lemma value_eqb_neq (m1 m2 : ModelType) :
  m1 <> m2 -> String.eqb (value m1) (value m2) = false.
Proof.
  intros Hne. apply String.eqb_neq. intros H. now apply Hne, value_inj.
Qed.

Lemma call_model_error_free (m : ModelType) (prompt : string) (log : list Call) :
  error_free (fst (call_model m prompt log))
  = negb (failed (Generation_call (List.length log) (value m) prompt)).
Proof.
  unfold ModelBattle.call_model, call_dashscope_model, error_free, failed.
  cbn [fst].
  destruct (Generation_call _ _ _) as [e | st txt msg tok];
    [| destruct (st =? 200)%Z]; reflexivity.
Qed.

(** A scoring call that fails gives the score 0. *)
Lemma score_response_failed (question : string) (subject : ModelResponse)
      (scorer : ModelType) (log : list Call) :
  failed (Generation_call (List.length log) (value scorer)
                          (generate_scoring_prompt question subject)) = true ->
  score (fst (score_response question subject scorer log)) = 0%Q.
Proof.
  intros Hfailed.
  unfold ModelBattle.score_response. rewrite bind_eq. unfold ret; cbn [fst].
  pose proof (call_model_error_free scorer
                (generate_scoring_prompt question subject) log) as Herr.
  rewrite Hfailed in Herr. unfold error_free in Herr.
  apply negb_false_iff in Herr. now rewrite Herr.
Qed.

Lemma score_response_log (question : string) (subject : ModelResponse)
      (scorer : ModelType) (log : list Call) :
  snd (score_response question subject scorer log)
  = (log ++ [(value scorer, generate_scoring_prompt question subject)])%list.
Proof.
  unfold ModelBattle.score_response. rewrite bind_eq. reflexivity.
Qed.

Lemma score_by_models_self (question : string) (subject : ModelResponse)
      (i : nat) (scorer : ModelType) (rest : list ModelType)
      (acc : dict ScoreResult) (log : list Call) :
  score_by_models question subject i i (scorer :: rest) acc log
  = score_by_models question subject i (S i) rest acc log.
Proof. cbn [ModelBattle.score_by_models]. now rewrite Nat.eqb_refl. Qed.

Lemma score_by_models_other (question : string) (subject : ModelResponse)
      (i j : nat) (scorer : ModelType) (rest : list ModelType)
      (acc : dict ScoreResult) (log : list Call) :
  i <> j ->
  score_by_models question subject i j (scorer :: rest) acc log
  = score_by_models question subject i (S j) rest
      (dict_set acc (value scorer)
                (fst (score_response question subject scorer log)))
      (log ++ [(value scorer, generate_scoring_prompt question subject)])%list.
Proof.
  intros Hij. cbn [ModelBattle.score_by_models].
  apply Nat.eqb_neq in Hij. rewrite Hij, bind_eq.
  now rewrite score_response_log.
Qed.

Lemma score_responses_cons (question : string) (ms : list ModelType) (i : nat)
      (r : ModelResponse) (rs : list ModelResponse) (log : list Call) :
  score_responses question ms i (r :: rs) log
  = if error_free r
    then
      let sc := score_by_models question r i 0 ms [] log in
      let rest := score_responses question ms (S i) rs (snd sc) in
      (with_scores r (fst sc) :: fst rest, snd rest)
    else
      let rest := score_responses question ms (S i) rs log in
      (with_scores r [] :: fst rest, snd rest).
Proof.
  cbn [ModelBattle.score_responses]. unfold error_free.
  destruct (truthy (error r)); cbn [negb];
    repeat (rewrite bind_eq; cbv beta); reflexivity.
Qed.

(** The mean of two scores held by a response without error. *)
Lemma mean_score_two (r : ModelResponse) (k1 k2 : string) (s1 s2 : ScoreResult) :
  error_free r = true ->
  scores r = [(k1, s1); (k2, s2)] ->
  (mean_score r == (score s1 + score s2) / 2)%Q.
Proof.
  intros Hfree Hscores. unfold mean_score.
  unfold error_free in Hfree. rewrite Hfree, Hscores.
  cbn. unfold py_sum; cbn [fold_left].
  change (inject_Z 2) with 2%Q. now rewrite Qplus_0_l.
Qed.

Lemma mean_score_error (r : ModelResponse) :
  error_free r = false -> mean_score r = 0%Q.
Proof. unfold mean_score, error_free. now intros ->. Qed.

Lemma score_by_models_nil (question : string) (subject : ModelResponse)
      (i j : nat) (acc : dict ScoreResult) (log : list Call) :
  score_by_models question subject i j [] acc log = (acc, log).
Proof. reflexivity. Qed.

Lemma score_responses_nil (question : string) (ms : list ModelType) (i : nat)
      (log : list Call) :
  score_responses question ms i [] log = ([], log).
Proof. reflexivity. Qed.

(** C1, as the code has it.  In a round of three distinct models A, B, C in
    which the answers of A and C are free of error, the answer of A holds
    exactly two scores, the one B gave and the one C gave, and A's round
    score is their arithmetic mean, whether or not B's own answer has an
    error.  When B's answer has an error, B's round score is 0, but B is
    still called to score A; when that scoring call fails too, the score it
    contributes to the mean is 0. *)
Theorem round_of_three_mean_scores
        (round_number : Z) (question : string) (A B C : ModelType)
        (log : list Call) :
  A <> B -> A <> C -> B <> C ->
  let r := fst (battle_round round_number question [A; B; C] log) in
  exists a b c,
    responses r = [a; b; c]
    /\ model_name a = value A /\ model_name b = value B
    /\ model_name c = value C
    /\ (error_free a = true -> error_free c = true ->
        exists sB sC,
          scores a = [(value B, sB); (value C, sC)]
          /\ (exists v, dict_get (round_scores r) (value A) = Some v
                        /\ (v == (score sB + score sC) / 2)%Q)
          /\ (error_free b = false ->
              dict_get (round_scores r) (value B) = Some 0%Q)
          /\ (failed (Generation_call (List.length log + 3) (value B)
                        (generate_scoring_prompt question a)) = true ->
              score sB = 0%Q)).
Proof.
  intros HAB HAC HBC r. subst r.
  rewrite battle_round_eq. rewrite !gather_answers_cons. cbn [fst snd].
  change (fst (gather_answers question [] ?l)) with (@nil ModelResponse).
  change (snd (gather_answers question [] ?l)) with l.
  set (log1 := (log ++ [(value A, question)])%list).
  set (log2 := (log1 ++ [(value B, question)])%list).
  set (log3 := (log2 ++ [(value C, question)])%list).
  set (a0 := fst (call_model A question log)).
  set (b0 := fst (call_model B question log1)).
  set (c0 := fst (call_model C question log2)).
  assert (Hna : model_name a0 = value A) by apply call_model_name.
  assert (Hnb : model_name b0 = value B) by apply call_model_name.
  assert (Hnc : model_name c0 = value C) by apply call_model_name.
  assert (Hlog3 : List.length log3 = (List.length log + 3)%nat).
  { unfold log3, log2, log1. rewrite !length_app. simpl. lia. }
  cbv zeta.
  destruct (List.length (filter error_free [a0; b0; c0]) <? 2)%nat eqn:Hfew;
    cbn [fst responses round_scores].
  - (* fewer than two answers: excluded by the two answers of A and C *)
    exists a0, b0, c0. repeat (split; [reflexivity || assumption |]).
    intros Ha Hc. exfalso. cbn [filter] in Hfew. rewrite Ha, Hc in Hfew.
    destruct (error_free b0); discriminate Hfew.
  - assert (Hnames : forall x y z : ModelResponse,
               model_name x = value A -> model_name y = value B ->
               model_name z = value C ->
               forall r', In r' [x; y; z] ->
                          (model_name r' = model_name x -> r' = x)
                          /\ (model_name r' = model_name y -> r' = y)).
    { intros x y z Hx Hy Hz r' [<- | [<- | [<- | []]]]; split; intros Hn;
        try reflexivity; exfalso; rewrite ?Hx, ?Hy, ?Hz in Hn;
        apply value_inj in Hn; congruence. }
    destruct (error_free a0) eqn:Ha, (error_free b0) eqn:Hb,
             (error_free c0) eqn:Hc;
      rewrite (score_responses_cons question [A; B; C] 0), Ha;
      cbv zeta; cbn [fst snd];
      rewrite (score_responses_cons question [A; B; C] 1), Hb;
      cbv zeta; cbn [fst snd];
      rewrite (score_responses_cons question [A; B; C] 2), Hc;
      cbv zeta; cbn [fst snd];
      rewrite score_responses_nil; cbn [fst snd];
      do 3 eexists; (split; [reflexivity |]);
      repeat (split; [assumption |]);
      intros Ha' Hc';
      change (error_free a0 = true) in Ha';
      change (error_free c0 = true) in Hc';
      try congruence;
      rewrite score_by_models_self;
      rewrite !(score_by_models_other question a0 0) by lia;
      rewrite score_by_models_nil;
      cbn [fst snd dict_set];
      rewrite (value_eqb_neq B C HBC);
      do 2 eexists; (split; [reflexivity |]);
      (split; [| split]).
    all: try match goal with
      | |- exists v, dict_get (dict_fill model_name mean_score [?x; ?y; ?z] []) _ = Some v /\ _ =>
          exists (mean_score x); split;
          [ rewrite <- Hna;
            apply (dict_fill_get_by_key model_name mean_score [x; y; z] x);
            [| now left];
            intros r' Hr' Hn; f_equal;
            now apply (Hnames x y z Hna Hnb Hnc r' Hr')
          | now apply (mean_score_two x (value B) (value C)) ]
      end.
    all: try (intros Hf; apply score_response_failed; now rewrite Hlog3).
    + intros Hb'. change (error_free b0 = false) in Hb'. congruence.
    + intros _. rewrite <- Hnb.
      match goal with
      | |- context [dict_fill model_name mean_score [?x; ?y; ?z] []] =>
          transitivity (Some (mean_score y));
          [ apply (dict_fill_get_by_key model_name mean_score [x; y; z] y);
            [ intros r' Hr' Hn; f_equal;
              now apply (Hnames x y z Hna Hnb Hnc r' Hr')
            | now right; left ]
          | f_equal; now apply mean_score_error ]
      end.
Qed.

(** **** The battle *)

Lemma battle_rounds_length (k : nat) (round_num : Z) (question : string)
      (ms : list ModelType) (log : list Call) :
  List.length (fst (battle_rounds k round_num question ms log)) = k.
Proof.
  revert round_num log. induction k as [|k IH]; intros round_num log.
  - reflexivity.
  - cbn [ModelBattle.battle_rounds]. repeat (rewrite bind_eq; cbv beta).
    unfold ret; cbn [fst List.length]. now rewrite IH.
Qed.

Lemma battle_round_names (round_number : Z) (question : string)
      (ms : list ModelType) (log : list Call) :
  map model_name (responses (fst (battle_round round_number question ms log)))
  = map value ms.
Proof.
  rewrite battle_round_eq. cbv zeta.
  destruct (_ <? 2)%nat; cbn [fst responses].
  - apply gather_answers_names.
  - rewrite <- (gather_answers_names question ms log).
    pose proof (score_responses_fields question ms 0
                  (fst (gather_answers question ms log))
                  (snd (gather_answers question ms log))) as Hfields.
    induction Hfields as [|r r' rs rs' (sc & ->) _ IH]; [reflexivity |].
    simpl. now rewrite IH.
Qed.

Lemma battle_rounds_names (k : nat) (round_num : Z) (question : string)
      (ms : list ModelType) (log : list Call) :
  Forall (fun r => map model_name (responses r) = map value ms)
         (fst (battle_rounds k round_num question ms log)).
Proof.
  revert round_num log. induction k as [|k IH]; intros round_num log.
  - constructor.
  - cbn [ModelBattle.battle_rounds]. repeat (rewrite bind_eq; cbv beta).
    unfold ret; cbn [fst]. constructor; [apply battle_round_names | apply IH].
Qed.

Lemma last_round_snoc (rs : list BattleRound) (r : BattleRound) :
  last_round (rs ++ [r])%list = Ok r.
Proof.
  induction rs as [|r0 rs IH]; [reflexivity |].
  cbn [app last_round]. rewrite IH.
  now destruct (rs ++ [r])%list eqn:Hrs; [destruct rs; discriminate Hrs |].
Qed.

Lemma battle_eq (question : string) (ms : list ModelType) (num_rounds : Z)
      (log : list Call) :
  fst (battle question ms num_rounds log)
  = let rounds :=
      fst (battle_rounds (Z.to_nat num_rounds) 0 question ms log) in
    let final_scores :=
      dict_fill value (fun m => total_score rounds (value m)) ms [] in
    let winner := winner_of final_scores in
    let result final_answer :=
      {| question := question; rounds := rounds;
         final_scores := final_scores; final_winner := winner;
         final_answer := final_answer |} in
    if String.eqb winner no_winner
    then Ok (result "")
    else match last_round rounds with
         | Ok last => Ok (result (find_answer winner last.(responses)))
         | Raise e => Raise e
         end.
Proof.
  unfold ModelBattle.battle. rewrite bind_eq. cbv zeta beta.
  fold (dict_fill value
          (fun m => total_score
                      (fst (battle_rounds (Z.to_nat num_rounds) 0 question ms log))
                      (value m)) ms []).
  destruct (String.eqb _ no_winner); cbn [negb]; [reflexivity |].
  now destruct (last_round _).
Qed.

Lemma battle_log (question : string) (ms : list ModelType) (num_rounds : Z)
      (log : list Call) :
  snd (battle question ms num_rounds log)
  = snd (battle_rounds (Z.to_nat num_rounds) 0 question ms log).
Proof.
  unfold ModelBattle.battle. rewrite bind_eq. cbv zeta beta.
  destruct (negb _); [| reflexivity].
  now destruct (last_round _).
Qed.

Lemma battle_rounds_snoc_log (k : nat) (round_num : Z) (question : string)
      (ms : list ModelType) (log : list Call) :
  snd (battle_rounds (S k) round_num question ms log)
  = snd (battle_rounds k (round_num + 1) question ms
                       (snd (battle_round (round_num + 1) question ms log))).
Proof.
  cbn [ModelBattle.battle_rounds]. repeat (rewrite bind_eq; cbv beta).
  reflexivity.
Qed.

(** The rounds that [battle_rounds] returns are the rounds run. *)
Lemma battle_rounds_run (k : nat) (round_num : Z) (question : string)
      (ms : list ModelType) (log : list Call) :
  rounds_run question ms round_num log
             (fst (battle_rounds k round_num question ms log))
             (snd (battle_rounds k round_num question ms log)).
Proof.
  revert round_num log. induction k as [|k IH]; intros round_num log.
  - constructor.
  - rewrite battle_rounds_snoc_log.
    cbn [ModelBattle.battle_rounds]. repeat (rewrite bind_eq; cbv beta).
    unfold ret; cbn [fst].
    econstructor; [apply surjective_pairing | apply IH].
Qed.

Lemma value_not_no_winner (m : ModelType) : value m <> no_winner.
Proof. destruct m; discriminate. Qed.

Lemma find_answer_none (winner : string) (rs : list ModelResponse) :
  (forall r, In r rs -> model_name r = winner -> error_free r = false) ->
  find_answer winner rs = "".
Proof.
  induction rs as [|r rs IH]; intros Hnone; [reflexivity |].
  cbn [find_answer].
  destruct (String.eqb_spec (model_name r) winner) as [Hname | Hname].
  - pose proof (Hnone r (or_introl eq_refl) Hname) as Herr.
    unfold error_free in Herr. rewrite Herr. cbn [andb].
    apply IH. intros r' Hr'. apply Hnone. now right.
  - cbn [andb]. apply IH. intros r' Hr'. apply Hnone. now right.
Qed.

Lemma find_answer_unique (winner : string) (rs : list ModelResponse)
      (r : ModelResponse) :
  NoDup (map model_name rs) ->
  In r rs -> model_name r = winner ->
  find_answer winner rs = if error_free r then response r else "".
Proof.
  induction rs as [|r0 rs IH]; intros Hnodup Hin Hname; [contradiction |].
  cbn [map] in Hnodup. apply NoDup_cons_iff in Hnodup as [Hfresh Hnodup].
  cbn [find_answer]. destruct Hin as [-> | Hin].
  - rewrite Hname, String.eqb_refl. cbn [andb].
    fold (error_free r). destruct (error_free r); [reflexivity |].
    apply find_answer_none. intros r' Hr' Hname'.
    elim Hfresh. rewrite Hname, <- Hname'. now apply in_map.
  - destruct (String.eqb_spec (model_name r0) winner) as [Hname0 | Hname0].
    + elim Hfresh. rewrite Hname0, <- Hname. now apply in_map.
    + cbn [andb]. now apply IH.
Qed.

(** With at least one round to run, the rounds end with a last round and
    [battle] returns. *)
Lemma battle_with_rounds (question : string) (ms : list ModelType)
      (num_rounds : Z) (log : list Call) :
  (1 <= num_rounds)%Z ->
  exists earlier last res,
    fst (battle_rounds (Z.to_nat num_rounds) 0 question ms log)
    = (earlier ++ [last])%list
    /\ fst (battle question ms num_rounds log) = Ok res
    /\ rounds res = (earlier ++ [last])%list
    /\ final_scores res
       = dict_fill value
           (fun m => total_score (earlier ++ [last])%list (value m)) ms []
    /\ final_winner res = winner_of (final_scores res)
    /\ final_answer res
       = if String.eqb (final_winner res) no_winner then ""
         else find_answer (final_winner res) (responses last).
Proof.
  intros Hrounds. rewrite battle_eq. cbv zeta.
  pose proof (battle_rounds_length (Z.to_nat num_rounds) 0 question ms log)
    as Hlen.
  destruct (fst (battle_rounds (Z.to_nat num_rounds) 0 question ms log))
    as [|last earlier _] using rev_ind; [simpl in Hlen; lia |].
  exists earlier, last. rewrite last_round_snoc.
  destruct (String.eqb _ no_winner) eqn:Hno;
    eexists; (split; [reflexivity |]); (split; [reflexivity |]);
    cbn [rounds final_scores final_winner final_answer];
    rewrite Hno; auto.
Qed.

Lemma find_answer_first (winner : string)
      (before : list ModelResponse) (r : ModelResponse)
      (after : list ModelResponse) :
  model_name r = winner -> error_free r = true ->
  (forall r', In r' before -> model_name r' = winner ->
              error_free r' = false) ->
  find_answer winner (before ++ r :: after) = response r.
Proof.
  intros Hname Hfree. induction before as [|r0 before IH]; intros Hbefore.
  - cbn [app find_answer]. rewrite Hname, String.eqb_refl.
    unfold error_free in Hfree. now rewrite Hfree.
  - cbn [app find_answer].
    destruct (String.eqb_spec (model_name r0) winner) as [Hname0 | _].
    + pose proof (Hbefore r0 (or_introl eq_refl) Hname0) as Herr.
      unfold error_free in Herr. rewrite Herr. cbn [andb].
      apply IH. intros r' Hr'. apply Hbefore. now right.
    + cbn [andb]. apply IH. intros r' Hr'. apply Hbefore. now right.
Qed.

Lemma named_once (rs : list ModelResponse) (r r' : ModelResponse) :
  NoDup (map model_name rs) -> In r rs -> In r' rs ->
  model_name r' = model_name r -> r' = r.
Proof.
  induction rs as [|r0 rs IH]; intros Hnodup Hr Hr' Hname; [contradiction |].
  cbn [map] in Hnodup. apply NoDup_cons_iff in Hnodup as [Hfresh Hnodup].
  destruct Hr as [-> | Hr], Hr' as [-> | Hr'].
  - reflexivity.
  - elim Hfresh. rewrite <- Hname. now apply in_map.
  - elim Hfresh. rewrite Hname. now apply in_map.
  - now apply IH.
Qed.


(** C10.  With a model list that is not empty and no round to run,
    [battle] raises the [IndexError] of [rounds[-1]] instead of returning
    a result; [battle] returns a result exactly when there is at least one
    round or the model list is empty. *)
Theorem battle_without_rounds_raises (question : string) (ms : list ModelType)
        (log : list Call) :
  (ms <> [] ->
   fst (battle question ms 0 log) = Raise "list index out of range")
  /\ (forall num_rounds,
         (exists res, fst (battle question ms num_rounds log) = Ok res)
         <-> ((1 <= num_rounds)%Z \/ ms = [])).
Proof.
  assert (Hraise : forall num_rounds,
             ms <> [] -> (num_rounds <= 0)%Z ->
             fst (battle question ms num_rounds log)
             = Raise "list index out of range").
  { intros num_rounds Hms Hnone. rewrite battle_eq. cbv zeta.
    replace (Z.to_nat num_rounds) with 0%nat by lia.
    cbn [ModelBattle.battle_rounds ret fst].
    destruct (winner_of_first_maximum (total_score []) value ms Hms)
      as (before & w & after & _ & Hwinner & _).
    change (fun x : ModelType => total_score [] (value x))
      with (fun m : ModelType => total_score [] (value m)) in Hwinner.
    rewrite Hwinner.
    destruct (String.eqb_spec (value w) no_winner) as [Hno | _];
      [now apply value_not_no_winner in Hno | reflexivity]. }
  split; [intros Hms; apply Hraise; [assumption | lia] |].
  intros num_rounds. split.
  - intros (res & Hres).
    destruct ms as [|m ms]; [now right |]. left.
    destruct (Z_lt_le_dec 0 num_rounds) as [Hpos | Hnone]; [lia |].
    rewrite Hraise in Hres by (discriminate || assumption).
    discriminate Hres.
  - intros [Hrounds | ->].
    + destruct ms as [|m ms].
      * rewrite battle_eq. cbv zeta. cbn. eauto.
      * destruct (battle_with_rounds question (m :: ms) num_rounds log
                    Hrounds) as (_ & _ & res & _ & Hres & _).
        eauto.
    + rewrite battle_eq. cbv zeta. cbn. eauto.
Qed.

(** **** Who scores whom *)

Lemma dict_set_fresh {V : Type} (d : dict V) (k : string) (v : V) :
  ~ In k (map fst d) -> dict_set d k v = (d ++ [(k, v)])%list.
Proof.
  induction d as [|[k' v'] d IH]; intros Hfresh; [reflexivity |].
  cbn [dict_set]. destruct (String.eqb_spec k' k) as [-> | Hne].
  - elim Hfresh. now left.
  - cbn [app]. f_equal. apply IH. intros H. apply Hfresh. now right.
Qed.

(** The number of scoring calls of the inner loop: one per scorer, less
    the one skipped at the subject's own index. *)
Lemma score_by_models_calls (question : string) (subject : ModelResponse)
      (i j : nat) (scorers : list ModelType) (acc : dict ScoreResult)
      (log : list Call) :
  List.length (snd (score_by_models question subject i j scorers acc log))
  = (List.length log + List.length scorers
     - (if (j <=? i)%nat && (i <? j + List.length scorers)%nat then 1 else 0))%nat.
Proof.
  revert j acc log. induction scorers as [|scorer rest IH]; intros j acc log.
  - rewrite score_by_models_nil. cbn [snd List.length].
    destruct (j <=? i)%nat eqn:H1, (i <? j + 0)%nat eqn:H2; cbn [andb];
      try lia.
    apply Nat.leb_le in H1. apply Nat.ltb_lt in H2. lia.
  - destruct (Nat.eq_dec i j) as [-> | Hij].
    + rewrite score_by_models_self, IH. cbn [List.length].
      replace (j <=? j)%nat with true by (symmetry; apply Nat.leb_le; lia).
      replace (j <? j + S (List.length rest))%nat with true
        by (symmetry; apply Nat.ltb_lt; lia).
      replace (S j <=? j)%nat with false by (symmetry; apply Nat.leb_gt; lia).
      cbn [andb]. lia.
    + rewrite score_by_models_other, IH by assumption.
      rewrite length_app. cbn [List.length].
      destruct (j <=? i)%nat eqn:H1, (i <? j + S (List.length rest))%nat eqn:H2,
               (S j <=? i)%nat eqn:H3, (i <? S j + List.length rest)%nat eqn:H4;
        cbn [andb];
        repeat match goal with
               | H : (_ <=? _)%nat = true |- _ => apply Nat.leb_le in H
               | H : (_ <=? _)%nat = false |- _ => apply Nat.leb_gt in H
               | H : (_ <? _)%nat = true |- _ => apply Nat.ltb_lt in H
               | H : (_ <? _)%nat = false |- _ => apply Nat.ltb_ge in H
               end; lia.
Qed.

(** Past the subject's own index every scorer scores: the loop appends
    one entry per scorer, in order, when the names are new. *)
Lemma score_by_models_all (question : string) (subject : ModelResponse)
      (i j : nat) (scorers : list ModelType) (acc : dict ScoreResult)
      (log : list Call) :
  (i < j)%nat ->
  NoDup (map fst acc ++ map value scorers) ->
  exists entries,
    fst (score_by_models question subject i j scorers acc log)
    = (acc ++ entries)%list
    /\ map fst entries = map value scorers.
Proof.
  revert j acc log. induction scorers as [|scorer rest IH];
    intros j acc log Hij Hnodup.
  - exists []. rewrite score_by_models_nil, app_nil_r. auto.
  - rewrite score_by_models_other by lia.
    rewrite dict_set_fresh.
    2:{ apply NoDup_remove_2 in Hnodup. intros H. apply Hnodup.
        apply in_or_app. now left. }
    destruct (IH (S j)
                 (acc ++ [(value scorer,
                           fst (score_response question subject scorer log))])%list
                 (log ++ [(value scorer,
                           generate_scoring_prompt question subject)])%list)
      as (entries & Hdict & Hkeys); [lia | |].
    { rewrite map_app, <- app_assoc. exact Hnodup. }
    exists ((value scorer, fst (score_response question subject scorer log))
              :: entries).
    rewrite Hdict, <- app_assoc. cbn [app map fst]. now rewrite Hkeys.
Qed.

(** At the subject's own index the scorer is skipped: the entries are
    those of the scorers before and after it. *)
Lemma score_by_models_others (question : string) (subject : ModelResponse)
      (j : nat) (before : list ModelType) (own : ModelType)
      (after : list ModelType) (acc : dict ScoreResult) (log : list Call) :
  NoDup (map fst acc ++ map value (before ++ after)) ->
  exists entries,
    fst (score_by_models question subject (j + List.length before) j
                         (before ++ own :: after) acc log)
    = (acc ++ entries)%list
    /\ map fst entries = map value (before ++ after).
Proof.
  revert j acc log. induction before as [|scorer rest IH];
    intros j acc log Hnodup.
  - cbn [app List.length]. rewrite Nat.add_0_r, score_by_models_self.
    apply score_by_models_all; [lia | exact Hnodup].
  - cbn [app List.length].
    rewrite score_by_models_other by lia.
    rewrite dict_set_fresh.
    2:{ cbn [app map] in Hnodup. apply NoDup_remove_2 in Hnodup.
        intros H. apply Hnodup. apply in_or_app. now left. }
    replace (j + S (List.length rest))%nat with (S j + List.length rest)%nat
      by lia.
    destruct (IH (S j)
                 (acc ++ [(value scorer,
                           fst (score_response question subject scorer log))])%list
                 (log ++ [(value scorer,
                           generate_scoring_prompt question subject)])%list)
      as (entries & Hdict & Hkeys).
    { rewrite map_app, <- app_assoc. exact Hnodup. }
    exists ((value scorer, fst (score_response question subject scorer log))
              :: entries).
    rewrite Hdict, <- app_assoc. cbn [app map fst]. now rewrite Hkeys.
Qed.

(** The outer loop leaves each response in its place; a response with an
    error gets no score, a response without one gets what the inner loop
    makes at its index. *)
Lemma score_responses_at (question : string) (ms : list ModelType) (i : nat)
      (rs1 : list ModelResponse) (a : ModelResponse)
      (rs2 : list ModelResponse) (log : list Call) :
  exists rs1' sc rs2',
    fst (score_responses question ms i (rs1 ++ a :: rs2) log)
    = (rs1' ++ with_scores a sc :: rs2')%list
    /\ List.length rs1' = List.length rs1
    /\ (error_free a = false -> sc = [])
    /\ (error_free a = true ->
        exists log0,
          sc = fst (score_by_models question a (i + List.length rs1) 0 ms []
                                    log0)).
Proof.
  revert i log. induction rs1 as [|r rs1 IH]; intros i log.
  - cbn [app List.length]. rewrite score_responses_cons, Nat.add_0_r.
    destruct (error_free a); cbv zeta; cbn [fst].
    + exists [], (fst (score_by_models question a i 0 ms [] log)).
      eexists. split; [reflexivity |]. split; [reflexivity |].
      split; [discriminate | eauto].
    + exists [], []. eexists. split; [reflexivity |]. split; [reflexivity |].
      split; [reflexivity | discriminate].
  - cbn [app List.length]. rewrite score_responses_cons.
    destruct (error_free r); cbv zeta; cbn [fst].
    + destruct (IH (S i) (snd (score_by_models question r i 0 ms [] log)))
        as (rs1' & sc & rs2' & Heq & Hlen & Herr & Hok).
      rewrite Heq. eexists (_ :: rs1'), sc, rs2'.
      split; [reflexivity |]. cbn [List.length]. split; [now rewrite Hlen |].
      split; [assumption |].
      replace (i + S (List.length rs1))%nat with (S i + List.length rs1)%nat
        by lia. assumption.
    + destruct (IH (S i) log) as (rs1' & sc & rs2' & Heq & Hlen & Herr & Hok).
      rewrite Heq. eexists (_ :: rs1'), sc, rs2'.
      split; [reflexivity |]. cbn [List.length]. split; [now rewrite Hlen |].
      split; [assumption |].
      replace (i + S (List.length rs1))%nat with (S i + List.length rs1)%nat
        by lia. assumption.
Qed.

(** The answers of the answer phase, split where the models are split. *)
Lemma gather_answers_app (question : string) (before : list ModelType)
      (after : list ModelType) (log : list Call) :
  fst (gather_answers question (before ++ after) log)
  = (fst (gather_answers question before log)
       ++ fst (gather_answers question after
                              (log ++ answer_calls question before)))%list.
Proof.
  revert log. induction before as [|m before IH]; intros log.
  - cbn. now rewrite app_nil_r.
  - cbn [app]. rewrite !gather_answers_cons. cbn [fst app]. rewrite IH.
    cbn [answer_calls map]. now rewrite <- app_assoc.
Qed.

Lemma gather_answers_length (question : string) (ms : list ModelType)
      (log : list Call) :
  List.length (fst (gather_answers question ms log)) = List.length ms.
Proof.
  rewrite <- (length_map model_name), gather_answers_names.
  apply length_map.
Qed.

(** The responses of a round stand in the order of the models: the
    response of the model at a given place carries its name and, when the
    round went through scoring, either no score (it has an error) or what
    the inner loop made at its index. *)
Lemma battle_round_at (round_number : Z) (question : string)
      (before : list ModelType) (m : ModelType) (after : list ModelType)
      (log : list Call) :
  let r := fst (battle_round round_number question (before ++ m :: after) log) in
  exists rs1 a rs2,
    responses r = (rs1 ++ a :: rs2)%list
    /\ List.length rs1 = List.length before
    /\ model_name a = value m
    /\ ((List.length (filter error_free (responses r)) < 2)%nat ->
        scores a = [])
    /\ ((2 <= List.length (filter error_free (responses r)))%nat ->
        (error_free a = false -> scores a = [])
        /\ (error_free a = true ->
            exists subject log0,
              scores a
              = fst (score_by_models question subject (List.length before) 0
                                     (before ++ m :: after) [] log0))).
Proof.
  intros r. subst r. rewrite battle_round_eq. cbv zeta.
  rewrite gather_answers_app, gather_answers_cons. cbn [fst].
  set (rs1 := fst (gather_answers question before log)).
  set (a0 := fst (call_model m question (log ++ answer_calls question before)%list)).
  set (rs2 := fst (gather_answers question after _)).
  assert (Hlen1 : List.length rs1 = List.length before)
    by apply gather_answers_length.
  assert (Hname : model_name a0 = value m) by apply call_model_name.
  assert (Hscores : scores a0 = []).
  { unfold a0, ModelBattle.call_model, call_dashscope_model. cbn [fst].
    destruct (Generation_call _ _ _) as [e | st txt msg tok];
      [| destruct (st =? 200)%Z]; reflexivity. }
  destruct (List.length (filter error_free (rs1 ++ a0 :: rs2)) <? 2)%nat eqn:Hfew;
    cbn [fst responses].
  - exists rs1, a0, rs2. apply Nat.ltb_lt in Hfew.
    split; [reflexivity |]. split; [assumption |]. split; [assumption |].
    split; [intros _; assumption | intros Hmany; lia].
  - set (log1 := snd (gather_answers question (before ++ m :: after) log)).
    destruct (score_responses_at question (before ++ m :: after) 0 rs1 a0 rs2 log1)
      as (rs1' & sc & rs2' & Heq & Hlen & Herr & Hok).
    rewrite Heq. exists rs1', (with_scores a0 sc), rs2'.
    split; [reflexivity |]. split; [lia |]. split; [exact Hname |].
    assert (Hcount : List.length (filter error_free (rs1' ++ with_scores a0 sc :: rs2'))
                     = List.length (filter error_free (rs1 ++ a0 :: rs2))).
    { rewrite <- Heq. apply scored_error_free_count, score_responses_fields. }
    apply Nat.ltb_ge in Hfew. split.
    + intros Hlt. lia.
    + intros _. split.
      * intros Ha. cbn [scores with_scores]. now apply Herr.
      * intros Ha. destruct (Hok Ha) as (log0 & ->).
        exists a0, log0. cbn [scores with_scores Nat.add]. now rewrite Hlen1.
Qed.

Lemma dict_get_absent {V : Type} (d : dict V) (k : string) :
  ~ In k (map fst d) -> dict_get d k = None.
Proof.
  induction d as [|[k' v] d IH]; intros Hout; [reflexivity |].
  cbn [dict_get]. destruct (String.eqb_spec k' k) as [-> | Hne].
  - elim Hout. now left.
  - apply IH. intros H. apply Hout. now right.
Qed.

Lemma value_NoDup (ms : list ModelType) : NoDup ms -> NoDup (map value ms).
Proof.
  intros Hnodup. apply NoDup_map_NoDup_ForallPairs; [| assumption].
  intros x y _ _. apply value_inj.
Qed.

Lemma round_has_a_response_per_model (round_number : Z) (question : string)
      (ms : list ModelType) (log : list Call) :
  List.length (responses (fst (battle_round round_number question ms log)))
  = List.length ms.
Proof.
  rewrite <- (length_map model_name), battle_round_names. apply length_map.
Qed.

Lemma scores_come_from_the_other_models_aux
      (round_number : Z) (question : string)
      (before : list ModelType) (m : ModelType) (after : list ModelType)
      (log : list Call) :
  NoDup (before ++ m :: after) ->
  let r := fst (battle_round round_number question (before ++ m :: after) log) in
  exists rs1 a rs2,
    responses r = (rs1 ++ a :: rs2)%list
    /\ List.length rs1 = List.length before
    /\ model_name a = value m
    /\ ((List.length (filter error_free (responses r)) < 2)%nat ->
        scores a = [])
    /\ ((2 <= List.length (filter error_free (responses r)))%nat ->
        map fst (scores a)
        = if error_free a then map value (before ++ after) else []).
Proof.
  intros Hnodup r. subst r.
  destruct (battle_round_at round_number question before m after log)
    as (rs1 & a & rs2 & Hsplit & Hlen & Hname & Hfew & Hmany).
  exists rs1, a, rs2.
  split; [assumption |]. split; [assumption |]. split; [assumption |].
  split; [assumption |].
  intros H2. destruct (Hmany H2) as (Herr & Hok).
  assert (Hnd : NoDup (map value (before ++ after))).
  { apply value_NoDup in Hnodup. rewrite map_app in Hnodup. cbn [map] in Hnodup.
    rewrite map_app. now apply NoDup_remove_1 in Hnodup. }
  destruct (error_free a) eqn:Ha.
  - destruct (Hok eq_refl) as (subject & log0 & ->).
    destruct (score_by_models_others question subject 0 before m after []
                                     log0 Hnd)
      as (entries & Hdict & Hentries).
    cbn [Nat.add app] in Hdict. rewrite Hdict. exact Hentries.
  - now rewrite Herr.
Qed.

(** X1.  In a round over distinct models, the response of each model stands
    at the model's place and never holds a score under the model's own
    name.  When at least two answers are free of error, an answer without
    error holds exactly one score from each of the other models, in the
    order of the list, and an answer with an error holds none; when fewer
    than two are, no answer holds a score. *)
Theorem scores_come_from_the_other_models
        (round_number : Z) (question : string)
        (before : list ModelType) (m : ModelType) (after : list ModelType)
        (log : list Call) :
  NoDup (before ++ m :: after) ->
  let r := fst (battle_round round_number question (before ++ m :: after) log) in
  let valid := List.length (filter error_free (responses r)) in
  exists rs1 a rs2,
    responses r = (rs1 ++ a :: rs2)%list
    /\ List.length rs1 = List.length before
    /\ model_name a = value m
    /\ dict_get (scores a) (value m) = None
    /\ ((valid < 2)%nat -> scores a = [])
    /\ ((2 <= valid)%nat ->
        map fst (scores a)
        = if error_free a then map value (before ++ after) else []).
Proof.
  intros Hnodup r valid. subst r valid.
  assert (Hself : ~ In (value m) (map value (before ++ after))).
  { apply value_NoDup in Hnodup. rewrite map_app in Hnodup. cbn [map] in Hnodup.
    rewrite map_app. now apply NoDup_remove_2 in Hnodup. }
  destruct (scores_come_from_the_other_models_aux round_number question before
              m after log Hnodup)
    as (rs1 & a & rs2 & Hsplit & Hlen & Hname & Hfew & Hkeys).
  exists rs1, a, rs2.
  split; [assumption |]. split; [assumption |]. split; [assumption |].
  split; [| split; assumption].
  apply dict_get_absent.
  destruct (Nat.lt_ge_cases
              (List.length
                 (filter error_free
                         (responses
                            (fst (battle_round round_number question
                                               (before ++ m :: after) log)))))
              2) as [Hlt | Hge].
  - now rewrite (Hfew Hlt).
  - rewrite (Hkeys Hge). destruct (error_free a); [assumption | intros []].
Qed.

(** X2.  In a round over [n] distinct models in which at least two answers are
    free of error, the round score of a model whose answer has no error is
    the sum of the [n - 1] scores that its answer holds, divided by
    [n - 1]; the round score of a model whose answer has an error is 0. *)
Theorem round_score_is_the_mean_over_the_others
        (round_number : Z) (question : string)
        (before : list ModelType) (m : ModelType) (after : list ModelType)
        (log : list Call) :
  NoDup (before ++ m :: after) ->
  let r := fst (battle_round round_number question (before ++ m :: after) log) in
  (2 <= List.length (filter error_free (responses r)))%nat ->
  exists rs1 a rs2,
    responses r = (rs1 ++ a :: rs2)%list
    /\ List.length rs1 = List.length before
    /\ model_name a = value m
    /\ (error_free a = true ->
        List.length (scores a) = (List.length before + List.length after)%nat
        /\ dict_get (round_scores r) (value m)
           = Some (py_sum (map score (dict_values (scores a)))
                   / inject_Z (Z.of_nat (List.length before
                                         + List.length after)))%Q)
    /\ (error_free a = false ->
        dict_get (round_scores r) (value m) = Some 0%Q).
Proof.
  intros Hnodup r Hvalid.
  destruct (scores_come_from_the_other_models_aux round_number question before
              m after log Hnodup)
    as (rs1 & a & rs2 & Hsplit & Hlen & Hname & _ & Hkeys).
  fold r in Hsplit, Hkeys. specialize (Hkeys Hvalid).
  exists rs1, a, rs2.
  split; [assumption |]. split; [assumption |]. split; [assumption |].
  assert (Hscore : dict_get (round_scores r) (value m) = Some (mean_score a)).
  { assert (Hround : round_scores r = dict_fill model_name mean_score (responses r) []).
    { subst r. rewrite battle_round_eq. cbv zeta.
      destruct (_ <? 2)%nat eqn:Hfew; cbn [fst round_scores responses];
        [| reflexivity].
      exfalso. rewrite battle_round_eq in Hvalid. cbv zeta in Hvalid.
      rewrite Hfew in Hvalid. cbn [fst responses] in Hvalid.
      apply Nat.ltb_lt in Hfew. lia. }
    rewrite Hround, <- Hname.
    assert (Hnames : NoDup (map model_name (responses r))).
    { subst r. rewrite battle_round_names. now apply value_NoDup. }
    rewrite Hsplit in *.
    assert (Hin : In a (rs1 ++ a :: rs2)%list)
      by (apply in_or_app; right; now left).
    destruct (dict_fill_get_some model_name mean_score (rs1 ++ a :: rs2)%list []
                                 (model_name a)) as (v & Hv);
      [now apply in_map |].
    rewrite Hv. f_equal.
    apply dict_fill_get_inv in Hv as [Hv | (a' & Ha' & Hname' & ->)];
      [discriminate |].
    f_equal. clear - Hnames Ha' Hname'.
    induction rs1 as [|x rs1 IH]; cbn [app map] in *.
    - destruct Ha' as [<- | Ha']; [reflexivity |].
      apply NoDup_cons_iff in Hnames as [Hfresh _].
      elim Hfresh. rewrite <- Hname'. now apply in_map.
    - apply NoDup_cons_iff in Hnames as [Hfresh Hnames].
      destruct Ha' as [<- | Ha']; [| now apply IH].
      elim Hfresh. rewrite Hname'. rewrite map_app. apply in_or_app.
      right. now left. }
  assert (Hn : (2 <= List.length before + 1 + List.length after)%nat).
  { pose proof (round_has_a_response_per_model round_number question
                  (before ++ m :: after) log) as Hresp.
    fold r in Hresp. rewrite length_app in Hresp. cbn [List.length] in Hresp.
    pose proof (filter_length_le error_free (responses r)). lia. }
  split.
  - intros Ha. rewrite Ha in Hkeys.
    assert (Hcount : List.length (scores a)
                     = (List.length before + List.length after)%nat).
    { rewrite <- (length_map fst), Hkeys, length_map, length_app. reflexivity. }
    split; [assumption |].
    rewrite Hscore. f_equal. unfold mean_score.
    unfold error_free in Ha. rewrite Ha. cbn [andb].
    replace (Nat.eqb (List.length (scores a)) 0) with false
      by (symmetry; apply Nat.eqb_neq; lia).
    cbn [negb].
    rewrite <- Hcount, <- (length_map snd (scores a)),
      <- (length_map score (map snd (scores a))).
    unfold dict_values.
    destruct (scores a) as [|entry rest]; [cbn in Hcount; lia | reflexivity].
  - intros Ha. rewrite Hscore. f_equal. now apply mean_score_error.
Qed.

(** **** How many calls a round costs *)

Lemma score_responses_calls (question : string) (ms : list ModelType) (i : nat)
      (rs : list ModelResponse) (log : list Call) :
  (i + List.length rs <= List.length ms)%nat ->
  List.length (snd (score_responses question ms i rs log))
  = (List.length log
     + List.length (filter error_free rs) * (List.length ms - 1))%nat.
Proof.
  revert i log. induction rs as [|r rs IH]; intros i log Hbound.
  - rewrite score_responses_nil. cbn. lia.
  - cbn [List.length] in Hbound. rewrite score_responses_cons. cbn [filter].
    destruct (error_free r); cbv zeta; cbn [snd List.length].
    + rewrite IH by lia. rewrite score_by_models_calls.
      replace (0 <=? i)%nat with true by (symmetry; apply Nat.leb_le; lia).
      replace (i <? 0 + List.length ms)%nat with true
        by (symmetry; apply Nat.ltb_lt; lia).
      cbn [andb]. lia.
    + apply IH. lia.
Qed.

Lemma battle_round_calls (round_number : Z) (question : string)
      (ms : list ModelType) (log : list Call) :
  let answers := fst (gather_answers question ms log) in
  let v := List.length (filter error_free answers) in
  List.length (snd (battle_round round_number question ms log))
  = (List.length log + List.length ms
     + (if (v <? 2)%nat then 0 else v * (List.length ms - 1)))%nat.
Proof.
  cbv zeta. rewrite battle_round_eq. cbv zeta.
  pose proof (gather_answers_length question ms log) as Hlen.
  pose proof (gather_answers_log question ms log) as Hlog.
  destruct (List.length (filter error_free (fst (gather_answers question ms log)))
            <? 2)%nat eqn:Hfew; cbn [fst snd responses].
  - rewrite Hlog, length_app. unfold answer_calls. rewrite length_map. lia.
  - rewrite score_responses_calls by lia.
    rewrite Hlog, length_app. unfold answer_calls. rewrite length_map. lia.
Qed.

(** Scoring neither repairs nor spoils an answer: a round has as many
    responses free of error as the answer phase gave. *)
Lemma battle_round_error_free_count (round_number : Z) (question : string)
      (ms : list ModelType) (log : list Call) :
  List.length
    (filter error_free
            (responses (fst (battle_round round_number question ms log))))
  = List.length (filter error_free (fst (gather_answers question ms log))).
Proof.
  rewrite battle_round_eq. cbv zeta.
  destruct (_ <? 2)%nat; cbn [fst responses]; [reflexivity |].
  apply scored_error_free_count, score_responses_fields.
Qed.

(** X3.  A round over [n] models issues [n] answer calls; when [v] answers,
    at least two, are free of error it issues [v * (n - 1)] scoring calls
    more, and none otherwise. *)
Theorem round_call_count (round_number : Z) (question : string)
        (ms : list ModelType) (log : list Call) :
  let r := fst (battle_round round_number question ms log) in
  let log' := snd (battle_round round_number question ms log) in
  let v := List.length (filter error_free (responses r)) in
  List.length log'
  = (List.length log + List.length ms
     + (if (v <? 2)%nat then 0 else v * (List.length ms - 1)))%nat.
Proof.
  cbv zeta. rewrite battle_round_error_free_count.
  pose proof (battle_round_calls round_number question ms log) as Hcalls.
  cbv zeta in Hcalls. exact Hcalls.
Qed.

(** X4.  The round scores have one entry per model name and no other: the
    default of the lookup that [battle] makes in them is never used. *)
Theorem round_scores_cover_the_models (round_number : Z) (question : string)
        (ms : list ModelType) (log : list Call) (k : string) :
  let r := fst (battle_round round_number question ms log) in
  (exists v, dict_get (round_scores r) k = Some v) <-> In k (map value ms).
Proof.
  cbv zeta.
  assert (Hfill : exists f,
             round_scores (fst (battle_round round_number question ms log))
             = dict_fill model_name f
                         (responses (fst (battle_round round_number question
                                                       ms log))) []).
  { rewrite battle_round_eq. cbv zeta.
    destruct (_ <? 2)%nat; cbn [fst round_scores responses]; eauto. }
  destruct Hfill as (f & ->).
  rewrite <- (battle_round_names round_number question ms log).
  split.
  - intros (v & Hv).
    apply dict_fill_get_inv in Hv as [Hv | (a & Ha & <- & _)];
      [discriminate | now apply in_map].
  - apply dict_fill_get_some.
Qed.

(** **** The rounds of a battle *)

Lemma battle_rounds_numbers (k : nat) (round_num : Z) (question : string)
      (ms : list ModelType) (log : list Call) :
  map round_number (fst (battle_rounds k round_num question ms log))
  = map (fun i => (round_num + Z.of_nat i)%Z) (seq 1 k).
Proof.
  revert round_num log. induction k as [|k IH]; intros round_num log.
  - reflexivity.
  - cbn [ModelBattle.battle_rounds]. repeat (rewrite bind_eq; cbv beta).
    unfold ret; cbn [fst map seq]. rewrite IH. f_equal.
    + rewrite battle_round_eq. cbv zeta.
      destruct (_ <? 2)%nat; cbn [fst round_number]; lia.
    + rewrite <- (seq_shift k 1), map_map. apply map_ext. intros i. lia.
Qed.

(** X5.  A battle of [n] rounds, [n] at least 1, returns a result with exactly
    [n] rounds, numbered 1 to [n] in order, each with one response per
    model. *)
Theorem battle_runs_the_rounds_in_order (question : string)
        (ms : list ModelType) (num_rounds : Z) (log : list Call) :
  (1 <= num_rounds)%Z ->
  exists res,
    fst (battle question ms num_rounds log) = Ok res
    /\ map round_number (rounds res)
       = map Z.of_nat (seq 1 (Z.to_nat num_rounds))
    /\ Forall (fun r => map model_name (responses r) = map value ms)
              (rounds res).
Proof.
  intros Hrounds.
  destruct (battle_with_rounds question ms num_rounds log Hrounds)
    as (earlier & last & res & Hall & Hres & Hrs & _).
  exists res. split; [assumption |]. rewrite Hrs, <- Hall. split.
  - rewrite battle_rounds_numbers. apply map_ext. intros i. lia.
  - apply battle_rounds_names.
Qed.

(** **** Battles at the edges *)

Lemma battle_rounds_forall (P : BattleRound -> Prop) (question : string)
      (ms : list ModelType) :
  (forall round_number log,
      P (fst (battle_round round_number question ms log))) ->
  forall k round_num log,
    Forall P (fst (battle_rounds k round_num question ms log)).
Proof.
  intros HP. induction k as [|k IH]; intros round_num log.
  - constructor.
  - cbn [ModelBattle.battle_rounds]. repeat (rewrite bind_eq; cbv beta).
    unfold ret; cbn [fst]. constructor; [apply HP | apply IH].
Qed.

Lemma py_sum_zeros (xs : list Q) :
  Forall (fun x => x = 0%Q) xs -> py_sum xs = 0%Q.
Proof.
  unfold py_sum. induction 1 as [|x xs -> _ IH]; [reflexivity |].
  cbn [fold_left]. exact IH.
Qed.

(** X6.  With no model, [battle] calls the Gateway not once, whatever the
    number of rounds: it returns a result without scores, whose winner is
    the fixed text for no winner and whose final answer is empty. *)
Theorem battle_without_models (question : string) (num_rounds : Z)
        (log : list Call) :
  exists res,
    battle question [] num_rounds log = (Ok res, log)
    /\ final_scores res = []
    /\ final_winner res = no_winner
    /\ final_answer res = ""
    /\ List.length (rounds res) = Z.to_nat num_rounds
    /\ Forall (fun r => responses r = [] /\ round_scores r = []) (rounds res).
Proof.
  assert (Hlog : forall k round_num,
             snd (battle_rounds k round_num question [] log) = log).
  { induction k as [|k IH]; intros round_num; [reflexivity |].
    rewrite battle_rounds_snoc_log. apply IH. }
  eexists. split.
  - rewrite (surjective_pairing (battle question [] num_rounds log)).
    rewrite battle_log, Hlog, battle_eq. cbv zeta. cbn. reflexivity.
  - cbn [final_scores final_winner final_answer rounds].
    repeat split.
    + apply battle_rounds_length.
    + apply battle_rounds_forall. intros round_number log0. split; reflexivity.
Qed.

(** What a round is when fewer than two of its answers are free of
    error. *)
Lemma battle_round_few (round_number : Z) (question : string)
      (ms : list ModelType) (log : list Call) :
  (List.length (filter error_free (fst (gather_answers question ms log))) < 2)%nat ->
  battle_round round_number question ms log
  = ({| round_number := round_number;
        responses := fst (gather_answers question ms log);
        round_scores :=
          dict_fill model_name (fun _ => 0%Q)
                    (fst (gather_answers question ms log)) [] |},
     (log ++ answer_calls question ms)%list).
Proof.
  intros Hfew. rewrite battle_round_eq. cbv zeta.
  apply Nat.ltb_lt in Hfew. rewrite Hfew. now rewrite gather_answers_log.
Qed.

(** A response made by a Gateway call has an answer or an error, never
    both. *)
Lemma call_model_answer_or_error (m : ModelType) (prompt : string)
      (log : list Call) :
  error_free (fst (call_model m prompt log)) = false ->
  response (fst (call_model m prompt log)) = "".
Proof.
  unfold ModelBattle.call_model, call_dashscope_model, error_free. cbn [fst].
  destruct (Generation_call _ _ _) as [e | st txt msg tok];
    [| destruct (st =? 200)%Z]; cbn; congruence.
Qed.

Lemma single_model_battle (question : string) (m : ModelType)
      (num_rounds : Z) (log : list Call) :
  (1 <= num_rounds)%Z ->
  exists res earlier last a,
    battle question [m] num_rounds log
    = (Ok res, (log ++ repeat (value m, question) (Z.to_nat num_rounds))%list)
    /\ final_scores res = [(value m, 0%Q)]
    /\ final_winner res = value m
    /\ rounds res = (earlier ++ [last])%list
    /\ List.length (rounds res) = Z.to_nat num_rounds
    /\ responses last = [a]
    /\ final_answer res = response a.
Proof.
  intros Hrounds.
  assert (Hfew : forall log0,
             (List.length (filter error_free
                                  (fst (gather_answers question [m] log0))) < 2)%nat).
  { intros log0. rewrite gather_answers_cons. cbn [fst filter].
    destruct (error_free _); cbn; lia. }
  assert (Hlog : forall k round_num log0,
             snd (battle_rounds k round_num question [m] log0)
             = (log0 ++ repeat (value m, question) k)%list).
  { induction k as [|k IH]; intros round_num log0.
    - cbn. now rewrite app_nil_r.
    - rewrite battle_rounds_snoc_log, battle_round_few by apply Hfew.
      cbn [snd]. rewrite IH. cbn [answer_calls map repeat].
      now rewrite <- app_assoc. }
  assert (Hshape : forall k round_num log0,
             Forall (fun r => exists a,
                         responses r = [a]
                         /\ model_name a = value m
                         /\ (error_free a = false -> response a = "")
                         /\ round_scores r = [(value m, 0%Q)])
                    (fst (battle_rounds k round_num question [m] log0))).
  { apply battle_rounds_forall. intros round_number log0.
    rewrite battle_round_few by apply Hfew. cbn [fst responses round_scores].
    rewrite gather_answers_cons. cbn [fst].
    exists (fst (call_model m question log0)).
    split; [reflexivity |]. split; [apply call_model_name |].
    split; [apply call_model_answer_or_error |].
    unfold dict_fill. cbn [fold_left dict_set]. now rewrite call_model_name. }
  destruct (battle_with_rounds question [m] num_rounds log Hrounds)
    as (earlier & last & res & Hall & Hres & Hrs & Hscores & Hwin & Hans).
  specialize (Hshape (Z.to_nat num_rounds) 0%Z log). rewrite Hall in Hshape.
  assert (Htotal : total_score (earlier ++ [last])%list (value m) = 0%Q).
  { unfold total_score. apply py_sum_zeros. apply Forall_map.
    eapply Forall_impl; [| exact Hshape].
    intros r (a & _ & _ & _ & ->). unfold dict_get_default. cbn.
    now rewrite String.eqb_refl. }
  assert (Hfinal : final_scores res = [(value m, 0%Q)]).
  { rewrite Hscores. unfold dict_fill. cbn [fold_left dict_set].
    now rewrite Htotal. }
  assert (Hwinner : final_winner res = value m)
    by (rewrite Hwin, Hfinal; reflexivity).
  apply Forall_app in Hshape as [_ Hlast]. apply Forall_inv in Hlast.
  destruct Hlast as (a & Ha & Hname & Hempty & _).
  exists res, earlier, last, a.
  split.
  - rewrite (surjective_pairing (battle question [m] num_rounds log)).
    now rewrite Hres, battle_log, Hlog.
  - split; [assumption |]. split; [assumption |]. split; [assumption |].
    split; [rewrite Hrs, <- Hall; apply battle_rounds_length |].
    split; [assumption |].
    rewrite Hans, Hwinner.
    destruct (String.eqb_spec (value m) no_winner) as [Hno | _];
      [now apply value_not_no_winner in Hno |].
    rewrite Ha. cbn [find_answer]. rewrite Hname, String.eqb_refl. cbn [andb].
    fold (error_free a). destruct (error_free a) eqn:Herr; [reflexivity |].
    symmetry. now apply Hempty.
Qed.

(** X7.  A battle of one model over [n] rounds, [n] at least 1, asks the model
    the question [n] times and issues no scoring call; the model's total
    is 0, it is the winner, and the final answer is the text of its
    answer of the last round (the empty text when that answer has an
    error). *)
Theorem battle_of_one_model (question : string) (m : ModelType)
        (num_rounds : Z) (log : list Call) :
  (1 <= num_rounds)%Z ->
  exists res earlier last a,
    battle question [m] num_rounds log
    = (Ok res, (log ++ repeat (value m, question) (Z.to_nat num_rounds))%list)
    /\ final_scores res = [(value m, 0%Q)]
    /\ final_winner res = value m
    /\ rounds res = (earlier ++ [last])%list
    /\ responses last = [a]
    /\ final_answer res = response a.
Proof.
  intros Hrounds.
  destruct (single_model_battle question m num_rounds log Hrounds)
    as (res & earlier & last & a & Hres & Hscores & Hwinner & Hrs & _ & Ha
        & Hanswer).
  exists res, earlier, last, a. auto 10.
Qed.

(** X8.  When every Gateway call fails, a battle of at least one round over a
    list of models that is not empty makes only the answer calls, one per
    model and round; every final score is 0, the first model of the list is
    the winner, and the final answer is empty. *)
Theorem battle_when_every_call_fails (question : string) (m : ModelType)
        (others : list ModelType) (num_rounds : Z) (log : list Call) :
  (forall calls_before model prompt,
      failed (Generation_call calls_before model prompt) = true) ->
  (1 <= num_rounds)%Z ->
  exists res,
    fst (battle question (m :: others) num_rounds log) = Ok res
    /\ (forall x, In x (m :: others) ->
                  dict_get (final_scores res) (value x) = Some 0%Q)
    /\ final_winner res = value m
    /\ final_answer res = ""
    /\ List.length (snd (battle question (m :: others) num_rounds log))
       = (List.length log
          + Z.to_nat num_rounds * List.length (m :: others))%nat.
Proof.
  intros Hfail Hrounds.
  set (ms := m :: others).
  assert (Herrors : forall log0,
             Forall (fun a => error_free a = false)
                    (fst (gather_answers question ms log0))).
  { generalize ms. intros l. induction l as [|x l IH]; intros log0.
    - constructor.
    - rewrite gather_answers_cons. cbn [fst]. constructor; [| apply IH].
      now rewrite call_model_error_free, Hfail. }
  assert (Hfew : forall log0,
             (List.length (filter error_free
                                  (fst (gather_answers question ms log0))) < 2)%nat).
  { intros log0. specialize (Herrors log0).
    induction Herrors as [|a l Ha _ IH]; cbn [filter List.length]; [lia |].
    now rewrite Ha. }
  assert (Hlog : forall k round_num log0,
             List.length (snd (battle_rounds k round_num question ms log0))
             = (List.length log0 + k * List.length ms)%nat).
  { induction k as [|k IH]; intros round_num log0.
    - cbn. lia.
    - rewrite battle_rounds_snoc_log, battle_round_few by apply Hfew.
      cbn [snd]. rewrite IH, length_app. unfold answer_calls.
      rewrite length_map. lia. }
  assert (Hshape : forall k round_num log0,
             Forall (fun r =>
                       Forall (fun a => error_free a = false) (responses r)
                       /\ forall key, dict_get_default (round_scores r) key 0%Q
                                      = 0%Q)
                    (fst (battle_rounds k round_num question ms log0))).
  { apply battle_rounds_forall. intros round_number log0.
    rewrite battle_round_few by apply Hfew. cbn [fst responses round_scores].
    split; [apply Herrors |].
    intros key. unfold dict_get_default.
    destruct (dict_get _ key) as [v |] eqn:Hget; [| reflexivity].
    apply dict_fill_get_inv in Hget as [Hget | (a & _ & _ & ->)];
      [discriminate | reflexivity]. }
  destruct (battle_with_rounds question ms num_rounds log Hrounds)
    as (earlier & last & res & Hall & Hres & Hrs & Hscores & Hwin & Hans).
  specialize (Hshape (Z.to_nat num_rounds) 0%Z log). rewrite Hall in Hshape.
  assert (Htotal : forall key,
             total_score (earlier ++ [last])%list key = 0%Q).
  { intros key. unfold total_score. apply py_sum_zeros. apply Forall_map.
    eapply Forall_impl; [| exact Hshape]. intros r (_ & Hzero). apply Hzero. }
  assert (Hwinner : final_winner res = value m).
  { destruct (winner_of_first_maximum
                (total_score (earlier ++ [last])%list) value ms)
      as (before & w & after & Hsplit & Hw & Hbefore & _); [discriminate |].
    change (fun x : ModelType => total_score (earlier ++ [last])%list (value x))
      with (fun model_type : ModelType =>
              total_score (earlier ++ [last])%list (value model_type)) in Hw.
    rewrite Hwin, Hscores, Hw.
    destruct before as [|b before].
    - unfold ms in Hsplit. now injection Hsplit as ->.
    - exfalso. specialize (Hbefore b (or_introl eq_refl)).
      rewrite !Htotal in Hbefore. now apply Qlt_irrefl in Hbefore. }
  exists res. split; [assumption |]. split; [| split; [assumption | split]].
  - intros x Hx. rewrite Hscores.
    rewrite <- (Htotal (value x)).
    apply (dict_fill_get_by_key value
             (fun model_type =>
                total_score (earlier ++ [last])%list (value model_type)) ms x);
      [| assumption].
    intros y _ Hy. now rewrite Hy.
  - rewrite Hans, Hwinner.
    destruct (String.eqb_spec (value m) no_winner) as [Hno | _];
      [reflexivity |].
    apply find_answer_none. intros r Hr _.
    apply Forall_app in Hshape as [_ Hlast]. apply Forall_inv in Hlast.
    destruct Hlast as (Hlast & _).
    rewrite Forall_forall in Hlast. now apply Hlast.
  - rewrite battle_log. apply Hlog.
Qed.

(** **** What a battle costs *)

Lemma filter_length_le {A : Type} (f : A -> bool) (l : list A) :
  (List.length (filter f l) <= List.length l)%nat.
Proof.
  induction l as [|x l IH]; cbn [filter List.length]; [lia |].
  destruct (f x); cbn [List.length]; lia.
Qed.

Lemma battle_round_calls_bounds (round_number : Z) (question : string)
      (ms : list ModelType) (log : list Call) :
  let log' := snd (battle_round round_number question ms log) in
  (List.length log + List.length ms <= List.length log'
   <= List.length log + List.length ms * List.length ms)%nat.
Proof.
  cbv zeta. rewrite battle_round_calls.
  pose proof (filter_length_le error_free
                (fst (gather_answers question ms log))) as Hle.
  rewrite gather_answers_length in Hle.
  destruct (_ <? 2)%nat eqn:Hfew.
  - split; [lia |]. destruct ms as [|m ms]; cbn [List.length]; nia.
  - apply Nat.ltb_ge in Hfew. split; [lia |].
    set (v := List.length (filter error_free _)) in *.
    set (n := List.length ms) in *.
    assert (v * (n - 1) <= n * (n - 1))%nat by (apply Nat.mul_le_mono_r; lia).
    assert (n + n * (n - 1) = n * n)%nat by (destruct n; nia).
    lia.
Qed.

Lemma battle_rounds_calls_bounds (k : nat) (round_num : Z) (question : string)
      (ms : list ModelType) (log : list Call) :
  let log' := snd (battle_rounds k round_num question ms log) in
  let n := List.length ms in
  (List.length log + k * n <= List.length log'
   <= List.length log + k * (n * n))%nat.
Proof.
  cbv zeta. revert round_num log.
  induction k as [|k IH]; intros round_num log.
  - cbn. lia.
  - rewrite battle_rounds_snoc_log.
    pose proof (battle_round_calls_bounds (round_num + 1) question ms log)
      as Hround. cbv zeta in Hround.
    specialize (IH (round_num + 1)%Z
                   (snd (battle_round (round_num + 1) question ms log))).
    lia.
Qed.

(** X9.  Whatever the Gateway does, a battle of [r] rounds over [n] models
    issues at least [r * n] and at most [r * n * n] calls; this holds also
    when the battle raises for want of a round. *)
Theorem battle_call_bounds (question : string) (ms : list ModelType)
        (num_rounds : Z) (log : list Call) :
  let log' := snd (battle question ms num_rounds log) in
  let r := Z.to_nat num_rounds in
  let n := List.length ms in
  (List.length log + r * n <= List.length log'
   <= List.length log + r * (n * n))%nat.
Proof.
  cbv zeta. rewrite battle_log.
  pose proof (battle_rounds_calls_bounds (Z.to_nat num_rounds) 0 question ms
                                         log) as Hbounds.
  cbv zeta in Hbounds. exact Hbounds.
Qed.

Lemma gather_answers_error_free (question : string) (ms : list ModelType)
      (log : list Call) :
  (forall calls_before model prompt,
      failed (Generation_call calls_before model prompt) = false) ->
  filter error_free (fst (gather_answers question ms log))
  = fst (gather_answers question ms log).
Proof.
  intros Hfine. revert log. induction ms as [|m ms IH]; intros log.
  - reflexivity.
  - rewrite gather_answers_cons. cbn [fst filter].
    rewrite call_model_error_free, Hfine. cbn [negb]. now rewrite IH.
Qed.

(** X10.  When no Gateway call fails, a battle of [r] rounds over [n] models
    issues exactly [r * n * n] calls: in each round every model answers
    once and scores the answer of each other model once. *)
Theorem battle_call_count_when_no_call_fails (question : string)
        (ms : list ModelType) (num_rounds : Z) (log : list Call) :
  (forall calls_before model prompt,
      failed (Generation_call calls_before model prompt) = false) ->
  List.length (snd (battle question ms num_rounds log))
  = (List.length log
     + Z.to_nat num_rounds * (List.length ms * List.length ms))%nat.
Proof.
  intros Hfine. rewrite battle_log.
  generalize (Z.to_nat num_rounds) 0%Z log. clear log.
  induction n as [|k IH]; intros round_num log.
  - cbn. lia.
  - rewrite battle_rounds_snoc_log, IH, battle_round_calls.
    rewrite gather_answers_error_free by assumption.
    rewrite gather_answers_length.
    destruct (List.length ms) as [|[|n]]; cbn [Nat.ltb Nat.leb]; nia.
Qed.

(** **** The score made of a scorer's reply *)

Lemma nearest_double_small (z : Z) :
  (Z.abs z <= 2 ^ 53)%Z -> nearest_double z = z.
Proof.
  intros Hsmall. unfold nearest_double.
  destruct (Z.abs z <? 2 ^ 53)%Z eqn:Hlt; [reflexivity |].
  apply Z.ltb_ge in Hlt.
  assert (Habs : Z.abs z = (2 ^ 53)%Z) by lia.
  rewrite Habs.
  destruct (Z.abs_spec z) as [[_ Heq] | [_ Heq]].
  - rewrite Heq in Habs. subst z. vm_compute. reflexivity.
  - assert (z = (- 2 ^ 53)%Z) as -> by lia. vm_compute. reflexivity.
Qed.

(** X11.  What [score_response] makes of a reply with status 200 that decodes
    as JSON.  A value that is not an object gives the score 0 and the
    parsing-error comment.  An object without [score] gives 0.  An integer
    under [score] that [float] can take, below [2^1024 - 2^970] in
    magnitude, gives the double nearest to it as the score, whether or not
    it lies between 0 and 100: up to [2^53] that is the integer itself.
    An integer that [float] cannot take gives the score 0 and the error of
    the conversion as the comment.  A float under [score] is the score.
    Where the score is taken, the comment is the one of the object, or the
    fixed text for no comment. *)
Theorem score_of_a_decoded_reply (question : string) (subject : ModelResponse)
        (scorer : ModelType) (log : list Call)
        (text message : string) (tokens : option Z) (v : Json) :
  Generation_call (List.length log) (value scorer)
                  (generate_scoring_prompt question subject)
  = GenResponse 200 text message tokens ->
  json_loads text = Ok v ->
  let r := fst (score_response question subject scorer log) in
  ((forall d, v <> JObj d) ->
   score r = 0%Q
   /\ comment r = JStr ("评分解析错误: '" ++ type_name v
                          ++ "' object has no attribute 'get'"))
  /\ (forall d, v = JObj d ->
        (dict_get d "score" = None ->
         score r = 0%Q
         /\ comment r = dict_get_default d "comment" (JStr "无评价"))
        /\ (forall z, dict_get d "score" = Some (JInt z) ->
                      ((Z.abs z < 2 ^ 1024 - 2 ^ 970)%Z ->
                       score r = inject_Z (nearest_double z)
                       /\ comment r
                          = dict_get_default d "comment" (JStr "无评价"))
                      /\ ((Z.abs z <= 2 ^ 53)%Z -> score r = inject_Z z)
                      /\ ((2 ^ 1024 - 2 ^ 970 <= Z.abs z)%Z ->
                          score r = 0%Q
                          /\ comment r
                             = JStr "评分解析错误: int too large to convert to float"))
        /\ (forall q, dict_get d "score" = Some (JFloat q) ->
                      score r = q
                      /\ comment r
                         = dict_get_default d "comment" (JStr "无评价"))
        /\ (dict_get d "score" = Some JNull ->
            score r = 0%Q
            /\ comment r
               = JStr "评分解析错误: float() argument must be a string or a real number, not 'NoneType'")).
Proof.
  intros Hcall Hdecode r. subst r.
  unfold ModelBattle.score_response. rewrite bind_eq. unfold ret. cbn [fst].
  unfold ModelBattle.call_model, call_dashscope_model. cbn [fst].
  rewrite Hcall. cbn [Z.eqb Pos.eqb error truthy ModelBattle.response].
  unfold parse_score. rewrite Hdecode.
  split.
  - intros Hother. destruct v; try (split; reflexivity).
    now contradiction (Hother fields).
  - intros d ->. cbn [py_get]. unfold dict_get_default.
    split; [intros ->; split; reflexivity |].
    split; [| split].
    + intros z ->. cbn [py_float]. unfold float_overflows.
      assert (H53 : (2 ^ 53 < 2 ^ 1024 - 2 ^ 970)%Z) by (vm_compute; reflexivity).
      split; [| split].
      * intros Hfits.
        replace (2 ^ 1024 - 2 ^ 970 <=? Z.abs z)%Z with false
          by (symmetry; apply Z.leb_gt; lia).
        split; reflexivity.
      * intros Hsmall.
        replace (2 ^ 1024 - 2 ^ 970 <=? Z.abs z)%Z with false
          by (symmetry; apply Z.leb_gt; lia).
        cbn [score]. now rewrite nearest_double_small.
      * intros Hlarge. apply Z.leb_le in Hlarge. rewrite Hlarge.
        split; reflexivity.
    + intros q ->. split; reflexivity.
    + intros ->. split; reflexivity.
Qed.

(** **** The log only grows *)

Lemma score_by_models_extends (question : string) (subject : ModelResponse)
      (i j : nat) (scorers : list ModelType) (acc : dict ScoreResult)
      (log : list Call) :
  exists issued,
    snd (score_by_models question subject i j scorers acc log)
    = (log ++ issued)%list.
Proof.
  revert j acc log. induction scorers as [|scorer rest IH]; intros j acc log.
  - exists []. rewrite score_by_models_nil. cbn [snd]. now rewrite app_nil_r.
  - destruct (Nat.eq_dec i j) as [-> | Hij].
    + rewrite score_by_models_self. apply IH.
    + rewrite score_by_models_other by assumption.
      destruct (IH (S j)
                  (dict_set acc (value scorer)
                            (fst (score_response question subject scorer log)))
                  (log ++ [(value scorer,
                            generate_scoring_prompt question subject)])%list)
        as (issued & ->).
      rewrite <- app_assoc. eauto.
Qed.

Lemma score_responses_extends (question : string) (ms : list ModelType)
      (i : nat) (rs : list ModelResponse) (log : list Call) :
  exists issued,
    snd (score_responses question ms i rs log) = (log ++ issued)%list.
Proof.
  revert i log. induction rs as [|r rs IH]; intros i log.
  - exists []. rewrite score_responses_nil. cbn [snd]. now rewrite app_nil_r.
  - rewrite score_responses_cons.
    destruct (error_free r); cbv zeta; cbn [snd]; [| apply IH].
    destruct (score_by_models_extends question r i 0 ms [] log)
      as (issued1 & ->).
    destruct (IH (S i) (log ++ issued1)%list) as (issued2 & ->).
    rewrite <- app_assoc. eauto.
Qed.

Lemma battle_round_extends (round_number : Z) (question : string)
      (ms : list ModelType) (log : list Call) :
  exists issued,
    snd (battle_round round_number question ms log) = (log ++ issued)%list.
Proof.
  rewrite battle_round_eq. cbv zeta.
  rewrite gather_answers_log.
  destruct (_ <? 2)%nat; cbn [snd]; [eauto |].
  destruct (score_responses_extends
              question ms 0 (fst (gather_answers question ms log))
              (log ++ answer_calls question ms)%list) as (issued & ->).
  rewrite <- app_assoc. eauto.
Qed.

Lemma battle_rounds_extends (k : nat) (round_num : Z) (question : string)
      (ms : list ModelType) (log : list Call) :
  exists issued,
    snd (battle_rounds k round_num question ms log) = (log ++ issued)%list.
Proof.
  revert round_num log. induction k as [|k IH]; intros round_num log.
  - exists []. cbn. now rewrite app_nil_r.
  - rewrite battle_rounds_snoc_log.
    destruct (battle_round_extends (round_num + 1) question ms log)
      as (issued1 & ->).
    destruct (IH (round_num + 1)%Z (log ++ issued1)%list) as (issued2 & ->).
    rewrite <- app_assoc. eauto.
Qed.

(** The calls of a battle come after the calls issued before it. *)
Lemma battle_extends (question : string) (ms : list ModelType)
      (num_rounds : Z) (log : list Call) :
  exists issued,
    snd (battle question ms num_rounds log) = (log ++ issued)%list.
Proof. rewrite battle_log. apply battle_rounds_extends. Qed.

End Rounds.

(** The round of three models of which only [qwen-turbo] answers. *)
Lemma round_without_two_answers_scores_zero_witness :
  let r := fst (ModelBattle.battle_round
                  Scenario.only_qwen_turbo Reference.json_loads
                  Reference.float_of_str 1 Scenario.arithmetic_question
                  [ModelBattle.DASHSCOPE_QWEN; ModelBattle.DASHSCOPE_QWEN_MAX;
                   ModelBattle.DASHSCOPE_QWEN_VL_MAX] []) in
  Py.dict_get (ModelBattle.round_scores r) "qwen-turbo" = Some 0%Q
  /\ List.length (ModelBattle.responses r) = 3%nat.
Proof.
  split; [| reflexivity].
  refine (proj1 (round_without_two_answers_scores_zero
                   Scenario.only_qwen_turbo Reference.json_loads
                   Reference.float_of_str 1 Scenario.arithmetic_question
                   [ModelBattle.DASHSCOPE_QWEN; ModelBattle.DASHSCOPE_QWEN_MAX;
                    ModelBattle.DASHSCOPE_QWEN_VL_MAX] [] _)
                ModelBattle.DASHSCOPE_QWEN _).
  - vm_compute. lia.
  - simpl. auto.
Defined.

(** The round of [qwen-turbo], [qwen-max] and [qwen-vl-max] while
    [qwen-max] is down. *)
Lemma round_of_three_mean_scores_witness :
  let r := fst (ModelBattle.battle_round
                  Scenario.qwen_max_down Reference.json_loads
                  Reference.float_of_str 1 Scenario.arithmetic_question
                  [ModelBattle.DASHSCOPE_QWEN; ModelBattle.DASHSCOPE_QWEN_MAX;
                   ModelBattle.DASHSCOPE_QWEN_VL_MAX] []) in
  exists a b c,
    ModelBattle.responses r = [a; b; c]
    /\ ModelBattle.model_name a = "qwen-turbo"
    /\ ModelBattle.model_name b = "qwen-max"
    /\ ModelBattle.model_name c = "qwen-vl-max"
    /\ (ModelBattle.error_free a = true ->
        ModelBattle.error_free c = true ->
        exists sB sC,
          ModelBattle.scores a = [("qwen-max", sB); ("qwen-vl-max", sC)]
          /\ (exists v,
                 Py.dict_get (ModelBattle.round_scores r) "qwen-turbo" = Some v
                 /\ (v == (ModelBattle.score sB + ModelBattle.score sC) / 2)%Q)
          /\ (ModelBattle.error_free b = false ->
              Py.dict_get (ModelBattle.round_scores r) "qwen-max" = Some 0%Q)
          /\ (ModelBattle.failed
                (Scenario.qwen_max_down
                   3 "qwen-max"
                   (ModelBattle.generate_scoring_prompt
                      Scenario.arithmetic_question a)) = true ->
              ModelBattle.score sB = 0%Q)).
Proof.
  apply (round_of_three_mean_scores
           Scenario.qwen_max_down Reference.json_loads Reference.float_of_str
           1 Scenario.arithmetic_question
           ModelBattle.DASHSCOPE_QWEN ModelBattle.DASHSCOPE_QWEN_MAX
           ModelBattle.DASHSCOPE_QWEN_VL_MAX []); discriminate.
Defined.

(** C1 as stated fails where it excludes an erroring model as a scorer.
    With [qwen-max] down, the answers of [qwen-turbo] and [qwen-vl-max] are
    free of error and the answer of [qwen-max] is not; [qwen-vl-max] gives
    [qwen-turbo] the score 80, yet the round score of [qwen-turbo] is 40:
    the failed scoring call of [qwen-max] is counted in the mean as 0. *)
Lemma erroring_model_still_scores :
  let r := fst (ModelBattle.battle_round
                  Scenario.qwen_max_down Reference.json_loads
                  Reference.float_of_str 1 Scenario.arithmetic_question
                  [ModelBattle.DASHSCOPE_QWEN; ModelBattle.DASHSCOPE_QWEN_MAX;
                   ModelBattle.DASHSCOPE_QWEN_VL_MAX] []) in
  exists a b c sC,
    ModelBattle.responses r = [a; b; c]
    /\ ModelBattle.error_free a = true
    /\ ModelBattle.error_free b = false
    /\ ModelBattle.error_free c = true
    /\ ModelBattle.given_score a ModelBattle.DASHSCOPE_QWEN_VL_MAX = Some sC
    /\ (sC == 80)%Q
    /\ Py.dict_get (ModelBattle.round_scores r) "qwen-max" = Some 0%Q
    /\ exists v,
         Py.dict_get (ModelBattle.round_scores r) "qwen-turbo" = Some v
         /\ (v == 40)%Q
         /\ ~ (v == sC)%Q.
Proof.
  do 4 eexists.
  split; [vm_compute; reflexivity |].
  repeat (split; [vm_compute; reflexivity |]).
  eexists. split; [vm_compute; reflexivity |].
  split; [reflexivity |].
  intros H. vm_compute in H. discriminate H.
Qed.



(** The scenario of the specification: two models answer [4] and score
    each other 90; after one round both totals are 90 and the tie goes to
    the first model of the list, whose answer is the final answer. *)
Example battle_tie_goes_to_first_model :
  exists res,
    fst (ModelBattle.battle
           Scenario.all_answering Reference.json_loads Reference.float_of_str
           Scenario.arithmetic_question
           [ModelBattle.DASHSCOPE_QWEN; ModelBattle.DASHSCOPE_QWEN_MAX] 1 [])
    = Py.Ok res
    /\ ModelBattle.final_scores res = [("qwen-turbo", 90%Q); ("qwen-max", 90%Q)]
    /\ ModelBattle.final_winner res = "qwen-turbo"
    /\ ModelBattle.final_answer res = "4".
Proof. eexists. split; [vm_compute; reflexivity |]. now vm_compute. Qed.

(** Round scores 10 and 20 add up to the final score 30. *)
Example final_score_is_the_sum :
  let round_with (n : Z) (s : Q) :=
    {| ModelBattle.round_number := n;
       ModelBattle.responses := [];
       ModelBattle.round_scores := [("X", s)] |} in
  (ModelBattle.total_score [round_with 1%Z 10%Q; round_with 2%Z 20%Q] "X"
   == 30)%Q.
Proof. reflexivity. Qed.

(** No round for three models. *)
Lemma battle_without_rounds_raises_witness :
  fst (ModelBattle.battle
         Scenario.qwen_max_down Reference.json_loads Reference.float_of_str
         Scenario.arithmetic_question
         [ModelBattle.DASHSCOPE_QWEN; ModelBattle.DASHSCOPE_QWEN_MAX;
          ModelBattle.DASHSCOPE_QWEN_VL_MAX] 0 [])
  = Py.Raise "list index out of range".
Proof.
  apply (proj1 (battle_without_rounds_raises
                  Scenario.qwen_max_down Reference.json_loads
                  Reference.float_of_str Scenario.arithmetic_question
                  [ModelBattle.DASHSCOPE_QWEN; ModelBattle.DASHSCOPE_QWEN_MAX;
                   ModelBattle.DASHSCOPE_QWEN_VL_MAX] [])).
  discriminate.
Defined.

(** Three distinct models, as the witnesses below use them. *)
Lemma three_models_distinct :
  NoDup [ModelBattle.DASHSCOPE_QWEN; ModelBattle.DASHSCOPE_QWEN_MAX;
         ModelBattle.DASHSCOPE_QWEN_VL_MAX].
Proof.
  repeat constructor; cbn; intuition discriminate.
Qed.

(** The place of [qwen-max] in the round of three models while it is
    down. *)
Lemma scores_come_from_the_other_models_witness :
  let r := fst (ModelBattle.battle_round
                  Scenario.qwen_max_down Reference.json_loads
                  Reference.float_of_str 1 Scenario.arithmetic_question
                  [ModelBattle.DASHSCOPE_QWEN; ModelBattle.DASHSCOPE_QWEN_MAX;
                   ModelBattle.DASHSCOPE_QWEN_VL_MAX] []) in
  exists rs1 a rs2,
    ModelBattle.responses r = (rs1 ++ a :: rs2)%list
    /\ List.length rs1 = 1%nat
    /\ ModelBattle.model_name a = "qwen-max"
    /\ Py.dict_get (ModelBattle.scores a) "qwen-max" = None.
Proof.
  destruct (scores_come_from_the_other_models
              Scenario.qwen_max_down Reference.json_loads
              Reference.float_of_str 1 Scenario.arithmetic_question
              [ModelBattle.DASHSCOPE_QWEN] ModelBattle.DASHSCOPE_QWEN_MAX
              [ModelBattle.DASHSCOPE_QWEN_VL_MAX] [] three_models_distinct)
    as (rs1 & a & rs2 & Hsplit & Hlen & Hname & Hself & _).
  exists rs1, a, rs2. repeat split; assumption.
Defined.

(** The place of [qwen-turbo] in the same round: two answers are free of
    error. *)
Lemma round_score_is_the_mean_over_the_others_witness :
  let r := fst (ModelBattle.battle_round
                  Scenario.qwen_max_down Reference.json_loads
                  Reference.float_of_str 1 Scenario.arithmetic_question
                  [ModelBattle.DASHSCOPE_QWEN; ModelBattle.DASHSCOPE_QWEN_MAX;
                   ModelBattle.DASHSCOPE_QWEN_VL_MAX] []) in
  exists rs1 a rs2,
    ModelBattle.responses r = (rs1 ++ a :: rs2)%list
    /\ List.length rs1 = 0%nat
    /\ ModelBattle.model_name a = "qwen-turbo"
    /\ (ModelBattle.error_free a = true ->
        List.length (ModelBattle.scores a) = 2%nat
        /\ Py.dict_get (ModelBattle.round_scores r) "qwen-turbo"
           = Some (Py.py_sum (map ModelBattle.score
                                  (Py.dict_values (ModelBattle.scores a)))
                   / inject_Z 2)%Q)
    /\ (ModelBattle.error_free a = false ->
        Py.dict_get (ModelBattle.round_scores r) "qwen-turbo" = Some 0%Q).
Proof.
  apply (round_score_is_the_mean_over_the_others
           Scenario.qwen_max_down Reference.json_loads
           Reference.float_of_str 1 Scenario.arithmetic_question
           [] ModelBattle.DASHSCOPE_QWEN
           [ModelBattle.DASHSCOPE_QWEN_MAX; ModelBattle.DASHSCOPE_QWEN_VL_MAX]
           [] three_models_distinct).
  vm_compute. lia.
Defined.

(** The same round takes three answer calls and, for its two answers
    without error, four scoring calls. *)
Example round_of_three_takes_seven_calls :
  List.length
    (snd (ModelBattle.battle_round
            Scenario.qwen_max_down Reference.json_loads
            Reference.float_of_str 1 Scenario.arithmetic_question
            [ModelBattle.DASHSCOPE_QWEN; ModelBattle.DASHSCOPE_QWEN_MAX;
             ModelBattle.DASHSCOPE_QWEN_VL_MAX] []))
  = 7%nat.
Proof. vm_compute. reflexivity. Qed.

(** Three rounds between two models. *)
Lemma battle_runs_the_rounds_in_order_witness :
  exists res,
    fst (ModelBattle.battle
           Scenario.all_answering Reference.json_loads Reference.float_of_str
           Scenario.arithmetic_question
           [ModelBattle.DASHSCOPE_QWEN; ModelBattle.DASHSCOPE_QWEN_MAX] 3 [])
    = Py.Ok res
    /\ map ModelBattle.round_number (ModelBattle.rounds res) = [1; 2; 3]%Z.
Proof.
  destruct (battle_runs_the_rounds_in_order
              Scenario.all_answering Reference.json_loads
              Reference.float_of_str Scenario.arithmetic_question
              [ModelBattle.DASHSCOPE_QWEN; ModelBattle.DASHSCOPE_QWEN_MAX]
              3 [])
    as (res & Hres & Hnumbers & _).
  - lia.
  - exists res. split; [exact Hres | exact Hnumbers].
Defined.

(** The battle that the weekly diet plan runs: [qwen-max] alone, two
    rounds. *)
Lemma battle_of_one_model_witness :
  exists res,
    ModelBattle.battle
      Scenario.all_answering Reference.json_loads Reference.float_of_str
      Scenario.arithmetic_question [ModelBattle.DASHSCOPE_QWEN_MAX] 2 []
    = (Py.Ok res,
       [("qwen-max", Scenario.arithmetic_question);
        ("qwen-max", Scenario.arithmetic_question)])
    /\ ModelBattle.final_scores res = [("qwen-max", 0%Q)]
    /\ ModelBattle.final_winner res = "qwen-max".
Proof.
  destruct (battle_of_one_model
              Scenario.all_answering Reference.json_loads
              Reference.float_of_str Scenario.arithmetic_question
              ModelBattle.DASHSCOPE_QWEN_MAX 2 [])
    as (res & earlier & last & a & Hres & Hscores & Hwinner & _).
  - lia.
  - exists res. split; [exact Hres |]. split; [exact Hscores | exact Hwinner].
Defined.

(** Two rounds between two models while the Gateway is down. *)
Lemma battle_when_every_call_fails_witness :
  exists res,
    fst (ModelBattle.battle
           Scenario.gateway_down Reference.json_loads Reference.float_of_str
           Scenario.arithmetic_question
           [ModelBattle.DASHSCOPE_QWEN_MAX; ModelBattle.DASHSCOPE_QWEN] 2 [])
    = Py.Ok res
    /\ ModelBattle.final_winner res = "qwen-max"
    /\ ModelBattle.final_answer res = "".
Proof.
  destruct (battle_when_every_call_fails
              Scenario.gateway_down Reference.json_loads
              Reference.float_of_str Scenario.arithmetic_question
              ModelBattle.DASHSCOPE_QWEN_MAX [ModelBattle.DASHSCOPE_QWEN]
              2 [])
    as (res & Hres & _ & Hwinner & Hanswer & _).
  - reflexivity.
  - lia.
  - exists res. split; [exact Hres |]. split; [exact Hwinner | exact Hanswer].
Defined.

(** Two rounds between three models that all answer: eighteen calls. *)
Lemma battle_call_count_when_no_call_fails_witness :
  List.length
    (snd (ModelBattle.battle
            Scenario.all_answering Reference.json_loads Reference.float_of_str
            Scenario.arithmetic_question
            [ModelBattle.DASHSCOPE_QWEN; ModelBattle.DASHSCOPE_QWEN_MAX;
             ModelBattle.DASHSCOPE_QWEN_VL_MAX] 2 []))
  = 18%nat.
Proof.
  apply (battle_call_count_when_no_call_fails
           Scenario.all_answering Reference.json_loads Reference.float_of_str
           Scenario.arithmetic_question
           [ModelBattle.DASHSCOPE_QWEN; ModelBattle.DASHSCOPE_QWEN_MAX;
            ModelBattle.DASHSCOPE_QWEN_VL_MAX] 2 []).
  intros calls_before model prompt. unfold Scenario.all_answering.
  now destruct (String.eqb prompt Scenario.arithmetic_question).
Defined.

(** A scorer that replies with the bare number [85]: the reply decodes,
    to a number and not to an object, and the score is 0. *)
Lemma score_of_a_decoded_reply_witness :
  let subject :=
    fst (ModelBattle.call_model Scenario.bare_number_scores
                                ModelBattle.DASHSCOPE_QWEN
                                Scenario.arithmetic_question []) in
  ModelBattle.score
    (fst (ModelBattle.score_response
            Scenario.bare_number_scores Reference.json_loads
            Reference.float_of_str Scenario.arithmetic_question subject
            ModelBattle.DASHSCOPE_QWEN_MAX
            [("qwen-turbo", Scenario.arithmetic_question)]))
  = 0%Q.
Proof.
  refine (proj1 (proj1 (score_of_a_decoded_reply
                          Scenario.bare_number_scores Reference.json_loads
                          Reference.float_of_str Scenario.arithmetic_question
                          _ ModelBattle.DASHSCOPE_QWEN_MAX
                          [("qwen-turbo", Scenario.arithmetic_question)]
                          "85" "" (Some 3%Z) (Py.JInt 85) _ _) _)).
  - reflexivity.
  - reflexivity.
  - discriminate.
Defined.

(** * The orchestrator *)

Section Orchestrator.
Import Py MCPClient.

Variable list_tools : Try (list Tool).
Variable Generation_call :
  nat -> list Message -> option (list Json) -> Try GenerationResponse.
Variable call_tool : nat -> option string -> Json -> Try CallToolResult.
Variable json_loads : string -> Try Json.
Variable json_dumps : Json -> string.

Local Abbreviation process_tool_call :=
  (process_tool_call call_tool json_loads).
Local Abbreviation process_tool_calls :=
  (process_tool_calls call_tool json_loads).
Local Abbreviation call_result := (call_result call_tool json_loads).
Local Abbreviation reaches_tool := (reaches_tool json_loads).
Local Abbreviation batch_results := (batch_results call_tool json_loads).
Local Abbreviation final_entry := (final_entry Generation_call json_dumps).
Local Abbreviation conclude := (conclude Generation_call json_dumps).
Local Abbreviation asks_batch := (asks_batch list_tools Generation_call).
Local Abbreviation process_query :=
  (process_query list_tools Generation_call call_tool json_loads json_dumps).
Local Abbreviation process_query_logged :=
  (process_query_logged list_tools Generation_call call_tool json_loads
                        json_dumps).

(** **** One call, then the batch *)

Lemma process_tool_call_trace (st : LoopState) (tool_call : ToolCall) :
  let entry := (tool_call, call_result (List.length (invocations st)) tool_call) in
  messages (process_tool_call st tool_call)
  = (messages st ++ messages_of entry)%list
  /\ tool_results (process_tool_call st tool_call)
     = (tool_results st ++ results_of entry)%list
  /\ final_text (process_tool_call st tool_call)
     = (final_text st ++ notes_of entry)%list
  /\ List.length (invocations (process_tool_call st tool_call))
     = if reaches_tool tool_call
       then S (List.length (invocations st))
       else List.length (invocations st).
Proof.
  unfold MCPClient.process_tool_call, MCPClient.call_result,
    MCPClient.reaches_tool, messages_of, results_of, notes_of.
  destruct tool_call as [n a i | n a i | r]; cbn [fst snd call_name call_arguments];
    try (destruct (decode_arguments json_loads a) as [args | e];
         [destruct (call_tool _ n args) as [result | e] |]);
    cbn [messages tool_results final_text invocations];
    rewrite ?app_nil_r, ?length_app; cbn [List.length];
    repeat split; try reflexivity; lia.
Qed.

(** The loop appends, in the order of the calls, the two messages and the
    result of each call that succeeded and the note of each call that
    failed. *)
Lemma process_tool_calls_trace (st : LoopState) (batch : list ToolCall) :
  let trace := batch_results (List.length (invocations st)) batch in
  messages (process_tool_calls st batch)
  = (messages st ++ flat_map messages_of trace)%list
  /\ tool_results (process_tool_calls st batch)
     = (tool_results st ++ flat_map results_of trace)%list
  /\ final_text (process_tool_calls st batch)
     = (final_text st ++ flat_map notes_of trace)%list.
Proof.
  revert st. induction batch as [|tool_call rest IH]; intros st.
  - cbn. now rewrite !app_nil_r.
  - cbn [MCPClient.process_tool_calls fold_left MCPClient.batch_results flat_map].
    destruct (process_tool_call_trace st tool_call) as (Hm & Hr & Hf & Hn).
    specialize (IH (process_tool_call st tool_call)).
    cbv zeta in IH. rewrite Hn, Hm, Hr, Hf in IH.
    unfold MCPClient.process_tool_calls in IH.
    destruct IH as (IHm & IHr & IHf).
    rewrite IHm, IHr, IHf, <- !app_assoc. auto.
Qed.

(** **** The query *)

Lemma process_query_batch (query : string) (available_tools : list Json)
      (batch : list ToolCall) :
  asks_batch query available_tools batch -> batch <> [] ->
  process_query query
  = conclude query available_tools
             (process_tool_calls (initial_state query) batch).
Proof.
  intros (Htools & response & choice & others & Hresp & Hstatus & Hchoices
          & Hcalls) Hbatch.
  unfold MCPClient.process_query.
  rewrite Htools, Hresp, Hstatus, Hchoices, Hcalls. cbn [Z.eqb Pos.eqb negb].
  destruct batch; [contradiction | reflexivity].
Qed.

Lemma process_query_trace (query : string) (available_tools : list Json)
      (batch : list ToolCall) :
  asks_batch query available_tools batch -> batch <> [] ->
  let st := process_tool_calls (initial_state query) batch in
  let trace := batch_results 0 batch in
  process_query query = conclude query available_tools st
  /\ messages st = UserMessage query :: flat_map messages_of trace
  /\ tool_results st = flat_map results_of trace
  /\ final_text st = flat_map notes_of trace.
Proof.
  intros Hasks Hbatch st trace.
  split; [now apply process_query_batch |].
  exact (process_tool_calls_trace (initial_state query) batch).
Qed.

Lemma batch_results_calls (invoked_before : nat) (batch : list ToolCall) :
  map fst (batch_results invoked_before batch) = batch.
Proof.
  revert invoked_before. induction batch as [|tool_call rest IH];
    intros invoked_before; [reflexivity |].
  cbn [MCPClient.batch_results map fst]. now rewrite IH.
Qed.

Lemma conclude_transcript (query : string) (available_tools : list Json)
      (st : LoopState) :
  transcript (conclude query available_tools st) = messages st.
Proof. unfold MCPClient.conclude. now destruct (tool_results st). Qed.

Lemma carried_call_keeps_request (tool_call : ToolCall) :
  call_id (carried_call tool_call) = call_id tool_call
  /\ call_name (carried_call tool_call) = call_name tool_call
  /\ call_arguments (carried_call tool_call) = call_arguments tool_call.
Proof. destruct tool_call as [n a [i|] | n a [i|] | r]; repeat split. Qed.


(** **** Texts that are not empty *)

Lemma join_nl_empty (parts : list string) :
  join nl parts = "" -> parts = [] \/ parts = [""].
Proof.
  destruct parts as [|x [|y rest]]; cbn.
  - now left.
  - intros ->. now right.
  - destruct x; discriminate.
Qed.

Lemma failure_note_not_empty (e : string) : failure_note e <> "".
Proof. discriminate. Qed.

Lemma notes_not_empty (trace : list (ToolCall * CallResult)) (n : string) :
  In n (flat_map notes_of trace) -> n <> "".
Proof.
  intros Hin. apply in_flat_map in Hin as ([tool_call result] & _ & Hn).
  unfold notes_of in Hn. cbn [snd] in Hn.
  destruct result; try contradiction.
  destruct Hn as [<- | []]. apply failure_note_not_empty.
Qed.

Lemma answer_text_snoc (texts : list string) (last : string) :
  answer_text (texts ++ [last])%list = join nl (texts ++ [last])%list.
Proof. unfold answer_text. now destruct texts. Qed.

(** What a batch of failed calls leaves behind. *)
Lemma failed_trace (trace : list (ToolCall * CallResult)) :
  (forall entry, In entry trace -> exists e, snd entry = Failed e) ->
  exists errors,
    map snd trace = map Failed errors
    /\ flat_map notes_of trace = map failure_note errors
    /\ flat_map results_of trace = []
    /\ flat_map messages_of trace = [].
Proof.
  induction trace as [|[tool_call result] trace IH]; intros Hfailed.
  - exists []. auto.
  - destruct (Hfailed _ (or_introl eq_refl)) as (e & He). cbn [snd] in He.
    subst result.
    destruct IH as (errors & Hsnd & Hnotes & Hresults & Hmessages).
    { intros entry Hentry. apply Hfailed. now right. }
    exists (e :: errors).
    cbn [map flat_map snd]. unfold notes_of at 1, results_of at 1,
      messages_of at 1. cbn [snd app].
    rewrite Hsnd, Hnotes, Hresults, Hmessages. auto.
Qed.

(** C7.  When the batch is not empty and every call of it fails, the
    answer is the failure notes of the calls, one per call in the order of
    the calls, joined by newlines; it is not empty, and no further Gateway
    call is issued. *)
Theorem failed_batch_answer
        (query : string) (available_tools : list Json) (batch : list ToolCall) :
  asks_batch query available_tools batch -> batch <> [] ->
  (forall entry, In entry (batch_results 0 batch) ->
                 exists e, snd entry = Failed e) ->
  exists errors,
    map snd (batch_results 0 batch) = map Failed errors
    /\ List.length errors = List.length batch
    /\ answer (process_query query) = Ok (join nl (map failure_note errors))
    /\ join nl (map failure_note errors) <> ""
    /\ gateway_calls (process_query query)
       = [([UserMessage query], tools_argument available_tools)].
Proof.
  intros Hasks Hbatch Hfailed.
  destruct (process_query_trace query available_tools batch Hasks Hbatch)
    as (Hquery & _ & Hresults & Htext).
  destruct (failed_trace _ Hfailed) as (errors & Hsnd & Hnotes & Hnone & _).
  exists errors. split; [assumption |].
  assert (Hlen : List.length errors = List.length batch).
  { transitivity (List.length (map snd (batch_results 0 batch))).
    - now rewrite Hsnd, length_map.
    - rewrite length_map, <- (length_map fst). now rewrite batch_results_calls. }
  split; [assumption |].
  rewrite Hquery. unfold MCPClient.conclude.
  rewrite Hresults, Hnone, Htext, Hnotes.
  cbn [answer gateway_calls].
  destruct errors as [|e errors];
    [destruct batch; [contradiction | discriminate Hlen] |].
  repeat split.
  cbn [map]. intros Hempty. apply join_nl_empty in Hempty as [H | H].
  - discriminate H.
  - injection H as H _. now apply failure_note_not_empty in H.
Qed.

Lemma unrecognised_batch_unchanged (st : LoopState) (batch : list ToolCall) :
  (forall tool_call, In tool_call batch -> exists repr, tool_call = CallOther repr) ->
  process_tool_calls st batch = st.
Proof.
  induction batch as [|tool_call rest IH]; intros Hother; [reflexivity |].
  destruct (Hother tool_call (or_introl eq_refl)) as (repr & ->).
  cbn. apply IH. intros tc Htc. apply Hother. now right.
Qed.

(** C9.  A call of neither known shape changes nothing: no failure note,
    no message, no tool result, no tool invoked.  For a batch that is not
    empty and holds such calls only, the answer is the fixed text for no
    valid response; the transcript is the user message alone, and there is
    no second Gateway call. *)
Theorem unrecognised_calls_are_skipped :
  (forall st repr, process_tool_call st (CallOther repr) = st)
  /\ (forall query available_tools batch,
         asks_batch query available_tools batch -> batch <> [] ->
         (forall tool_call, In tool_call batch ->
                            exists repr, tool_call = CallOther repr) ->
         answer (process_query query) = Ok no_valid_response
         /\ transcript (process_query query) = [UserMessage query]
         /\ tools_invoked (process_query query) = []
         /\ gateway_calls (process_query query)
            = [([UserMessage query], tools_argument available_tools)]).
Proof.
  split; [reflexivity |].
  intros query available_tools batch Hasks Hbatch Hother.
  rewrite (process_query_batch query available_tools batch Hasks Hbatch).
  rewrite (unrecognised_batch_unchanged _ _ Hother).
  repeat split.
Qed.

Lemma fallback_listing_not_empty (results : list (option string * string)) :
  fallback_listing json_dumps results <> "".
Proof. discriminate. Qed.

(** The entry that the final Gateway call leaves, by what the call did. *)
Lemma final_entry_cases (st : LoopState) (available_tools : list Json) :
  let listing := fallback_listing json_dumps (tool_results st) in
  match Generation_call 1 (messages st) (tools_argument available_tools) with
  | Raise _ => final_entry st available_tools = listing
  | Ok final =>
      if (status_code final =? 200)%Z
      then match choices final with
           | final_choice :: _ =>
               match content_text (content final_choice) with
               | Ok t => final_entry st available_tools = t
               | Raise _ => final_entry st available_tools = listing
               end
           | [] => final_entry st available_tools = listing
           end
      else final_entry st available_tools = final_response_failed
  end.
Proof.
  unfold MCPClient.final_entry, get_response.
  destruct (Generation_call 1 _ _) as [final | e]; [| reflexivity].
  destruct (status_code final =? 200)%Z; [| reflexivity].
  destruct (choices final) as [|final_choice more]; [reflexivity |].
  now destruct (content_text (content final_choice)).
Qed.

(** C2, as the code has it.  When at least one call of the batch
    succeeded, exactly one more Gateway call is issued, with the updated
    transcript, and the answer is the failure notes of the failed calls
    followed by one last entry, joined by newlines.  The last entry is the
    listing of the tool results when the final call raises, or returns a
    successful response that cannot be read; it is the fixed text for a
    failed final response when the call returns a status other than 200;
    it is the text of the response otherwise. *)
Theorem final_call_after_success
        (query : string) (available_tools : list Json) (batch : list ToolCall) :
  asks_batch query available_tools batch ->
  (exists tool_call content,
      In (tool_call, Succeeded content) (batch_results 0 batch)) ->
  let out := process_query query in
  let trace := batch_results 0 batch in
  let listing := fallback_listing json_dumps (flat_map results_of trace) in
  transcript out = UserMessage query :: flat_map messages_of trace
  /\ gateway_calls out
     = [([UserMessage query], tools_argument available_tools);
        (transcript out, tools_argument available_tools)]
  /\ exists last,
       answer out = Ok (join nl (flat_map notes_of trace ++ [last])%list)
       /\ match Generation_call 1 (transcript out)
                                (tools_argument available_tools) with
          | Raise _ => last = listing
          | Ok final =>
              if (status_code final =? 200)%Z
              then match choices final with
                   | final_choice :: _ =>
                       match content_text (content final_choice) with
                       | Ok t => last = t
                       | Raise _ => last = listing
                       end
                   | [] => last = listing
                   end
              else last = final_response_failed
          end.
Proof.
  intros Hasks (tool_call & content & Hin) out trace listing.
  subst out trace listing.
  assert (Hbatch : batch <> []) by (intros ->; exact Hin).
  destruct (process_query_trace query available_tools batch Hasks Hbatch)
    as (Hquery & Hmessages & Hresults & Htext).
  rewrite Hquery.
  remember (process_tool_calls (initial_state query) batch) as st eqn:Hst.
  clear Hst Hquery.
  assert (Hsome : tool_results st <> []).
  { rewrite Hresults. apply in_split in Hin as (earlier & later & ->).
    rewrite flat_map_app. cbn [flat_map results_of snd fst].
    intros H. apply app_eq_nil in H as [_ H]. discriminate H. }
  pose proof (final_entry_cases st available_tools) as Hfinal.
  cbv zeta in Hfinal. rewrite Hresults in Hfinal.
  unfold MCPClient.conclude.
  destruct (tool_results st) as [|result results]; [contradiction |].
  cbn [transcript gateway_calls answer]. rewrite Hmessages in *.
  split; [reflexivity |]. split; [reflexivity |].
  exists (final_entry st available_tools).
  rewrite answer_text_snoc, Htext. split; [reflexivity |].
  exact Hfinal.
Qed.

(** C8, as the code has it, for tool calls whose name and arguments can
    be read.  [process_query] raises, and returns no text, in four cases:
    the tool listing raises; the first Gateway call raises; the first
    response has status 200 and no choice ([IndexError]); the first choice
    asks for no tool and its content cannot be made into a text.  In every
    other case it returns a text:
    - on a first status other than 200, the failure description, which is
      not empty;
    - on status 200 without tool calls, the text of the content as it is,
      the empty text included;
    - on status 200 with tool calls, a text that is empty exactly when no
      failure note was recorded, a call succeeded, and the final Gateway
      call returned a successful response whose first content is the empty
      text. *)
Theorem process_query_answer (query : string) :
  (forall e, get_tools list_tools = Raise e ->
             answer (process_query query) = Raise e)
  /\ (forall available_tools e,
         get_tools list_tools = Ok available_tools ->
         get_response Generation_call 0 [UserMessage query] available_tools
         = Raise e ->
         answer (process_query query) = Raise e)
  /\ (forall available_tools response,
         get_tools list_tools = Ok available_tools ->
         get_response Generation_call 0 [UserMessage query] available_tools
         = Ok response ->
         (status_code response <> 200%Z ->
          answer (process_query query) = Ok (api_failure (message response))
          /\ api_failure (message response) <> "")
         /\ (status_code response = 200%Z ->
             choices response = [] ->
             answer (process_query query) = Raise "list index out of range")
         /\ (status_code response = 200%Z ->
             forall choice others,
               choices response = choice :: others ->
               match tool_calls choice with
               | Some (first :: rest) =>
                   let trace := batch_results 0 (first :: rest) in
                   exists t,
                     answer (process_query query) = Ok t
                     /\ (t = "" <->
                         flat_map notes_of trace = []
                         /\ flat_map results_of trace <> []
                         /\ exists final final_choice more,
                             Generation_call
                               1 (transcript (process_query query))
                               (tools_argument available_tools)
                             = Ok final
                             /\ status_code final = 200%Z
                             /\ choices final = final_choice :: more
                             /\ content_text (content final_choice) = Ok "")
               | _ =>
                   match content_text (content choice) with
                   | Ok t => answer (process_query query) = Ok t
                   | Raise e => answer (process_query query) = Raise e
                   end
               end)).
Proof.
  split; [| split].
  { intros e Htools. unfold MCPClient.process_query. now rewrite Htools. }
  { intros available_tools e Htools Hresponse.
    unfold MCPClient.process_query. now rewrite Htools, Hresponse. }
  intros available_tools response Htools Hresponse. split; [| split].
  - intros Hstatus. split; [| discriminate].
    unfold MCPClient.process_query. rewrite Htools, Hresponse.
    apply Z.eqb_neq in Hstatus. now rewrite Hstatus.
  - intros Hstatus Hchoices. unfold MCPClient.process_query.
    now rewrite Htools, Hresponse, Hstatus, Hchoices.
  - intros Hstatus choice others Hchoices.
    destruct (tool_calls choice) as [[|first rest] |] eqn:Hcalls.
    + unfold MCPClient.process_query.
      rewrite Htools, Hresponse, Hstatus, Hchoices, Hcalls.
      cbn [Z.eqb Pos.eqb negb]. unfold without_tools. cbn [answer].
      now destruct (content_text (content choice)).
    + assert (Hasks : asks_batch query available_tools (first :: rest)).
      { split; [assumption |]. exists response, choice, others. auto. }
      destruct (process_query_trace query available_tools (first :: rest)
                  Hasks) as (Hquery & Hmessages & Hresults & Htext);
        [discriminate |].
      cbv zeta. rewrite Hquery.
      remember (process_tool_calls (initial_state query) (first :: rest))
        as st eqn:Hst. clear Hst Hquery.
      pose proof (final_entry_cases st available_tools) as Hfinal.
      cbv zeta in Hfinal.
      rewrite conclude_transcript. rewrite <- Hresults, <- Htext.
      unfold MCPClient.conclude.
      destruct (tool_results st) as [|result results];
        cbn [answer]; eexists; (split; [reflexivity |]); split.
      * intros Hempty. exfalso. unfold answer_text in Hempty.
        rewrite Htext in *.
        destruct (flat_map notes_of _) as [|n notes] eqn:Hnotes;
          [discriminate Hempty |].
        apply join_nl_empty in Hempty as [H | H]; [discriminate H |].
        injection H as H _. subst n.
        eapply notes_not_empty; [| reflexivity].
        rewrite Hnotes. now left.
      * intros (_ & Hsome & _). now elim Hsome.
      * intros Hempty. rewrite answer_text_snoc in Hempty.
        apply join_nl_empty in Hempty as [H | H];
          [now apply app_eq_nil in H as [_ H] |].
        destruct (final_text st) as [|n notes].
        2:{ exfalso. destruct notes; discriminate H. }
        split; [reflexivity |]. split; [discriminate |].
        injection H as Hentry. rewrite Hentry in Hfinal.
        destruct (Generation_call 1 (messages st) _) as [final | e];
          [| now apply eq_sym, fallback_listing_not_empty in Hfinal].
        destruct (status_code final =? 200)%Z eqn:Hfstatus;
          [| discriminate Hfinal].
        apply Z.eqb_eq in Hfstatus.
        destruct (choices final) as [|final_choice more] eqn:Hfchoices;
          [now apply eq_sym, fallback_listing_not_empty in Hfinal |].
        destruct (content_text (content final_choice)) as [t | e] eqn:Hcontent;
          [| now apply eq_sym, fallback_listing_not_empty in Hfinal].
        subst t. exists final, final_choice, more. auto.
      * intros (Hnotes & _ & final & final_choice & more & Hcall & Hfstatus
                & Hfchoices & Hcontent).
        rewrite Hnotes. cbn [app].
        rewrite Hcall, Hfstatus, Hfchoices, Hcontent in Hfinal.
        cbn [Z.eqb Pos.eqb] in Hfinal. rewrite Hfinal. reflexivity.
    + unfold MCPClient.process_query.
      rewrite Htools, Hresponse, Hstatus, Hchoices, Hcalls.
      cbn [Z.eqb Pos.eqb negb]. unfold without_tools. cbn [answer].
      now destruct (content_text (content choice)).
Qed.

(** **** The Gateway calls of a query *)

Lemma process_tool_calls_starts_with_query (query : string)
      (batch : list ToolCall) :
  exists rest,
    messages (process_tool_calls (initial_state query) batch)
    = UserMessage query :: rest.
Proof.
  destruct (process_tool_calls_trace (initial_state query) batch)
    as (Hmessages & _).
  rewrite Hmessages. cbn [initial_state messages app]. eauto.
Qed.

(** The log of [process_query_logged], started on an empty log, by what
    the calls did. *)
Lemma process_query_logged_eq (query : string) :
  process_query_logged query []
  = (answer (process_query query), gateway_calls (process_query query)).
Proof.
  unfold MCPClient.process_query_logged, MCPClient.process_query.
  destruct (get_tools list_tools) as [available_tools | e]; [| reflexivity].
  unfold get_response_logged, get_response. cbn [List.length app].
  destruct (Generation_call 0 [UserMessage query] _) as [response | e];
    [| reflexivity].
  destruct (negb (status_code response =? 200)%Z); [reflexivity |].
  destruct (choices response) as [|choice others]; [reflexivity |].
  destruct (tool_calls choice) as [[|first rest] |]; try reflexivity.
  unfold MCPClient.conclude, final_entry_logged, MCPClient.final_entry,
    get_response_logged, get_response.
  destruct (tool_results (process_tool_calls (initial_state query)
                                             (first :: rest)));
    reflexivity.
Qed.

(** X13.  One query costs at most two Gateway calls.  On the log of the
    calls as [get_response] issues them, started empty, [process_query]
    gives the answer and leaves the calls that its outcome records.  Each
    call is given messages that start with the user's query and the tool
    schemas that [get_tools] made; the first call is given the query alone
    and the second, when there is one, the whole transcript; there is a
    second call exactly when the model asked for tools and one of them
    gave a result.  When the tools cannot be listed no call is issued. *)
Theorem gateway_called_at_most_twice (query : string) :
  let out := process_query_logged query [] in
  let calls := snd out in
  (List.length calls <= 2)%nat
  /\ fst out = answer (process_query query)
  /\ calls = gateway_calls (process_query query)
  /\ (forall c, In c calls ->
        (exists rest, fst c = UserMessage query :: rest)
        /\ exists available_tools,
            get_tools list_tools = Ok available_tools
            /\ snd c = tools_argument available_tools)
  /\ (forall c rest, calls = c :: rest -> fst c = [UserMessage query])
  /\ (forall c1 c2, calls = [c1; c2] ->
                    fst c2 = transcript (process_query query))
  /\ (List.length calls = 2%nat <->
      exists available_tools batch,
        asks_batch query available_tools batch
        /\ flat_map results_of (batch_results 0 batch) <> [])
  /\ (forall e, get_tools list_tools = Raise e -> calls = []).
Proof.
  cbv zeta. rewrite process_query_logged_eq. cbn [fst snd].
  destruct (get_tools list_tools) as [available_tools | e] eqn:Htools.
  2:{ unfold MCPClient.process_query. rewrite Htools.
      cbn [answer gateway_calls transcript List.length].
      split; [lia |]. split; [reflexivity |]. split; [reflexivity |].
      split; [intros c [] |]. split; [discriminate |].
      split; [discriminate |]. split; [| reflexivity].
      split; [discriminate |].
      intros (tools & batch & (Hlist & _) & _). congruence. }
  assert (Hasks_inv :
            forall tools batch,
              asks_batch query tools batch ->
              tools = available_tools
              /\ exists response choice others,
                  Generation_call 0 [UserMessage query]
                                  (tools_argument available_tools)
                  = Ok response
                  /\ status_code response = 200%Z
                  /\ choices response = choice :: others
                  /\ tool_calls choice = Some batch).
  { intros tools batch (Hlist & response & choice & others & H).
    assert (tools = available_tools) by congruence. subst tools.
    split; [reflexivity |]. exists response, choice, others.
    exact H. }
  match goal with
  | |- ?G =>
      assert (Hone :
                forall (result : Try string),
                  process_query query
                  = without_tools query available_tools result ->
                  (forall tools batch,
                      asks_batch query tools batch ->
                      flat_map results_of (batch_results 0 batch) <> [] ->
                      False) ->
                  G)
  end.
  { intros result Hquery Hnone. rewrite Hquery.
    unfold without_tools. cbn [answer gateway_calls transcript List.length].
    split; [lia |]. split; [reflexivity |]. split; [reflexivity |].
    split.
    { intros c [<- | []]. cbn [fst snd]. eauto. }
    split; [intros c rest Heq; now injection Heq as <- _ |].
    split; [discriminate |]. split; [| discriminate].
    split; [discriminate |].
    intros (tools & batch & Hasks & Hsome).
    elim (Hnone tools batch Hasks Hsome). }
  destruct (Generation_call 0 [UserMessage query]
                            (tools_argument available_tools))
    as [response | e] eqn:Hcall.
  2:{ apply (Hone (Raise e)).
      - unfold MCPClient.process_query, get_response.
        now rewrite Htools, Hcall.
      - intros tools batch Hasks _.
        apply Hasks_inv in Hasks as (_ & r & c & o & Hr & _).
        discriminate Hr. }
  destruct (status_code response =? 200)%Z eqn:Hstatus.
  2:{ apply (Hone (Ok (api_failure (message response)))).
      - unfold MCPClient.process_query, get_response.
        now rewrite Htools, Hcall, Hstatus.
      - intros tools batch Hasks _.
        apply Hasks_inv in Hasks as (_ & r & c & o & Hr & Hs & _).
        injection Hr as <-. apply Z.eqb_neq in Hstatus. contradiction. }
  destruct (choices response) as [|choice others] eqn:Hchoices.
  { apply (Hone (Raise "list index out of range")).
    - unfold MCPClient.process_query, get_response.
      now rewrite Htools, Hcall, Hstatus, Hchoices.
    - intros tools batch Hasks _.
      apply Hasks_inv in Hasks as (_ & r & c & o & Hr & _ & Hc & _).
      injection Hr as <-. congruence. }
  assert (Hplain :
            tool_calls choice = None \/ tool_calls choice = Some [] ->
            process_query query
            = without_tools query available_tools
                match content_text (content choice) with
                | Ok t => Ok (answer_text [t])
                | Raise e => Raise e
                end).
  { intros Hcalls. unfold MCPClient.process_query, get_response.
    rewrite Htools, Hcall, Hstatus, Hchoices. cbn [negb].
    now destruct Hcalls as [-> | ->]. }
  destruct (tool_calls choice) as [[|first rest] |] eqn:Hcalls.
  - apply (Hone _ (Hplain (or_intror eq_refl))).
    intros tools batch Hasks Hsome.
    apply Hasks_inv in Hasks as (_ & r & c & o & Hr & _ & Hc & Hb).
    injection Hr as <-. rewrite Hchoices in Hc. injection Hc as <- _.
    rewrite Hcalls in Hb. injection Hb as <-. now elim Hsome.
  - clear Hone Hplain.
    assert (Hasks : asks_batch query available_tools (first :: rest)).
    { split; [assumption |]. exists response, choice, others.
      apply Z.eqb_eq in Hstatus. auto. }
    destruct (process_query_trace query available_tools (first :: rest)
                Hasks) as (Hquery & Hmessages & Hresults & _);
      [discriminate |].
    rewrite Hquery. unfold MCPClient.conclude.
    destruct (tool_results
                (process_tool_calls (initial_state query) (first :: rest)))
      as [|result results] eqn:Hst.
    + cbn [answer gateway_calls transcript List.length].
      split; [lia |]. split; [reflexivity |]. split; [reflexivity |].
      split.
      { intros c [<- | []]. cbn [fst snd]. eauto. }
      split; [intros c more Heq; now injection Heq as <- _ |].
      split; [discriminate |]. split; [| discriminate].
      split; [discriminate |].
      intros (tools & batch & Hasks' & Hsome).
      apply Hasks_inv in Hasks' as (_ & r & c & o & Hr & _ & Hc & Hb).
      injection Hr as <-. rewrite Hchoices in Hc. injection Hc as <- _.
      rewrite Hcalls in Hb. injection Hb as <-.
      elim Hsome. now rewrite <- Hresults.
    + cbn [answer gateway_calls transcript List.length].
      split; [lia |]. split; [reflexivity |]. split; [reflexivity |].
      split.
      { intros c [<- | [<- | []]]; cbn [fst snd]; [eauto |].
        rewrite Hmessages. eauto. }
      split; [intros c more Heq; now injection Heq as <- _ |].
      split; [intros c1 c2 Heq; now injection Heq as _ <- |].
      split; [| discriminate].
      split; [| reflexivity].
      intros _. exists available_tools, (first :: rest).
      split; [assumption |]. rewrite <- Hresults. discriminate.
  - apply (Hone _ (Hplain (or_introl eq_refl))).
    intros tools batch Hasks Hsome.
    apply Hasks_inv in Hasks as (_ & r & c & o & Hr & _ & Hc & Hb).
    injection Hr as <-. rewrite Hchoices in Hc. injection Hc as <- _.
    rewrite Hcalls in Hb. discriminate Hb.
Qed.

(** **** The shape of the transcript *)

Lemma roles_of_exchanges (trace : list (ToolCall * CallResult)) :
  map role (flat_map messages_of trace)
  = flat_map (fun _ => ["assistant"; "tool"]) (flat_map results_of trace)
  /\ Forall (fun m => match m with
                      | AssistantMessage text calls =>
                          text = "" /\ List.length calls = 1%nat
                      | UserMessage _ => False
                      | ToolMessage _ _ => True
                      end)
            (flat_map messages_of trace).
Proof.
  induction trace as [|[tool_call result] trace (IHroles & IHcalls)].
  - split; [reflexivity | constructor].
  - cbn [flat_map]. unfold messages_of at 1 3, results_of at 1.
    cbn [snd fst]. destruct result; cbn [app exchange]; try (split; assumption).
    split.
    + cbn [map role flat_map app]. now rewrite IHroles.
    + repeat constructor; assumption.
Qed.

(** X14.  When the model asks for tools, the transcript is the user's query
    followed by one assistant message and one tool message for each call
    that succeeded, and nothing else: each assistant message has an empty
    text and carries one call, so the model's own message with the whole
    batch is not in it, and neither is any failed call. *)
Theorem transcript_alternates
        (query : string) (available_tools : list Json) (batch : list ToolCall) :
  asks_batch query available_tools batch -> batch <> [] ->
  let out := process_query query in
  let results := flat_map results_of (batch_results 0 batch) in
  exists exchanges,
    transcript out = UserMessage query :: exchanges
    /\ map role exchanges
       = flat_map (fun _ => ["assistant"; "tool"]) results
    /\ List.length exchanges = (2 * List.length results)%nat
    /\ Forall (fun m => match m with
                        | AssistantMessage text calls =>
                            text = "" /\ List.length calls = 1%nat
                        | UserMessage _ => False
                        | ToolMessage _ _ => True
                        end) exchanges.
Proof.
  intros Hasks Hbatch out results. subst out results.
  destruct (process_query_trace query available_tools batch Hasks Hbatch)
    as (Hquery & Hmessages & _).
  rewrite Hquery, conclude_transcript, Hmessages.
  destruct (roles_of_exchanges (batch_results 0 batch)) as (Hroles & Hcalls).
  exists (flat_map messages_of (batch_results 0 batch)).
  split; [reflexivity |]. split; [assumption |]. split; [| assumption].
  rewrite <- (length_map role), Hroles.
  generalize (flat_map results_of (batch_results 0 batch)).
  intros l. induction l as [|x l IH]; cbn [flat_map List.length app]; lia.
Qed.

(** **** The tools invoked *)

Lemma process_tool_calls_invocations (st : LoopState) (batch : list ToolCall) :
  exists invoked,
    invocations (process_tool_calls st batch)
    = (invocations st ++ invoked)%list
    /\ map fst invoked = map call_name (filter reaches_tool batch)
    /\ Forall2 (fun inv tool_call =>
                  decode_arguments json_loads (call_arguments tool_call)
                  = Ok (snd inv))
               invoked (filter reaches_tool batch).
Proof.
  revert st. induction batch as [|tool_call rest IH]; intros st.
  - exists []. cbn. rewrite app_nil_r. auto.
  - cbn [MCPClient.process_tool_calls fold_left filter].
    destruct (IH (process_tool_call st tool_call))
      as (invoked & Hinv & Hnames & Hargs).
    unfold MCPClient.process_tool_calls in Hinv. rewrite Hinv.
    unfold MCPClient.process_tool_call, MCPClient.reaches_tool.
    destruct tool_call as [n a i | n a i | r];
      cbn [call_name call_arguments];
      try (destruct (decode_arguments json_loads a) as [args | e] eqn:Hdecode;
           [destruct (call_tool _ n args) as [result | e] |]);
      cbn [invocations];
      try (exists invoked; split; [reflexivity | split; assumption]);
      (exists ((n, args) :: invoked); rewrite <- app_assoc;
       split; [reflexivity |];
       split; [cbn [map fst call_name]; now rewrite Hnames |];
       constructor; [exact Hdecode | assumption]).
Qed.

(** X15.  When the model asks for tools, the server is asked once for each call
    of a known shape whose arguments decode, in the order of the batch,
    with the name of the call and the decoded arguments: a call whose
    arguments do not decode never reaches the server, a failed call is not
    tried again, and a failure does not stop the calls that follow. *)
Theorem tools_invoked_once_each
        (query : string) (available_tools : list Json) (batch : list ToolCall) :
  asks_batch query available_tools batch -> batch <> [] ->
  let out := process_query query in
  map fst (tools_invoked out) = map call_name (filter reaches_tool batch)
  /\ Forall2 (fun inv tool_call =>
                decode_arguments json_loads (call_arguments tool_call)
                = Ok (snd inv))
             (tools_invoked out) (filter reaches_tool batch)
  /\ (List.length (tools_invoked out) <= List.length batch)%nat.
Proof.
  intros Hasks Hbatch out. subst out.
  rewrite (process_query_batch query available_tools batch Hasks Hbatch).
  destruct (process_tool_calls_invocations (initial_state query) batch)
    as (invoked & Hinv & Hnames & Hargs).
  cbn [initial_state invocations app] in Hinv.
  assert (Hout : tools_invoked
                   (conclude query available_tools
                             (process_tool_calls (initial_state query) batch))
                 = invoked).
  { unfold MCPClient.conclude. now destruct (tool_results _). }
  rewrite Hout. split; [assumption |]. split; [assumption |].
  rewrite <- (length_map fst), Hnames, length_map.
  clear. induction batch as [|x l IH]; cbn [filter List.length]; [lia |].
  destruct (reaches_tool x); cbn [List.length]; lia.
Qed.

End Orchestrator.

(** **** The orchestrator on concrete queries *)


(** Two calls that fail: arguments that do not decode, a tool that the
    server does not have. *)
Lemma failed_batch_answer_witness :
  exists errors,
    List.length errors = 2%nat
    /\ MCPClient.answer
         (MCPClient.process_query
            Scenario.file_tools
            (Scenario.asks_for
               [Scenario.garbled_call; Scenario.unknown_tool_call]
               Scenario.server_error)
            Scenario.file_server Reference.json_loads
            ReferencePrinter.json_dumps "Delete notes.txt")
       = Py.Ok (Py.join Py.nl (map MCPClient.failure_note errors))
    /\ Py.join Py.nl (map MCPClient.failure_note errors) <> "".
Proof.
  destruct (failed_batch_answer
              Scenario.file_tools
              (Scenario.asks_for
                 [Scenario.garbled_call; Scenario.unknown_tool_call]
                 Scenario.server_error)
              Scenario.file_server Reference.json_loads
              ReferencePrinter.json_dumps "Delete notes.txt"
              Scenario.file_tool_schemas
              [Scenario.garbled_call; Scenario.unknown_tool_call])
    as (errors & _ & Hlen & Hanswer & Hsome & _).
  - split; [reflexivity |]. do 3 eexists. repeat split; reflexivity.
  - discriminate.
  - intros entry Hentry. vm_compute in Hentry.
    destruct Hentry as [<- | [<- | []]]; eexists; reflexivity.
  - exists errors. auto.
Defined.

(** Two calls of a shape that the client does not know. *)
Lemma unrecognised_calls_are_skipped_witness :
  MCPClient.answer
    (MCPClient.process_query
       Scenario.file_tools
       (Scenario.asks_for [MCPClient.CallOther "42"; MCPClient.CallOther "None"]
                          Scenario.server_error)
       Scenario.file_server Reference.json_loads ReferencePrinter.json_dumps
       "What is in notes.txt?")
  = Py.Ok MCPClient.no_valid_response.
Proof.
  eapply (proj2 (unrecognised_calls_are_skipped
                   Scenario.file_tools
                   (Scenario.asks_for
                      [MCPClient.CallOther "42"; MCPClient.CallOther "None"]
                      Scenario.server_error)
                   Scenario.file_server Reference.json_loads
                   ReferencePrinter.json_dumps)
                "What is in notes.txt?" Scenario.file_tool_schemas
                [MCPClient.CallOther "42"; MCPClient.CallOther "None"]).
  - split; [reflexivity |]. do 3 eexists. repeat split; reflexivity.
  - discriminate.
  - intros tool_call [<- | [<- | []]]; eexists; reflexivity.
Defined.

(** One call that succeeds, then a final call that returns status 500. *)
Lemma final_call_after_success_witness :
  exists last,
    MCPClient.answer
      (MCPClient.process_query
         Scenario.file_tools
         (Scenario.asks_for [Scenario.read_call] Scenario.server_error)
         Scenario.file_server Reference.json_loads ReferencePrinter.json_dumps
         "What is in notes.txt?")
    = Py.Ok (Py.join Py.nl [last])
    /\ last = MCPClient.final_response_failed.
Proof.
  destruct (final_call_after_success
              Scenario.file_tools
              (Scenario.asks_for [Scenario.read_call] Scenario.server_error)
              Scenario.file_server Reference.json_loads
              ReferencePrinter.json_dumps "What is in notes.txt?"
              Scenario.file_tool_schemas
              [Scenario.read_call])
    as (_ & _ & last & Hanswer & Hlast).
  - split; [reflexivity |]. do 3 eexists. repeat split; reflexivity.
  - exists Scenario.read_call, "remember the milk". vm_compute. now left.
  - exists last. split; [exact Hanswer | exact Hlast].
Defined.

(** C2 as stated fails for a final call that fails with a status other
    than 200.  The call to [read_file] succeeded and one more Gateway call
    was issued; it returned status 500, and the answer is the fixed text
    for a failed final response, not the listing of the tool results. *)
Lemma failed_final_call_gives_no_listing :
  let gateway := Scenario.asks_for [Scenario.read_call] Scenario.server_error in
  let out :=
    MCPClient.process_query
      Scenario.file_tools gateway Scenario.file_server Reference.json_loads
      ReferencePrinter.json_dumps "What is in notes.txt?" in
  MCPClient.batch_results Scenario.file_server Reference.json_loads 0
                          [Scenario.read_call]
  = [(Scenario.read_call, MCPClient.Succeeded "remember the milk")]
  /\ List.length (MCPClient.gateway_calls out) = 2%nat
  /\ (forall tools,
        exists final,
          gateway 1%nat (MCPClient.transcript out) tools = Py.Ok final
          /\ MCPClient.status_code final = 500%Z)
  /\ MCPClient.answer out = Py.Ok MCPClient.final_response_failed
  /\ MCPClient.answer out
     <> Py.Ok (MCPClient.fallback_listing
                 ReferencePrinter.json_dumps
                 [(Some "read_file", "remember the milk")]).
Proof.
  cbv zeta. split; [reflexivity |]. split; [reflexivity |].
  split; [intros tools; eexists; split; reflexivity |].
  split; [reflexivity |].
  vm_compute. discriminate.
Qed.

(** The first Gateway call returns status 500. *)
Lemma process_query_answer_witness :
  MCPClient.answer
    (MCPClient.process_query
       Scenario.file_tools Scenario.out_of_order Scenario.file_server
       Reference.json_loads ReferencePrinter.json_dumps "Hello")
  = Py.Ok (MCPClient.api_failure "Internal Server Error").
Proof.
  destruct (process_query_answer
              Scenario.file_tools Scenario.out_of_order Scenario.file_server
              Reference.json_loads ReferencePrinter.json_dumps "Hello")
    as (_ & _ & Hreturned).
  destruct (Hreturned
              Scenario.file_tool_schemas
              {| MCPClient.status_code := 500;
                 MCPClient.message := "Internal Server Error";
                 MCPClient.choices := [] |}
              eq_refl eq_refl) as (Hfailure & _).
  destruct Hfailure as (Hanswer & _); [discriminate |].
  exact Hanswer.
Defined.

(** C8 as stated fails.  When the model answers with an empty text and
    asks for no tool, [process_query] returns the empty text; when the
    first Gateway call raises, [process_query] returns nothing: the
    exception goes to the caller. *)
Lemma process_query_may_return_nothing :
  MCPClient.answer
    (MCPClient.process_query
       Scenario.file_tools Scenario.empty_answer Scenario.file_server
       Reference.json_loads ReferencePrinter.json_dumps "Hello")
  = Py.Ok ""
  /\ MCPClient.answer
       (MCPClient.process_query
          Scenario.file_tools Scenario.unreachable Scenario.file_server
          Reference.json_loads ReferencePrinter.json_dumps "Hello")
     = Py.Raise "Connection reset by peer".
Proof. split; reflexivity. Qed.

(** A batch of three calls of which the first and the last succeed: the
    transcript has the query and two exchanges. *)
Lemma transcript_alternates_witness :
  exists exchanges,
    MCPClient.transcript
      (MCPClient.process_query
         Scenario.file_tools
         (Scenario.asks_for
            [Scenario.read_call; Scenario.garbled_call; Scenario.read_call]
            Scenario.server_error)
         Scenario.file_server Reference.json_loads ReferencePrinter.json_dumps
         "What is in notes.txt?")
    = MCPClient.UserMessage "What is in notes.txt?" :: exchanges
    /\ map MCPClient.role exchanges = ["assistant"; "tool"; "assistant"; "tool"].
Proof.
  destruct (transcript_alternates
              Scenario.file_tools
              (Scenario.asks_for
                 [Scenario.read_call; Scenario.garbled_call; Scenario.read_call]
                 Scenario.server_error)
              Scenario.file_server Reference.json_loads
              ReferencePrinter.json_dumps "What is in notes.txt?"
              Scenario.file_tool_schemas
              [Scenario.read_call; Scenario.garbled_call; Scenario.read_call])
    as (exchanges & Htranscript & Hroles & _).
  - split; [reflexivity |]. do 3 eexists. repeat split; reflexivity.
  - discriminate.
  - exists exchanges. split; [exact Htranscript | exact Hroles].
Defined.

(** Of a call with garbled arguments, a call of a tool that the server
    does not have and a call that succeeds, the last two reach the
    server. *)
Lemma tools_invoked_once_each_witness :
  map fst
      (MCPClient.tools_invoked
         (MCPClient.process_query
            Scenario.file_tools
            (Scenario.asks_for
               [Scenario.garbled_call; Scenario.unknown_tool_call;
                Scenario.read_call]
               Scenario.server_error)
            Scenario.file_server Reference.json_loads
            ReferencePrinter.json_dumps "Delete notes.txt"))
  = [Some "delete_file"; Some "read_file"].
Proof.
  refine (proj1 (tools_invoked_once_each
                   Scenario.file_tools
                   (Scenario.asks_for
                      [Scenario.garbled_call; Scenario.unknown_tool_call;
                       Scenario.read_call]
                      Scenario.server_error)
                   Scenario.file_server Reference.json_loads
                   ReferencePrinter.json_dumps "Delete notes.txt"
                   Scenario.file_tool_schemas
                   [Scenario.garbled_call; Scenario.unknown_tool_call;
                    Scenario.read_call] _ _)).
  - split; [reflexivity |]. do 3 eexists. repeat split; reflexivity.
  - discriminate.
Defined.

(** * The server tools *)

Section ServerTools.
Import Py ModelBattle Server.

Variable MODEL_BATTLE_AVAILABLE : bool.
Variable database : nat -> string -> list Json -> Try (list Row).
Variable py_str : Json -> string.
Variable bmi : Json -> Json -> Try Json.
Variable Generation_call : nat -> string -> string -> GenerationOutcome.
Variable json_loads : string -> Try Json.
Variable float_of_str : string -> Try Q.
Variable json_dumps : Json -> string.
Variable timestamp : string.
Variable battle_wait : nat -> option nat.

Local Abbreviation execute_query_async := (execute_query_async database py_str).
Local Abbreviation execute_query_sync :=
  (execute_query_sync MODEL_BATTLE_AVAILABLE database py_str).
Local Abbreviation battle := (battle Generation_call json_loads float_of_str).
Local Abbreviation battle_summary := (battle_summary timestamp).
Local Abbreviation execute_battle_sync :=
  (execute_battle_sync MODEL_BATTLE_AVAILABLE Generation_call json_loads
                       float_of_str json_dumps timestamp battle_wait).
Local Abbreviation get_tables_info :=
  (get_tables_info MODEL_BATTLE_AVAILABLE database py_str).
Local Abbreviation get_table_structure :=
  (get_table_structure MODEL_BATTLE_AVAILABLE database py_str).
Local Abbreviation query_user_info :=
  (query_user_info MODEL_BATTLE_AVAILABLE database py_str bmi).
Local Abbreviation query_user_by_phone :=
  (query_user_by_phone MODEL_BATTLE_AVAILABLE database py_str bmi).
Local Abbreviation get_diet_records :=
  (get_diet_records MODEL_BATTLE_AVAILABLE database py_str).
Local Abbreviation query_foods :=
  (query_foods MODEL_BATTLE_AVAILABLE database py_str).
Local Abbreviation query_recipes :=
  (query_recipes MODEL_BATTLE_AVAILABLE database py_str).
Local Abbreviation search_foods_advanced :=
  (search_foods_advanced MODEL_BATTLE_AVAILABLE database py_str).
Local Abbreviation search_recipes_advanced :=
  (search_recipes_advanced MODEL_BATTLE_AVAILABLE database py_str).
Local Abbreviation diet_history_of :=
  (diet_history_of MODEL_BATTLE_AVAILABLE database py_str).
Local Abbreviation generate_weekly_diet_plan :=
  (generate_weekly_diet_plan MODEL_BATTLE_AVAILABLE database py_str
                             Generation_call json_loads float_of_str
                             json_dumps timestamp battle_wait).

(** **** One query *)

Lemma execute_query_async_cases (query : string) (params : list Json)
      (limit : Z) (sent : list Statement) :
  let sql_lower := lower (strip query) in
  (startswith sql_lower "select" = false
   /\ execute_query_async query params limit sent = (select_only, sent))
  \/ (startswith sql_lower "select" = true
      /\ exists statement,
          snd (execute_query_async query params limit sent)
          = (sent ++ [(statement, params)])%list
          /\ statement
             = (if contains "limit" sql_lower then query
                else rstrip_char ";" query ++ " LIMIT " ++ str_of_Z limit)
          /\ fst (execute_query_async query params limit sent)
             = match database (List.length sent) statement params with
               | Ok [] => no_rows
               | Ok (row :: rows) =>
                   "查询成功，返回 "
                     ++ str_of_Z (Z.of_nat (List.length (row :: rows)))
                     ++ " 条记录：" ++ nl
                     ++ py_str (JArr (map JObj (row :: rows)))
               | Raise e => query_failed e
               end).
Proof.
  cbv zeta. unfold Server.execute_query_async.
  destruct (startswith (lower (strip query)) "select"); cbn [negb].
  - right. split; [reflexivity |].
    destruct (contains "limit" (lower (strip query))); cbn [negb];
      eexists; cbn [fst snd]; (split; [reflexivity |]);
      (split; [reflexivity |]);
      now destruct (database _ _ _) as [[|row rows] | e].
  - left. split; reflexivity.
Qed.

Lemma execute_query_async_not_empty (query : string) (params : list Json)
      (limit : Z) (sent : list Statement) :
  fst (execute_query_async query params limit sent) <> "".
Proof.
  destruct (execute_query_async_cases query params limit sent)
    as [(_ & ->) | (_ & statement & _ & _ & ->)]; [discriminate |].
  destruct (database _ _ _) as [[|row rows] | e]; discriminate.
Qed.

Lemma execute_query_sync_not_empty (query : string) (params : list Json)
      (limit : Z) (sent : list Statement) :
  fst (execute_query_sync query params limit sent) <> "".
Proof.
  unfold Server.execute_query_sync. destruct MODEL_BATTLE_AVAILABLE.
  - apply execute_query_async_not_empty.
  - discriminate.
Qed.

(** X16.  [execute_query_sync] never raises and never answers with an empty
    text.  It hands at most one statement to the database, and only for a
    query that begins with [select] once stripped and put in lower case;
    the statement is the query itself when the query mentions [limit]
    anywhere, and otherwise the query without its final semicolons,
    followed by [LIMIT] and the limit.  Where the battle module could not
    be imported, nothing reaches the database and every query is answered
    with the failure text that names [_executor]. *)
Theorem execute_query_sync_answers (query : string) (params : list Json)
        (limit : Z) (sent : list Statement) :
  let out := execute_query_sync query params limit sent in
  let sql_lower := lower (strip query) in
  let statement :=
    if contains "limit" sql_lower then query
    else rstrip_char ";" query ++ " LIMIT " ++ str_of_Z limit in
  fst out <> ""
  /\ (snd out = sent
      \/ MODEL_BATTLE_AVAILABLE = true
         /\ startswith sql_lower "select" = true
         /\ snd out = (sent ++ [(statement, params)])%list)
  /\ (startswith sql_lower "select" = false -> snd out = sent)
  /\ (MODEL_BATTLE_AVAILABLE = false ->
      out = (query_failed executor_undefined, sent)).
Proof.
  cbv zeta.
  split; [apply execute_query_sync_not_empty |].
  unfold Server.execute_query_sync.
  destruct MODEL_BATTLE_AVAILABLE.
  - destruct (execute_query_async_cases query params limit sent)
      as [(Hguard & Hout) | (Hguard & statement & Hsent & -> & _)].
    + rewrite Hout. cbn [snd]. split; [now left |].
      split; [reflexivity | discriminate].
    + rewrite Hsent. split; [now right |].
      split; [congruence | discriminate].
  - cbn [snd]. split; [now left |]. split; reflexivity.
Qed.

Lemma execute_query_sync_available (query : string) (params : list Json)
      (limit : Z) :
  MODEL_BATTLE_AVAILABLE = true ->
  execute_query_sync query params limit
  = execute_query_async query params limit.
Proof. intros Havailable. unfold Server.execute_query_sync. now rewrite Havailable. Qed.

Lemma execute_query_sync_length (query : string) (params : list Json)
      (limit : Z) (sent : list Statement) :
  MODEL_BATTLE_AVAILABLE = true ->
  startswith (lower (strip query)) "select" = true ->
  List.length (snd (execute_query_sync query params limit sent))
  = S (List.length sent).
Proof.
  intros Havailable Hguard. rewrite execute_query_sync_available by assumption.
  destruct (execute_query_async_cases query params limit sent)
    as [(Hno & _) | (_ & statement & -> & _)]; [congruence |].
  rewrite length_app. cbn. lia.
Qed.

(** **** The catalogue queries *)

(** X17.  The queries of [get_tables_info] and [get_table_structure] end with a
    semicolon followed by a line break and four spaces, which
    [rstrip(';')] leaves in place: the statement handed to the database has
    [LIMIT 100] after the semicolon. *)
Theorem catalogue_statements_put_limit_after_semicolon
        (table_name : string) (sent : list Statement) :
  MODEL_BATTLE_AVAILABLE = true ->
  exists tables columns,
    let tables_statement := tables ++ ";" ++ nl ++ "     LIMIT 100" in
    let columns_statement := columns ++ ";" ++ nl ++ "     LIMIT 100" in
    snd (get_tables_info sent) = (sent ++ [(tables_statement, [])])%list
    /\ tables_query = tables ++ ";" ++ nl ++ "    "
    /\ snd (get_table_structure table_name sent)
       = (sent ++ [(columns_statement, [JStr table_name])])%list
    /\ structure_query = columns ++ ";" ++ nl ++ "    ".
Proof.
  intros Havailable.
  exists (String.substring 0 (String.length tables_query - 6) tables_query),
    (String.substring 0 (String.length structure_query - 6) structure_query).
  cbv zeta.
  unfold Server.get_tables_info, Server.get_table_structure.
  rewrite !execute_query_sync_available by assumption.
  destruct (execute_query_async_cases tables_query [] 100 sent)
    as [(Hno & _) | (_ & statement & -> & -> & _)];
    [vm_compute in Hno; discriminate |].
  destruct (execute_query_async_cases structure_query [JStr table_name] 100
                                      sent)
    as [(Hno & _) | (_ & statement' & -> & -> & _)];
    [vm_compute in Hno; discriminate |].
  split; [do 3 f_equal; vm_compute; reflexivity |].
  split; [vm_compute; reflexivity |].
  split; [do 3 f_equal; vm_compute; reflexivity |].
  vm_compute; reflexivity.
Qed.

(** **** The searches *)

(** X18.  With its default field an advanced search is the plain search: of
    foods by [food_name], of recipes by [title].  With an empty search
    term it is the plain listing whatever the field, so a field that is
    not supported is reported only together with a search term, and then
    nothing is handed to the database. *)
Theorem advanced_search_defaults :
  (forall term limit sent,
      search_foods_advanced term "food_name" limit sent
      = query_foods term limit sent
      /\ search_recipes_advanced term "title" limit sent
         = query_recipes term limit sent)
  /\ (forall field limit sent,
         search_foods_advanced "" field limit sent = query_foods "" limit sent
         /\ search_recipes_advanced "" field limit sent
            = query_recipes "" limit sent)
  /\ (forall term field limit sent,
         term <> "" ->
         (field <> "all" -> field <> "food_name" -> field <> "category" ->
          search_foods_advanced term field limit sent
          = (unsupported_food_field field, sent))
         /\ (field <> "all" -> field <> "title" -> field <> "description" ->
             search_recipes_advanced term field limit sent
             = (unsupported_recipe_field field, sent))).
Proof.
  split; [| split].
  - intros term limit sent.
    unfold Server.search_foods_advanced, Server.search_recipes_advanced,
      Server.query_foods, Server.query_recipes.
    destruct (str_truthy term); split; reflexivity.
  - intros field limit sent. split; reflexivity.
  - intros term field limit sent Hterm.
    assert (Htruthy : str_truthy term = true).
    { unfold str_truthy. apply negb_true_iff. now apply String.eqb_neq. }
    unfold Server.search_foods_advanced, Server.search_recipes_advanced.
    rewrite Htruthy. cbn [negb].
    split; intros H1 H2 H3;
      apply String.eqb_neq in H1, H2, H3; now rewrite H1, H2, H3.
Qed.

(** **** The tools that read rows *)

Lemma diet_records_of_text (text : string) :
  text <> "" ->
  (records <~ py_iter (JStr text) ;;
   diet_records <~ diet_records_of records ;;
   Ok (JArr diet_records))
  = Raise str_index_error.
Proof.
  destruct text as [|c text]; [contradiction | reflexivity].
Qed.

Lemma get_diet_records_raises (user_id : Z) (sent : list Statement) :
  fst (get_diet_records user_id sent) = Raise str_index_error.
Proof.
  unfold Server.get_diet_records.
  pose proof (execute_query_sync_not_empty
                "SELECT * FROM diet_records WHERE user_id = $1"
                [JInt user_id] 10 sent) as Htext.
  destruct (execute_query_sync _ _ _ _) as [text sent']. cbn [fst] in *.
  now apply diet_records_of_text.
Qed.

(** X19.  [execute_query_sync] answers with a text, also when rows were found.
    [query_user_info] indexes that text by a field name and
    [get_diet_records] indexes its first character: both raise the
    [TypeError] of a text indexed by a text, for every user and whatever
    the database holds.  [query_user_by_phone] returns the text as it is,
    never a mapping of the user's fields. *)
Theorem row_readers_meet_a_text (user_id limit : Z) (phone : string)
        (sent : list Statement) :
  fst (query_user_info user_id limit sent) = Raise str_index_error
  /\ fst (get_diet_records user_id sent) = Raise str_index_error
  /\ fst (query_user_by_phone phone sent)
     = Ok (JStr (fst (execute_query_sync
                        "SELECT * FROM users WHERE phone = $1 OR name = $1"
                        [JStr phone] 1 sent))).
Proof.
  split; [| split].
  - unfold Server.query_user_info.
    now destruct (execute_query_sync _ _ _ _) as [text sent'].
  - apply get_diet_records_raises.
  - unfold Server.query_user_by_phone.
    now destruct (execute_query_sync _ _ _ _) as [text sent'].
Qed.

(** **** The battle tools *)

Lemma supported_value (m : ModelType) : supported (value m) = true.
Proof. now destruct m. Qed.

Lemma model_types_of_names (names : list string) :
  map value (model_types_of names) = filter supported names.
Proof.
  induction names as [|name names IH]; [reflexivity |].
  cbn [model_types_of filter]. unfold supported at 1.
  cbn [existsb supported_models value].
  destruct (String.eqb_spec name "qwen-turbo") as [-> | _];
    [cbn; now rewrite IH |].
  destruct (String.eqb_spec name "qwen-max") as [-> | _];
    [cbn; now rewrite IH |].
  destruct (String.eqb_spec name "qwen-vl-max") as [-> | _];
    [cbn; now rewrite IH |].
  destruct (String.eqb_spec name "qwen-audio-turbo-latest") as [-> | _];
    [cbn; now rewrite IH |].
  exact IH.
Qed.

(** X20.  The names that [execute_battle_sync] takes are exactly the values of
    the model types: the model types it makes of a list of names are those
    of the supported names, in order and with repetitions, and every list
    of model types comes back from its names. *)
Theorem model_names_round_trip :
  (forall names,
      map value (model_types_of names) = filter supported names)
  /\ (forall ms, model_types_of (map value ms) = ms).
Proof.
  split; [exact model_types_of_names |].
  induction ms as [|m ms IH]; [reflexivity |].
  cbn [map]. destruct m; cbn; now rewrite IH.
Qed.

Lemma execute_battle_sync_runs (question : string) (models : list string)
      (calls : list Call) :
  MODEL_BATTLE_AVAILABLE = true ->
  model_types_of models <> [] ->
  let run := battle question (model_types_of models) 2 calls in
  execute_battle_sync question models calls
  = match battle_wait (List.length calls) with
    | None =>
        (match fst run with
         | Ok r => json_dumps (battle_summary r)
         | Raise e => battle_failed e
         end,
         snd run)
    | Some k => (battle_timed_out, firstn (List.length calls + k) (snd run))
    end.
Proof.
  intros Havailable Hsome. cbv zeta. unfold Server.execute_battle_sync.
  rewrite Havailable. cbn [negb].
  destruct (model_types_of models) as [|m ms]; [contradiction |].
  unfold bind, ret, future_result.
  destruct (battle question (m :: ms) 2 calls) as [result calls'].
  now destruct (battle_wait (List.length calls)).
Qed.

(** The calls on the log when a wait has timed out: the calls issued
    before the battle, then the first calls of the battle. *)
Lemma timed_out_log (question : string) (ms : list ModelType)
      (calls : list Call) (k : nat) :
  exists issued later,
    snd (battle question ms 2 calls) = (calls ++ issued ++ later)%list
    /\ firstn (List.length calls + k) (snd (battle question ms 2 calls))
       = (calls ++ issued)%list
    /\ (List.length issued <= k)%nat.
Proof.
  destruct (battle_extends Generation_call json_loads float_of_str
              question ms 2 calls) as (all & Hall).
  exists (firstn k all), (skipn k all).
  rewrite firstn_skipn. split; [exact Hall |].
  rewrite Hall, firstn_app_2. split; [reflexivity |].
  apply firstn_le_length.
Qed.


(** **** The weekly diet plan *)

Lemma diet_history_of_empty (user_id : option Z) (sent : list Statement) :
  fst (diet_history_of user_id sent) = ""
  /\ snd (diet_history_of user_id sent)
     = match user_id with
       | Some id =>
           if (id =? 0)%Z then sent
           else snd (execute_query_sync
                       "SELECT * FROM diet_records WHERE user_id = $1"
                       [JInt id] 10 sent)
       | None => sent
       end.
Proof.
  unfold Server.diet_history_of.
  destruct user_id as [id |]; [| split; reflexivity].
  destruct (id =? 0)%Z; cbn [negb]; [split; reflexivity |].
  pose proof (get_diet_records_raises id sent) as Hraise.
  unfold Server.get_diet_records in *.
  destruct (execute_query_sync _ _ _ _) as [text sent']. cbn [fst snd] in *.
  rewrite Hraise. split; reflexivity.
Qed.

Lemma listing_sends_one (sent : list Statement) :
  MODEL_BATTLE_AVAILABLE = true ->
  List.length (snd (query_foods "" 15 sent)) = S (List.length sent)
  /\ List.length (snd (query_recipes "" 10 sent)) = S (List.length sent).
Proof.
  intros Havailable. unfold Server.query_foods, Server.query_recipes.
  cbn [str_truthy String.eqb negb].
  split; apply execute_query_sync_length; try assumption; reflexivity.
Qed.


End ServerTools.

(** **** The tools on a pantry *)

(** The catalogue queries on a database that answers. *)
Lemma catalogue_statements_put_limit_after_semicolon_witness :
  exists tables,
    snd (Server.get_tables_info true Pantry.one_row Pantry.py_str [])
    = [(tables ++ ";" ++ Py.nl ++ "     LIMIT 100", [])].
Proof.
  destruct (catalogue_statements_put_limit_after_semicolon
              true Pantry.one_row Pantry.py_str "foods" [] eq_refl)
    as (tables & columns & Htables & _).
  exists tables. exact Htables.
Defined.

(** A search for [rice] by a field that does not exist. *)
Lemma advanced_search_defaults_witness :
  Server.search_foods_advanced true Pantry.one_row Pantry.py_str
                               "rice" "colour" 20%Z []
  = (Server.unsupported_food_field "colour", []).
Proof.
  apply (proj1 (proj2 (proj2 (advanced_search_defaults
                                true Pantry.one_row Pantry.py_str))
                      "rice" "colour" 20%Z [] ltac:(discriminate)));
    discriminate.
Defined.


(** The same battle when the wait for it times out after three calls. *)
Example battle_tool_times_out :
  Server.execute_battle_sync
    true Scenario.all_answering Reference.json_loads
    Reference.float_of_str ReferencePrinter.json_dumps Pantry.timestamp
    Pantry.slow
    Scenario.arithmetic_question ["qwen-max"; "gpt-4"; "qwen-turbo"] []
  = (Server.battle_timed_out,
     [("qwen-max", Scenario.arithmetic_question);
      ("qwen-turbo", Scenario.arithmetic_question);
      ("qwen-turbo",
       ModelBattle.generate_scoring_prompt
         Scenario.arithmetic_question
         (fst (ModelBattle.call_model Scenario.all_answering
                 ModelBattle.DASHSCOPE_QWEN_MAX
                 Scenario.arithmetic_question [])))]).
Proof. vm_compute. reflexivity. Qed.


(** The same plan when the wait for the battle times out: the answer is
    the text of the timeout. *)
Example weekly_plan_times_out :
  fst (fst (Server.generate_weekly_diet_plan
              true Pantry.one_row Pantry.py_str Scenario.all_answering
              Reference.json_loads Reference.float_of_str
              ReferencePrinter.json_dumps Pantry.timestamp Pantry.slow
              "vegetarian, 30 years old" (Some 7%Z) [] []))
  = Server.battle_timed_out.
Proof. vm_compute. reflexivity. Qed.

(** The answer of a query that finds a row is a text. *)
Example query_answer_is_a_text :
  fst (Server.query_foods true Pantry.one_row Pantry.py_str "" 20%Z [])
  = "查询成功，返回 1 条记录：" ++ Py.nl ++ "[1 rows]".
Proof. vm_compute. reflexivity. Qed.

(** * The chat loop *)

Section Chat.
Import Py ChatLoop.

Variable input : nat -> Input.
Variable process_query : nat -> string -> Try string.

Local Abbreviation turn := (turn input process_query).
Local Abbreviation chat_loop := (chat_loop input process_query).

Lemma turn_line (s : Session) (text : string) :
  input (lines_read s) = Line text -> quits text = false ->
  exists line,
    turn s = Some {| lines_read := S (lines_read s);
                     queries := (queries s ++ [Server.strip text])%list;
                     printed := (printed s ++ [line])%list |}.
Proof.
  intros Hinput Hquits. unfold ChatLoop.turn, quits in *.
  rewrite Hinput, Hquits. eauto.
Qed.

Lemma chat_loop_lines (lines : list string) (s : Session) (fuel : nat) :
  (forall i text, nth_error lines i = Some text ->
                  input (lines_read s + i) = Line text) ->
  Forall (fun text => quits text = false) lines ->
  exists shown,
    List.length shown = List.length lines
    /\ chat_loop (List.length lines + fuel) s
       = chat_loop fuel
           {| lines_read := lines_read s + List.length lines;
              queries := (queries s ++ map Server.strip lines)%list;
              printed := (printed s ++ shown)%list |}.
Proof.
  revert s. induction lines as [|text lines IH]; intros s Hinput Hquits.
  - exists []. split; [reflexivity |]. cbn [List.length map Nat.add].
    rewrite Nat.add_0_r, !app_nil_r. now destruct s.
  - inversion Hquits as [|? ? Htext Hrest]; subst.
    destruct (turn_line s text) as (line & Hturn); [| assumption |].
    { rewrite <- (Hinput 0%nat text eq_refl). now rewrite Nat.add_0_r. }
    cbn [List.length Nat.add ChatLoop.chat_loop]. rewrite Hturn.
    destruct (IH {| lines_read := S (lines_read s);
                    queries := (queries s ++ [Server.strip text])%list;
                    printed := (printed s ++ [line])%list |})
      as (shown & Hlen & Hloop).
    + intros i t Hi. cbn [lines_read].
      rewrite <- (Hinput (S i) t Hi). f_equal. lia.
    + assumption.
    + exists (line :: shown). split; [cbn; now rewrite Hlen |].
      rewrite Hloop. cbn [lines_read queries printed map].
      rewrite <- !app_assoc. cbn [app].
      now replace (S (lines_read s) + List.length lines)%nat
        with (lines_read s + S (List.length lines))%nat by lia.
Qed.

(** X23.  When the lines typed are [lines], none of which is [quit], followed by
    a line that is [quit] once stripped and put in lower case, the loop
    ends after reading them: it has handed each of [lines], stripped, to
    [process_query], in order, and printed one line for each, whether the
    query was answered or raised; the line that ends the loop is not
    handed over. *)
Theorem chat_loop_ends_at_quit (lines : list string) (last : string)
        (spare : nat) :
  (forall i text, nth_error lines i = Some text -> input i = Line text) ->
  Forall (fun text => quits text = false) lines ->
  input (List.length lines) = Line last ->
  quits last = true ->
  exists s,
    chat_loop (List.length lines + S spare) start = Some s
    /\ queries s = map Server.strip lines
    /\ List.length (printed s) = List.length lines
    /\ lines_read s = List.length lines.
Proof.
  intros Hinput Hquits Hlast Hends.
  destruct (chat_loop_lines lines start (S spare)) as (shown & Hlen & Hloop);
    [exact Hinput | exact Hquits |].
  rewrite Hloop. cbn [start lines_read queries printed app Nat.add].
  cbn [ChatLoop.chat_loop]. unfold ChatLoop.turn at 1. cbn [lines_read].
  rewrite Hlast. unfold quits in Hends. rewrite Hends.
  eexists. split; [reflexivity |]. cbn [queries printed lines_read]. auto.
Qed.

Lemma chat_loop_at_end_of_input (fuel : nat) (s : Session) :
  (forall i, (lines_read s <= i)%nat -> input i = EndOfInput) ->
  chat_loop fuel s = None.
Proof.
  revert s. induction fuel as [|fuel IH]; intros s Hend; [reflexivity |].
  cbn [ChatLoop.chat_loop]. unfold ChatLoop.turn at 1.
  rewrite (Hend (lines_read s) (Nat.le_refl _)).
  apply IH. cbn [lines_read]. intros i Hi. apply Hend. lia.
Qed.

(** X24.  When the input ends before a line that is [quit] was typed, the loop
    never ends: [input] raises [EOFError] at every turn from then on, the
    handler of the loop catches it, and the loop goes on. *)
Theorem chat_loop_spins_at_end_of_input (lines : list string) (fuel : nat) :
  (forall i text, nth_error lines i = Some text -> input i = Line text) ->
  Forall (fun text => quits text = false) lines ->
  (forall i, (List.length lines <= i)%nat -> input i = EndOfInput) ->
  chat_loop fuel start = None.
Proof.
  intros Hinput Hquits Hend.
  destruct (Nat.le_gt_cases (List.length lines) fuel) as [Hle | Hlt].
  - destruct (chat_loop_lines lines start (fuel - List.length lines))
      as (shown & _ & Hloop); [exact Hinput | exact Hquits |].
    replace (List.length lines + (fuel - List.length lines))%nat with fuel
      in Hloop by lia.
    rewrite Hloop. apply chat_loop_at_end_of_input.
    cbn [start lines_read Nat.add]. exact Hend.
  - assert (Hprefix : forall k (s : Session) (rest : list string),
               (forall i text, nth_error rest i = Some text ->
                               input (lines_read s + i) = Line text) ->
               Forall (fun text => quits text = false) rest ->
               (k <= List.length rest)%nat ->
               chat_loop k s = None).
    { induction k as [|k IH]; intros s rest Hrest Hno Hk; [reflexivity |].
      destruct rest as [|text rest]; [cbn in Hk; lia |].
      inversion Hno as [|? ? Htext Hmore]; subst.
      destruct (turn_line s text) as (line & Hturn); [| assumption |].
      { rewrite <- (Hrest 0%nat text eq_refl). now rewrite Nat.add_0_r. }
      cbn [ChatLoop.chat_loop]. rewrite Hturn.
      apply (IH _ rest); [| assumption | cbn in Hk; lia].
      intros i t Hi. cbn [lines_read].
      rewrite <- (Hrest (S i) t Hi). f_equal. lia. }
    apply (Hprefix fuel start lines); [exact Hinput | exact Hquits | lia].
Qed.

End Chat.

(** Two queries, of which the second raises, then [QUIT] with spaces
    around it. *)
Lemma chat_loop_ends_at_quit_witness :
  exists s,
    ChatLoop.chat_loop Terminal.typed_lines Terminal.second_query_raises
                       3 ChatLoop.start
    = Some s
    /\ ChatLoop.queries s = ["What is in notes.txt?"; "and in todo.txt?"].
Proof.
  destruct (chat_loop_ends_at_quit
              Terminal.typed_lines Terminal.second_query_raises
              ["What is in notes.txt?"; "  and in todo.txt?  "] " QUIT " 0)
    as (s & Hloop & Hqueries & _).
  - intros [|[|i]] text Hi; cbn in Hi; try (injection Hi as <-; reflexivity).
    now destruct i.
  - repeat constructor.
  - reflexivity.
  - reflexivity.
  - exists s. split; [exact Hloop | exact Hqueries].
Defined.

(** One query piped in: a thousand turns later the loop is still
    running. *)
Lemma chat_loop_spins_at_end_of_input_witness :
  ChatLoop.chat_loop Terminal.piped_line Terminal.second_query_raises
                     1000 ChatLoop.start
  = None.
Proof.
  apply (chat_loop_spins_at_end_of_input
           Terminal.piped_line Terminal.second_query_raises
           ["What is in notes.txt?"] 1000).
  - intros [|i] text Hi; cbn in Hi; [injection Hi as <-; reflexivity |].
    now destruct i.
  - repeat constructor.
  - intros [|i] Hi; [cbn in Hi; lia | reflexivity].
Defined.
